(** * Ridesharing matching: the optimisation models of the repository

    A shallow embedding of [src/ridesharing_optimization.py] (the module-level
    script) and of [src/src/ridesharing_optimization.py] (the class
    [RidesharingOptimizer]).

    Numbers are exact rationals ([Q]); Python exceptions are the constructors
    of [exn]; the external solver is described by its contract ([optimal]):
    the source asks nothing else of it. *)

From Stdlib Require Import String DecimalString.
From Stdlib Require Import List ZArith QArith Qminmax Qabs Lqa Lia Bool
  Permutation Arith Sorted.
Import ListNotations.
Open Scope Q_scope.

(** ** Exceptions and results *)

Inductive exn :=
| KeyError (name : string)
| IndexError
| ZeroDivisionError
| TypeError
| ValueError
| NameError.

Inductive result (A : Type) :=
| Ok (a : A)
| Raise (e : exn).
Arguments Ok {A} a.
Arguments Raise {A} e.

Definition bind {A B} (r : result A) (f : A -> result B) : result B :=
  match r with Ok a => f a | Raise e => Raise e end.

Notation "x <- r ;; k" := (bind r (fun x => k))
  (at level 61, r at next level, right associativity).
Notation "' p <- r ;; k" := (bind r (fun p => k))
  (at level 61, p pattern, r at next level, right associativity).

Fixpoint mapM {A B} (f : A -> result B) (l : list A) : result (list B) :=
  match l with
  | [] => Ok []
  | a :: l' => b <- f a ;; bs <- mapM f l' ;; Ok (b :: bs)
  end.

(** Python's [a / b] on numbers. *)
Definition py_div (a b : Q) : result Q :=
  if Qeq_bool b 0 then Raise ZeroDivisionError else Ok (a / b).

(** ** Data frames *)

Inductive cell :=
| CInt (z : Z)
| CFloat (q : Q)
| CStr (s : string).

(** A frame is a row count and its named columns, in order. *)
Record DataFrame := mkFrame {
  nrows : nat;
  cols : list (string * list cell)
}.

Fixpoint lookup_col (name : string) (cs : list (string * list cell))
  : option (list cell) :=
  match cs with
  | [] => None
  | (n, c) :: cs' => if String.eqb n name then Some c else lookup_col name cs'
  end.

(** [df[name]] *)
Definition getcol (df : DataFrame) (name : string) : result (list cell) :=
  match lookup_col name (cols df) with
  | Some c => Ok c
  | None => Raise (KeyError name)
  end.

Definition has_col (df : DataFrame) (name : string) : bool :=
  match lookup_col name (cols df) with Some _ => true | None => false end.

Definition column_names (df : DataFrame) : list string := map fst (cols df).

(** [df[name] = c]: replaces the column in place, or appends it. *)
Fixpoint set_col_in (name : string) (c : list cell)
  (cs : list (string * list cell)) : list (string * list cell) :=
  match cs with
  | [] => [(name, c)]
  | (n, c0) :: cs' =>
      if String.eqb n name then (n, c) :: cs' else (n, c0) :: set_col_in name c cs'
  end.

Definition setcol (df : DataFrame) (name : string) (c : list cell) : DataFrame :=
  mkFrame (nrows df) (set_col_in name c (cols df)).

(** [df.drop(columns=names)]: a name that is not a column is a [KeyError]. *)
Definition mem_string (s : string) (l : list string) : bool :=
  existsb (String.eqb s) l.

Definition drop_columns (df : DataFrame) (names : list string) : result DataFrame :=
  match find (fun n => negb (has_col df n)) names with
  | Some n => Raise (KeyError n)
  | None =>
      Ok (mkFrame (nrows df)
            (filter (fun nc => negb (mem_string (fst nc) names)) (cols df)))
  end.

(** [df[names]] with a list of names: the columns in the order asked. *)
Definition select_columns (df : DataFrame) (names : list string) : result DataFrame :=
  cs <- mapM (fun n => c <- getcol df n ;; Ok (n, c)) names ;;
  Ok (mkFrame (nrows df) cs).

(** Integer and numeric readings of a cell.  Announcement ids are integers
    (load_data compares them with 100000) and the coordinate and distance
    columns hold numbers; a cell of another kind is reported as TypeError. *)
Definition as_int (c : cell) : result Z :=
  match c with CInt z => Ok z | _ => Raise TypeError end.

Definition as_num (c : cell) : result Q :=
  match c with
  | CInt z => Ok (inject_Z z)
  | CFloat q => Ok q
  | CStr _ => Raise TypeError
  end.

Definition int_col (df : DataFrame) (name : string) : result (list Z) :=
  c <- getcol df name ;; mapM as_int c.

Definition num_col (df : DataFrame) (name : string) : result (list Q) :=
  c <- getcol df name ;; mapM as_num c.

(** [series.iloc[i]] *)
Definition iloc {A} (l : list A) (i : nat) : result A :=
  match nth_error l i with Some a => Ok a | None => Raise IndexError end.

(** [series.unique()]: first occurrences, in order. *)
Fixpoint unique (l : list Z) : list Z :=
  match l with
  | [] => []
  | z :: l' => z :: filter (fun y => negb (Z.eqb y z)) (unique l')
  end.

(** ** The solver interface (gurobipy)

    Variables are column indices of the model; all are binary.  A linear
    expression is a list of terms; every constraint is [expr <= rhs]. *)

Definition Var := nat.
Definition LinExpr := list (Q * Var).
Inductive Sense := MINIMIZE | MAXIMIZE.

Record Model := mkModel {
  numvars : nat;
  objective : LinExpr;
  sense : Sense;
  constrs : list (LinExpr * Q)
}.

(** A solution assigns 0 or 1 to each variable; [X s v] is [v.X]. *)
Definition Solution := list bool.

Definition X (s : Solution) (v : Var) : Q := if nth v s false then 1 else 0.

Definition eval (s : Solution) (e : LinExpr) : Q :=
  fold_right (fun t acc => fst t * X s (snd t) + acc) 0 e.

Definition objective_value (m : Model) (s : Solution) : Q := eval s (objective m).

Definition feasible (m : Model) (s : Solution) : Prop :=
  length s = numvars m /\
  Forall (fun c => eval s (fst c) <= snd c) (constrs m).

Definition at_least_as_good (m : Model) (s s' : Solution) : Prop :=
  match sense m with
  | MAXIMIZE => objective_value m s' <= objective_value m s
  | MINIMIZE => objective_value m s <= objective_value m s'
  end.

(** The contract of [model.optimize()] with status [GRB.OPTIMAL]. *)
Definition optimal (m : Model) (s : Solution) : Prop :=
  feasible m s /\ forall s', feasible m s' -> at_least_as_good m s s'.

(** [v.X > 0.5] *)
Definition chosen (s : Solution) (v : Var) : bool :=
  negb (Qle_bool (X s v) (1 # 2)).

(** Decision procedures for the contract, by enumeration. *)
Fixpoint all_solutions (n : nat) : list Solution :=
  match n with
  | O => [[]]
  | S n' => map (cons false) (all_solutions n') ++ map (cons true) (all_solutions n')
  end.

Definition feasibleb (m : Model) (s : Solution) : bool :=
  Nat.eqb (length s) (numvars m) &&
  forallb (fun c => Qle_bool (eval s (fst c)) (snd c)) (constrs m).

Definition at_least_as_goodb (m : Model) (s s' : Solution) : bool :=
  match sense m with
  | MAXIMIZE => Qle_bool (objective_value m s') (objective_value m s)
  | MINIMIZE => Qle_bool (objective_value m s) (objective_value m s')
  end.

Definition optimalb (m : Model) (s : Solution) : bool :=
  feasibleb m s &&
  forallb (fun s' => negb (feasibleb m s') || at_least_as_goodb m s s')
          (all_solutions (numvars m)).

(** ** The class RidesharingOptimizer (src/src/ridesharing_optimization.py) *)

(** [str] on an integer *)
Definition str_of_Z (z : Z) : string := NilZero.string_of_int (Z.to_int z).

Definition suffixed (others : list string) (suffix n : string) : string :=
  if mem_string n others then String.append n suffix else n.

(** [pd.merge(l, r, on='key').drop('key', axis=1)] where the key column is the
    constant 1 on both sides: every left row meets every right row, the left
    rows outermost; a name that both sides carry gets [_x] and [_y]. *)
Definition merge_on_key (l r : DataFrame) : DataFrame :=
  let lc := filter (fun nc => negb (String.eqb (fst nc) "key")) (cols l) in
  let rc := filter (fun nc => negb (String.eqb (fst nc) "key")) (cols r) in
  mkFrame (nrows l * nrows r)
    (map (fun nc => (suffixed (map fst rc) "_x" (fst nc),
                     flat_map (fun v => repeat v (nrows r)) (snd nc))) lc ++
     map (fun nc => (suffixed (map fst lc) "_y" (fst nc),
                     concat (repeat (snd nc) (nrows l)))) rc).

(** [geopy.distance.geodesic(p, q)] builds a point from each argument and
    refuses a latitude outside [-90, 90] with ValueError; a longitude is
    wrapped into range. *)
Definition valid_latitude (lat : Q) : bool :=
  Qle_bool (-90) lat && Qle_bool lat 90.

Definition geopy_point (p : Q * Q) : result (Q * Q) :=
  if valid_latitude (fst p) then Ok p else Raise ValueError.

Section Optimizer.

(** [geopy.distance.geodesic(p, q).kilometers] on two points geopy accepts
    and [str] on a float are library functions; the development is
    parametric in them. *)
Variable geodesic : Q * Q -> Q * Q -> Q.
Variable str_of_float : Q -> string.

Definition astype_str (c : cell) : string :=
  match c with
  | CInt z => str_of_Z z
  | CFloat q => str_of_float q
  | CStr s => s
  end.

Fixpoint zip_with {A B C} (f : A -> B -> C) (l : list A) (l' : list B) : list C :=
  match l, l' with
  | a :: t, b :: t' => f a b :: zip_with f t t'
  | _, _ => []
  end.

(** [self.driverdf['key'] = 1] *)
Definition with_key (df : DataFrame) : DataFrame :=
  setcol df "key" (repeat (CInt 1) (nrows df)).

(** The result is [self.processdf]; [self.driverdf] and [self.riderdf] become
    [with_key driverdf] and [with_key riderdf]. *)
Definition create_pairs (driverdf riderdf : DataFrame) : result DataFrame :=
  let pairdf := merge_on_key (with_key driverdf) (with_key riderdf) in
  ax <- getcol pairdf "Announcement_x" ;;
  ay <- getcol pairdf "Announcement_y" ;;
  let pairdf := setcol pairdf "Combined_Announcement"
      (zip_with (fun a b => CStr (String.append (astype_str a) (astype_str b))) ax ay) in
  pairdf <- drop_columns pairdf ["Announcement_x"; "Announcement_y"]%string ;;
  let columns := column_names pairdf in
  let new_order := last columns ""%string :: removelast columns in
  select_columns pairdf new_order.

Inductive Method :=
| distance_savings
| distance_proximity
| adjusted_proximity
| other_method (name : string).

(** The fields one iteration of [calculate_weights] reads from [row]. *)
Record PairRow := mkPairRow {
  driver_origin : cell * cell;
  driver_endpoint : cell * cell;
  rider_origin : cell * cell;
  rider_endpoint : cell * cell;
  driver_trip_length : cell;
  rider_trip_length : cell
}.

(** [row[name]] for row [i] *)
Definition row_get (df : DataFrame) (i : nat) (name : string) : result cell :=
  c <- getcol df name ;; iloc c i.

Definition read_row (df : DataFrame) (i : nat) : result PairRow :=
  dolat <- row_get df i "Origin_Latitude_x" ;;
  dolon <- row_get df i "Origin_Longitude_x" ;;
  ddlat <- row_get df i "Destination_Latitude_x" ;;
  ddlon <- row_get df i "Destination_Longitude_x" ;;
  rolat <- row_get df i "Origin_Latitude_y" ;;
  rolon <- row_get df i "Origin_Longitude_y" ;;
  rdlat <- row_get df i "Destination_Latitude_y" ;;
  rdlon <- row_get df i "Destination_Longitude_y" ;;
  dt <- row_get df i "Distance_Car-Peak_x" ;;
  rt <- row_get df i "Distance_Car-Peak_y" ;;
  Ok (mkPairRow (dolat, dolon) (ddlat, ddlon) (rolat, rolon) (rdlat, rdlon) dt rt).

Definition point (p : cell * cell) : result (Q * Q) :=
  a <- as_num (fst p) ;; b <- as_num (snd p) ;; Ok (a, b).

Definition geodesic_km (p q : cell * cell) : result Q :=
  a <- point p ;; a <- geopy_point a ;;
  b <- point q ;; b <- geopy_point b ;;
  Ok (geodesic a b).

(** The three legs: driver origin, rider origin, rider endpoint, driver endpoint. *)
Definition three_legs (dor ror rend dend : cell * cell) : result Q :=
  a <- geodesic_km dor ror ;;
  b <- geodesic_km ror rend ;;
  c <- geodesic_km rend dend ;;
  Ok (a + b + c).

(** [min(a, b)] *)
Definition py_min (a b : Q) : Q := if Qle_bool a b then a else b.

(** The body of the loop: the weight of one pair.  A method other than the
    three leaves [weight] unbound when it is stored. *)
Definition weight_of_row (method : Method) (row : PairRow) : result Q :=
  match method with
  | distance_savings =>
      dt <- as_num (driver_trip_length row) ;;
      rt <- as_num (rider_trip_length row) ;;
      let no_match_length := dt + rt in
      with_match_length <- three_legs (driver_origin row) (rider_origin row)
                             (rider_endpoint row) (driver_endpoint row) ;;
      Ok (no_match_length - with_match_length)
  | distance_proximity =>
      dt <- as_num (driver_trip_length row) ;;
      rt <- as_num (rider_trip_length row) ;;
      a <- py_div dt rt ;;
      b <- py_div rt dt ;;
      Ok (py_min a b)
  | adjusted_proximity =>
      with_match_length <- three_legs (driver_origin row) (rider_origin row)
                             (rider_endpoint row) (driver_endpoint row) ;;
      dt <- as_num (driver_trip_length row) ;;
      rt <- as_num (rider_trip_length row) ;;
      c <- py_div dt with_match_length ;;
      a <- py_div dt rt ;;
      b <- py_div rt dt ;;
      Ok (c * py_min a b)
  | other_method _ => Raise NameError
  end.

Definition calculate_weights (method : Method) (processdf : DataFrame)
  : result DataFrame :=
  let processdf := setcol processdf "weight" (repeat (CInt 0) (nrows processdf)) in
  ws <- mapM (fun i => row <- read_row processdf i ;; weight_of_row method row)
             (seq 0 (nrows processdf)) ;;
  Ok (setcol processdf "weight" (map CFloat ws)).

End Optimizer.

(** *** build_model *)

Definition Key2 := (Z * Z)%type.
Definition Key3 := (Z * Z * Q)%type.

Definition key2_eqb (k k' : Key2) : bool :=
  Z.eqb (fst k) (fst k') && Z.eqb (snd k) (snd k').

(** Tuples compare componentwise; the weights compare as numbers. *)
Definition key3_eqb (k k' : Key3) : bool :=
  key2_eqb (fst k) (fst k') && Qeq_bool (snd k) (snd k').

Definition driver_of (k : Key3) : Z := fst (fst k).
Definition rider_of (k : Key3) : Z := snd (fst k).
Definition weight_of (k : Key3) : Q := snd k.

(** [set(...)]: each element once.  The iteration order of a Python set is
    not specified; the list keeps the order of first occurrence. *)
Fixpoint py_set {K} (eqb : K -> K -> bool) (l : list K) : list K :=
  match l with
  | [] => []
  | k :: l' => k :: filter (fun k' => negb (eqb k' k)) (py_set eqb l')
  end.

Fixpoint zip3 {A B C} (a : list A) (b : list B) (c : list C) : list (A * B * C) :=
  match a, b, c with
  | x :: a', y :: b', z :: c' => (x, y, z) :: zip3 a' b' c'
  | _, _, _ => []
  end.

(** The tupledict returned by [addVars]: keys in insertion order, each with
    its variable. *)
Inductive tupledict :=
| Keys2 (entries : list (Key2 * Var))
| Keys3 (entries : list (Key3 * Var)).

Definition addVars {K} (keys : list K) : list (K * Var) :=
  combine keys (seq 0 (length keys)).

(** [x[k]] and [k in x] *)
Definition dict_get {K} (eqb : K -> K -> bool) (x : list (K * Var)) (k : K)
  : result Var :=
  match find (fun kv => eqb (fst kv) k) x with
  | Some kv => Ok (snd kv)
  | None => Raise (KeyError "x")
  end.

Definition dict_mem {K} (eqb : K -> K -> bool) (x : list (K * Var)) (k : K) : bool :=
  existsb (fun kv => eqb (fst kv) k) x.

(** The candidate edges the model is built on. *)
Definition possible_matches3 (processdf : DataFrame) : result (list Key3) :=
  ax <- int_col processdf "Announcement_x" ;;
  ay <- int_col processdf "Announcement_y" ;;
  w <- num_col processdf "weight" ;;
  Ok (py_set key3_eqb (zip3 ax ay w)).

Definition possible_matches2 (processdf : DataFrame) : result (list Key2) :=
  ax <- int_col processdf "Announcement_x" ;;
  ay <- int_col processdf "Announcement_y" ;;
  Ok (py_set key2_eqb (combine ax ay)).

Definition unique_ids (df : DataFrame) : result (list Z) :=
  c <- int_col df "Announcement" ;; Ok (unique c).

(** The constraint [x_1 + ... + x_n <= 1]. *)
Definition at_most_one (vars : list Var) : LinExpr * Q :=
  (map (fun v => (1, v)) vars, 1).

(** [addConstr(sum(...) <= 1)] with Python's [sum]: over no terms the sum is
    the integer 0, the comparison is the bool [True], and addConstr, handed
    that bool, stores the row [0 <= 0]. *)
Definition sum_le_one (vars : list Var) : result (LinExpr * Q) :=
  match vars with
  | [] => Ok ([], 0)
  | _ => Ok (at_most_one vars)
  end.

Definition build_model (use_weights : bool) (driverdf riderdf processdf : DataFrame)
  : result (Model * tupledict) :=
  drivers <- unique_ids driverdf ;;
  riders <- unique_ids riderdf ;;
  if use_weights then
    possible_matches <- possible_matches3 processdf ;;
    let x := addVars possible_matches in
    obj <- mapM (fun k => v <- dict_get key3_eqb x k ;; Ok (weight_of k, v))
                possible_matches ;;
    cd <- mapM (fun d =>
                  vs <- mapM (dict_get key3_eqb x)
                          (filter (fun k => Z.eqb (driver_of k) d) possible_matches) ;;
                  sum_le_one vs) drivers ;;
    cr <- mapM (fun r =>
                  vs <- mapM (dict_get key3_eqb x)
                          (filter (fun k => Z.eqb (rider_of k) r) possible_matches) ;;
                  sum_le_one vs) riders ;;
    Ok (mkModel (length x) obj MAXIMIZE (cd ++ cr), Keys3 x)
  else
    possible_matches <- possible_matches2 processdf ;;
    let x := addVars possible_matches in
    let obj := map (fun kv => (1, snd kv)) x in
    cd <- mapM (fun d =>
                  vs <- mapM (fun r => dict_get key2_eqb x (d, r))
                          (filter (fun r => dict_mem key2_eqb x (d, r)) riders) ;;
                  sum_le_one vs) drivers ;;
    cr <- mapM (fun r =>
                  vs <- mapM (fun d => dict_get key2_eqb x (d, r))
                          (filter (fun d => dict_mem key2_eqb x (d, r)) drivers) ;;
                  sum_le_one vs) riders ;;
    Ok (mkModel (length x) obj MAXIMIZE (cd ++ cr), Keys2 x).

(** The pairs the solution selects: the keys whose variable is above 0.5. *)
Definition selected {K} (x : list (K * Var)) (s : Solution) : list K :=
  map fst (filter (fun kv => chosen s (snd kv)) x).

Definition matching_of (x : tupledict) (s : Solution) : list Key2 :=
  match x with
  | Keys2 l => selected l s
  | Keys3 l => map fst (selected l s)
  end.

(** *** calculate_metrics *)

Record Metrics := mkMetrics {
  matches : nat;
  match_rate : Q;
  aks : Q
}.

Definition cell_is (z : Z) (c : cell) : bool :=
  match c with
  | CInt z' => Z.eqb z' z
  | CFloat q => Qeq_bool q (inject_Z z)
  | CStr _ => false
  end.

(** [df[df['Announcement'] == z][name]] *)
Definition where_id (df : DataFrame) (z : Z) (name : string) : result (list cell) :=
  ids <- getcol df "Announcement" ;;
  c <- getcol df name ;;
  Ok (map snd (filter (fun ic => cell_is z (fst ic)) (combine ids c))).

(** [float(df[df['Announcement'] == z][name].iloc[0])] *)
Definition first_float (df : DataFrame) (z : Z) (name : string) : result Q :=
  c <- where_id df z name ;; v <- iloc c 0 ;; as_num v.

Section Metrics.

Variable geodesic : Q * Q -> Q * Q -> Q.

(** [geodesic(p, q).kilometers] on two pairs of floats *)
Definition geodesic_between (p q : Q * Q) : result Q :=
  a <- geopy_point p ;; b <- geopy_point q ;; Ok (geodesic a b).

(** One iteration of the AKS loop for a selected pair. *)
Definition pair_saving (driverdf riderdf : DataFrame) (dr : Key2) : result Q :=
  driver_trip_length <- first_float driverdf (fst dr) "Distance_Car-Peak" ;;
  rider_trip_length <- first_float riderdf (snd dr) "Distance_Car-Peak" ;;
  let no_match_length := driver_trip_length + rider_trip_length in
  dolat <- first_float driverdf (fst dr) "Origin_Latitude" ;;
  dolon <- first_float driverdf (fst dr) "Origin_Longitude" ;;
  ddlat <- first_float driverdf (fst dr) "Destination_Latitude" ;;
  ddlon <- first_float driverdf (fst dr) "Destination_Longitude" ;;
  rolat <- first_float riderdf (snd dr) "Origin_Latitude" ;;
  rolon <- first_float riderdf (snd dr) "Origin_Longitude" ;;
  rdlat <- first_float riderdf (snd dr) "Destination_Latitude" ;;
  rdlon <- first_float riderdf (snd dr) "Destination_Longitude" ;;
  a <- geodesic_between (dolat, dolon) (rolat, rolon) ;;
  b <- geodesic_between (rolat, rolon) (rdlat, rdlon) ;;
  c <- geodesic_between (rdlat, rdlon) (ddlat, ddlon) ;;
  let with_match_length := a + b + c in
  Ok (no_match_length - with_match_length).

(** [x_dict]: for the weighted model the dict comprehension keeps, for each
    (d, r), the variable of the last key that carries it. *)
Definition x_dict (x : tupledict) : list (Key2 * Var) :=
  match x with
  | Keys2 l => l
  | Keys3 l => rev (map (fun kv => (fst (fst kv), snd kv)) l)
  end.

Definition possible_pairs (x : tupledict) : list Key2 :=
  match x with
  | Keys2 l => map fst l
  | Keys3 l => map (fun kv => fst (fst kv)) l
  end.

Definition matched_pairs (x : tupledict) (s : Solution) : result (list Key2) :=
  flags <- mapM (fun dr => v <- dict_get key2_eqb (x_dict x) dr ;; Ok (dr, chosen s v))
                (possible_pairs x) ;;
  Ok (map fst (filter snd flags)).

Definition Qsum (l : list Q) : Q := fold_right Qplus 0 l.

Definition calculate_metrics (x : tupledict) (s : Solution)
  (driverdf riderdf : DataFrame) : result Metrics :=
  drivers <- unique_ids driverdf ;;
  riders <- unique_ids riderdf ;;
  _ <- iloc (possible_pairs x) 0 ;;
  sel <- matched_pairs x s ;;
  let matched := length sel in
  match_rate <- py_div (inject_Z (Z.of_nat (matched * 2)))
                       (inject_Z (Z.of_nat (length drivers + length riders))) ;;
  savings <- mapM (pair_saving driverdf riderdf) sel ;;
  let k_total := Qsum savings in
  let matched_count := length savings in
  let aks := if Nat.ltb 0 matched_count
             then k_total / inject_Z (Z.of_nat matched_count) else 0 in
  Ok (mkMetrics matched match_rate aks).

End Metrics.

(** *** run_optimization

    [load_data] and [preprocess_data] read and rename the CSV columns (they
    are modelled on their own further down); the pipeline is modelled from
    the two participant frames they leave behind.  [optimize] is the
    external solver. *)

Section Pipeline.

Variable geodesic : Q * Q -> Q * Q -> Q.
Variable str_of_float : Q -> string.
Variable optimize : Model -> Solution.

Definition run_optimization (use_weights : bool) (weight_method : Method)
  (driverdf riderdf : DataFrame) : result Metrics :=
  processdf <- create_pairs str_of_float driverdf riderdf ;;
  let driverdf := with_key driverdf in
  let riderdf := with_key riderdf in
  processdf <- (if use_weights
                then calculate_weights geodesic weight_method processdf
                else Ok processdf) ;;
  mx <- build_model use_weights driverdf riderdf processdf ;;
  let s := optimize (fst mx) in
  calculate_metrics geodesic (snd mx) s driverdf riderdf.

End Pipeline.

(** ** The module-level script (src/ridesharing_optimization.py) *)

Definition ESTIMATED_SAVINGS_RATE : Q := 3 # 10.

(** [df.iloc[a:b]] *)
Definition iloc_rows (df : DataFrame) (a b : nat) : DataFrame :=
  mkFrame (Nat.min b (nrows df) - a)
          (map (fun nc => (fst nc, firstn (b - a) (skipn a (snd nc)))) (cols df)).

(** [df.iloc[i][name]] as a number *)
Definition num_at (df : DataFrame) (i : nat) (name : string) : result Q :=
  c <- getcol df name ;; v <- iloc c i ;; as_num v.

Definition calculate_distance (riders drivers : DataFrame) (rider_idx driver_idx : nat)
  : result Q :=
  rider_orig_lat <- num_at riders rider_idx "Origin_Latitude" ;;
  rider_orig_lon <- num_at riders rider_idx "Origin_Longitude" ;;
  rider_dest_lat <- num_at riders rider_idx "Destination_Latitude" ;;
  rider_dest_lon <- num_at riders rider_idx "Destination_Longitude" ;;
  driver_orig_lat <- num_at drivers driver_idx "Origin_Latitude" ;;
  driver_orig_lon <- num_at drivers driver_idx "Origin_Longitude" ;;
  driver_dest_lat <- num_at drivers driver_idx "Destination_Latitude" ;;
  driver_dest_lon <- num_at drivers driver_idx "Destination_Longitude" ;;
  let detour := Qabs (rider_orig_lat - driver_orig_lat) +
                Qabs (rider_orig_lon - driver_orig_lon) +
                Qabs (rider_dest_lat - driver_dest_lat) +
                Qabs (rider_dest_lon - driver_dest_lon) in
  Ok detour.

Definition idx_eqb (k k' : nat * nat) : bool :=
  Nat.eqb (fst k) (fst k') && Nat.eqb (snd k) (snd k').

Definition script_vars (num_riders num_drivers : nat) : list ((nat * nat) * Var) :=
  addVars (list_prod (seq 0 num_riders) (seq 0 num_drivers)).

Definition script_model (riders drivers : DataFrame) : result Model :=
  let num_riders := nrows riders in
  let num_drivers := nrows drivers in
  let x := script_vars num_riders num_drivers in
  obj <- mapM (fun ij =>
                 v <- dict_get idx_eqb x ij ;;
                 c <- calculate_distance riders drivers (fst ij) (snd ij) ;;
                 Ok (c, v))
              (list_prod (seq 0 num_riders) (seq 0 num_drivers)) ;;
  c_riders <- mapM (fun i =>
                      vs <- mapM (fun j => dict_get idx_eqb x (i, j)) (seq 0 num_drivers) ;;
                      Ok (at_most_one vs)) (seq 0 num_riders) ;;
  c_drivers <- mapM (fun j =>
                       vs <- mapM (fun i => dict_get idx_eqb x (i, j)) (seq 0 num_riders) ;;
                       Ok (at_most_one vs)) (seq 0 num_drivers) ;;
  Ok (mkModel (length x) obj MINIMIZE (c_riders ++ c_drivers)).

Definition id_at (df : DataFrame) (i : nat) : result Z :=
  c <- getcol df "Announcement" ;; v <- iloc c i ;; as_int v.

(** The extraction loop, run when the status is [GRB.OPTIMAL]. *)
Definition extract_matches (riders drivers : DataFrame) (s : Solution)
  : result (list (Z * Z)) :=
  let x := script_vars (nrows riders) (nrows drivers) in
  mapM (fun ij =>
          rider_id <- id_at riders (fst ij) ;;
          driver_id <- id_at drivers (snd ij) ;;
          Ok (rider_id, driver_id))
       (selected x s).

Record Report := mkReport {
  report_matches : list (Z * Z);
  objVal : option Q;
  matching_rate : Q;
  total_original_distance : Q;
  distance_saved : Q
}.

Section Script.

(** [model.optimize()]: [Some s] when the status is [GRB.OPTIMAL]. *)
Variable optimize : Model -> option Solution.

Definition script (data : DataFrame) : result Report :=
  let n := nrows data in
  let split_point := (n / 2)%nat in
  let riders := iloc_rows data 0 split_point in
  let drivers := iloc_rows data split_point n in
  let num_riders := nrows riders in
  model <- script_model riders drivers ;;
  let status := optimize model in
  matches <- match status with
             | Some s => extract_matches riders drivers s
             | None => Ok []
             end ;;
  rate <- py_div (inject_Z (Z.of_nat (length matches)))
                 (inject_Z (Z.of_nat num_riders)) ;;
  let matching_rate := rate * 100 in
  dists <- num_col riders "Distance_Car-Peak" ;;
  let total_original_distance := Qsum dists in
  let saved :=
    match status with
    | Some _ =>
        if Nat.ltb 0 (length matches) then
          let avg_distance_per_rider :=
            Qsum dists / inject_Z (Z.of_nat (length dists)) in
          inject_Z (Z.of_nat (length matches)) * avg_distance_per_rider
            * ESTIMATED_SAVINGS_RATE
        else 0
    | None => 0
    end in
  Ok (mkReport matches
        (match status with Some s => Some (objective_value model s) | None => None end)
        matching_rate total_original_distance saved).

End Script.

(** ** The class: load_data and preprocess_data

    [pd.read_csv] hands load_data the frame [df] of the file. *)

(** [cell < z] and [cell > z] for a column compared with an integer. *)
Definition cell_lt (z : Z) (c : cell) : result bool :=
  match c with
  | CInt a => Ok (Z.ltb a z)
  | CFloat q => Ok (negb (Qle_bool (inject_Z z) q))
  | CStr _ => Raise TypeError
  end.

Definition cell_gt (z : Z) (c : cell) : result bool :=
  match c with
  | CInt a => Ok (Z.ltb z a)
  | CFloat q => Ok (negb (Qle_bool q (inject_Z z)))
  | CStr _ => Raise TypeError
  end.

(** The cells of a column at the given row positions, in that order. *)
Definition pick {A} (idx : list nat) (c : list A) : list A :=
  flat_map (fun i => match nth_error c i with Some v => [v] | None => [] end) idx.

Definition take_rows (df : DataFrame) (idx : list nat) : DataFrame :=
  mkFrame (length idx) (map (fun nc => (fst nc, pick idx (snd nc))) (cols df)).

(** The positions at which a boolean mask holds. *)
Fixpoint where_true (start : nat) (mask : list bool) : list nat :=
  match mask with
  | [] => []
  | b :: mask' =>
      if b then start :: where_true (S start) mask' else where_true (S start) mask'
  end.

(** [df[mask]] *)
Definition mask_rows (df : DataFrame) (mask : list bool) : DataFrame :=
  take_rows df (where_true 0 mask).

Fixpoint insert_key (k : Q * nat) (l : list (Q * nat)) : list (Q * nat) :=
  match l with
  | [] => [k]
  | h :: t => if Qle_bool (fst k) (fst h) then k :: l else h :: insert_key k t
  end.

Fixpoint sort_keys (l : list (Q * nat)) : list (Q * nat) :=
  match l with
  | [] => []
  | k :: t => insert_key k (sort_keys t)
  end.

(** The row order [sort_values] produces for numeric keys.  The library
    does not fix the order of rows with equal keys; the model keeps them in
    their order in the frame. *)
Definition argsort (keys : list Q) : list nat :=
  map snd (sort_keys (combine keys (seq 0 (length keys)))).

(** [df.sort_values(by=name)] *)
Definition sort_values (df : DataFrame) (name : string) : result DataFrame :=
  keys <- num_col df name ;;
  Ok (take_rows df (argsort keys)).

(** [df.head(n)] *)
Definition head_rows (df : DataFrame) (n : nat) : DataFrame := iloc_rows df 0 n.

(** The result is [(self.driverdf, self.riderdf)]. *)
Definition load_data (df : DataFrame) (num_drivers num_riders : nat)
  : result (DataFrame * DataFrame) :=
  ids <- getcol df "Announcement" ;;
  below <- mapM (cell_lt 100000) ids ;;
  let driverdf := mask_rows df below in
  ids <- getcol df "Announcement" ;;
  above <- mapM (cell_gt 100000) ids ;;
  let riderdf := mask_rows df above in
  driverdf <- sort_values driverdf "Announcementtime" ;;
  let driverdf := head_rows driverdf num_drivers in
  riderdf <- sort_values riderdf "Announcementtime" ;;
  let riderdf := head_rows riderdf num_riders in
  Ok (driverdf, riderdf).

(** The names of the research paper: [rename(columns={...})] renames the
    columns it finds and ignores the names that are not there. *)
Definition paper_name (n : string) : string :=
  if String.eqb n "Announcementtime" then "t"
  else if String.eqb n "Earliesttime" then "e"
  else if String.eqb n "Latesttime" then "l"
  else n.

Definition rename_columns (df : DataFrame) : DataFrame :=
  mkFrame (nrows df) (map (fun nc => (paper_name (fst nc), snd nc)) (cols df)).

(** [a - b] on two cells *)
Definition cell_sub (a b : cell) : result cell :=
  match a, b with
  | CInt x, CInt y => Ok (CInt (x - y))
  | CStr _, _ | _, CStr _ => Raise TypeError
  | _, _ => x <- as_num a ;; y <- as_num b ;; Ok (CFloat (x - y))
  end.

Fixpoint zipM {A B C} (f : A -> B -> result C) (l : list A) (l' : list B)
  : result (list C) :=
  match l, l' with
  | a :: t, b :: t' => c <- f a b ;; cs <- zipM f t t' ;; Ok (c :: cs)
  | _, _ => Ok []
  end.

(** What preprocess_data does to one of the two frames. *)
Definition preprocess_frame (df : DataFrame) : result DataFrame :=
  let df := rename_columns df in
  l <- getcol df "l" ;;
  time <- getcol df "Time_Car-Peak" ;;
  q <- zipM cell_sub l time ;;
  Ok (setcol df "q" q).

Definition preprocess_data (driverdf riderdf : DataFrame)
  : result (DataFrame * DataFrame) :=
  driverdf <- preprocess_frame driverdf ;;
  riderdf <- preprocess_frame riderdf ;;
  Ok (driverdf, riderdf).

(** ** Exhaustive search (the reference the solver is compared with) *)

Fixpoint sublists {A} (l : list A) : list (list A) :=
  match l with
  | [] => [[]]
  | a :: l' => sublists l' ++ map (cons a) (sublists l')
  end.

Fixpoint distinct (l : list Z) : bool :=
  match l with
  | [] => true
  | z :: l' => negb (existsb (Z.eqb z) l') && distinct l'
  end.

(** A one-to-one pairing: no driver and no rider occurs twice. *)
Definition one_to_one (pairs : list Key2) : bool :=
  distinct (map fst pairs) && distinct (map snd pairs).

Definition total_weight (edges : list Key3) : Q := Qsum (map weight_of edges).

(** All pairings that use candidate edges only; the ones left out are the
    unmatched participants, which contribute nothing. *)
Definition pairings3 (edges : list Key3) : list (list Key3) :=
  filter (fun p => one_to_one (map fst p)) (sublists edges).

Definition pairings2 (edges : list Key2) : list (list Key2) :=
  filter one_to_one (sublists edges).

Definition brute_force_optimum (edges : list Key3) : Q :=
  fold_right Qmax 0 (map total_weight (pairings3 edges)).

Definition max_matching_size (edges : list Key2) : nat :=
  fold_right Nat.max 0%nat (map (@length Key2) (pairings2 edges)).

(** ** The models in closed form *)

(** How many of the variables [vs] the solution sets to 1. *)
Definition count_chosen (s : Solution) (vs : list Var) : nat :=
  length (filter (chosen s) vs).

(** A count as a rational number. *)
Definition QofN (n : nat) : Q := inject_Z (Z.of_nat n).

(** The entries picked by a 0-1 mask given position by position. *)
Definition mask_select {K} (keys : list K) (s : Solution) : list K :=
  map fst (filter snd (combine keys s)).

(** Every entry is the first hit of its own key. *)
Definition own_hit {K} (eqb : K -> K -> bool) (x y : list (K * Var)) : Prop :=
  forall kv, In kv y -> dict_get eqb x (fst kv) = Ok (snd kv).

(** The row [sum_le_one] stores. *)
Definition sum_row (vars : list Var) : LinExpr * Q :=
  match vars with
  | [] => ([], 0)
  | _ => at_most_one vars
  end.

(** One constraint per id: the variables of the entries whose key has
    that id under [p] sum to at most 1. *)
Definition count_constraints {K} (p : K -> Z) (x : list (K * Var)) (ids : list Z)
  : list (LinExpr * Q) :=
  map (fun d => sum_row (map snd (filter (fun kv => Z.eqb (p (fst kv)) d) x))) ids.

(** The model build_model returns with [use_weights=True], in closed form
    (lemma [build_model_weighted]). *)
Definition weighted_model (drivers riders : list Z) (pm : list Key3) : Model :=
  let x := addVars pm in
  mkModel (length x) (map (fun kv => (weight_of (fst kv), snd kv)) x) MAXIMIZE
          (count_constraints driver_of x drivers ++ count_constraints rider_of x riders).

(** [x[k]] for a key known to be in [x]. *)
Definition var_of {K} (eqb : K -> K -> bool) (x : list (K * Var)) (k : K) : Var :=
  match dict_get eqb x k with Ok v => v | Raise _ => 0%nat end.

(** The constraint of one participant [d]: the sum runs over the ids on the
    other side, [mk z] being the key that pairs [z] with [d]. *)
Definition pair_constraints (x : list (Key2 * Var)) (mk : Z -> Z -> Key2)
  (ids others : list Z) : list (LinExpr * Q) :=
  map (fun d => sum_row (map (fun z => var_of key2_eqb x (mk d z))
                            (filter (fun z => dict_mem key2_eqb x (mk d z)) others)))
      ids.

(** The model build_model returns with [use_weights=False], in closed form
    (lemma [build_model_unweighted]). *)
Definition unweighted_model (drivers riders : list Z) (pm : list Key2) : Model :=
  let x := addVars pm in
  mkModel (length x) (map (fun kv => (1, snd kv)) x) MAXIMIZE
          (pair_constraints x (fun d r => (d, r)) drivers riders ++
           pair_constraints x (fun r d => (d, r)) riders drivers).

(** The index pairs (i, j) of the script, rider-major. *)
Definition grid (num_riders num_drivers : nat) : list (nat * nat) :=
  list_prod (seq 0 num_riders) (seq 0 num_drivers).

(** The constraints of the script, each over the variables of one rider (a
    row of the grid) or one driver (a column). *)
Definition script_constraints (R D : nat) : list (LinExpr * Q) :=
  let x := script_vars R D in
  map (fun i => at_most_one (map (fun j => var_of idx_eqb x (i, j)) (seq 0 D))) (seq 0 R) ++
  map (fun j => at_most_one (map (fun i => var_of idx_eqb x (i, j)) (seq 0 R))) (seq 0 D).

(** ** Notions used in the statements *)

(** Every candidate edge joins a listed driver and a listed rider, as in the
    cross product of the two participant frames. *)
Definition edges_within (drivers riders : list Z) (pairs : list Key2) : Prop :=
  forall k, In k pairs -> In (fst k) drivers /\ In (snd k) riders.

(** The weight and the size of the matching a solution selects. *)
Definition matched_weight (x : tupledict) (s : Solution) : Q :=
  match x with
  | Keys3 l => total_weight (selected l s)
  | Keys2 l => QofN (length (selected l s))
  end.

(** The (driver, rider) pairs of the candidate edges, in either mode. *)
Definition candidate_pairs (use_weights : bool) (processdf : DataFrame)
  : result (list Key2) :=
  if use_weights
  then pm <- possible_matches3 processdf ;; Ok (map fst pm)
  else possible_matches2 processdf.

(** (driver.trip_length + rider.trip_length) minus the three-leg route, for
    row [i] of the ten columns. *)
Definition savings_at (dist : Q * Q -> Q * Q -> Q)
  (dolat dolon ddlat ddlon rolat rolon rdlat rdlon dt rt : list Q) (i : nat) : Q :=
  let driver_origin := (nth i dolat 0, nth i dolon 0) in
  let driver_destination := (nth i ddlat 0, nth i ddlon 0) in
  let rider_origin := (nth i rolat 0, nth i rolon 0) in
  let rider_destination := (nth i rdlat 0, nth i rdlon 0) in
  (nth i dt 0 + nth i rt 0)
  - (dist driver_origin rider_origin + dist rider_origin rider_destination
     + dist rider_destination driver_destination).



(** The four coordinate columns calculate_distance compares. *)
Definition coordinate_columns : list string :=
  ["Origin_Latitude"; "Origin_Longitude";
   "Destination_Latitude"; "Destination_Longitude"]%string.

(** The order of [sort_values] on (key, row position) pairs. *)
Definition key_le (a b : Q * nat) : Prop := fst a <= fst b.

(** Ids below and above the threshold of load_data, on numbers. *)
Definition is_driver_id (q : Q) : bool := negb (Qle_bool (inject_Z 100000) q).
Definition is_rider_id (q : Q) : bool := negb (Qle_bool q (inject_Z 100000)).

(** The entries of [times] on the rows whose id satisfies [p]. *)
Definition times_where (p : Q -> bool) (ids times : list Q) : list Q :=
  map snd (filter (fun x => p (fst x)) (combine ids times)).

(** [kept] holds the [n] smallest entries of [all] (all of them when there
    are fewer), in ascending order. *)
Definition earliest_of (n : nat) (all kept : list Q) : Prop :=
  exists rest,
    Permutation all (kept ++ rest) /\
    StronglySorted Qle kept /\
    (forall a b, In a kept -> In b rest -> a <= b) /\
    length kept = Nat.min n (length all).

(** [ls - ts], entry by entry. *)
Definition differences (ls ts : list Q) : list Q :=
  map (fun p => fst p - snd p) (combine ls ts).

(** ** Example inputs *)

(** A participant frame: the route of participant [k] runs along one
    meridian from latitude [lat k] to [lat k + trip k]. *)
Definition participants (ids : list Z) (lat trip : list Q) : DataFrame :=
  mkFrame (length ids)
    [("Announcement", map CInt ids);
     ("Origin_Latitude", map CFloat lat);
     ("Origin_Longitude", map (fun _ => CFloat 0) ids);
     ("Destination_Latitude", map CFloat (zip_with Qplus lat trip));
     ("Destination_Longitude", map (fun _ => CFloat 0) ids);
     ("Distance_Car-Peak", map CFloat trip)]%string.

Definition two_drivers : DataFrame := participants [1; 2]%Z [0; 4] [10; 10].
Definition two_riders : DataFrame := participants [101; 102]%Z [1; 5] [5; 5].

(** A single rider, for two drivers. *)
Definition one_rider : DataFrame := participants [101]%Z [1] [5].

(** A file of two announcements without any coordinate column. *)
Definition data_without_coordinates : DataFrame :=
  mkFrame 2 [("Announcement", [CInt 7; CInt 8]%Z)]%string.

(** A file as load_data reads it: ids, announcement times, latest times and
    travel times of three drivers (ids below 100000), two riders and one
    announcement whose id is exactly 100000. *)
Definition csv_file : DataFrame :=
  mkFrame 6
    [("Announcement", map CInt [200001; 5; 100000; 3; 200002; 4]%Z);
     ("Announcementtime", map CFloat [9; 7; 1; 8; 2; 6]);
     ("Latesttime", map CFloat [50; 40; 30; 45; 35; 60]);
     ("Time_Car-Peak", map CFloat [10; 10; 10; 15; 5; 20])]%string.

(** A file without the id column. *)
Definition file_without_ids : DataFrame :=
  mkFrame 1 [("Announcementtime", [CFloat 1])]%string.

(** A file whose second id is a name. *)
Definition file_with_named_ids : DataFrame :=
  mkFrame 2 [("Announcement", [CInt 7; CStr "rider-8"]%Z);
             ("Announcementtime", [CFloat 1; CFloat 2])]%string.

(** A frame with latest times and no travel times. *)
Definition file_without_travel_time : DataFrame :=
  mkFrame 1 [("Announcement", [CInt 7]%Z); ("Latesttime", [CFloat 5])]%string.

(** Degenerate inputs: no participant, no pair. *)
Definition no_participants : DataFrame := participants [] [] [].

Definition no_pairs : DataFrame :=
  mkFrame 0 [("Announcement_x", []); ("Announcement_y", []); ("weight", [])]%string.

(** Two participants with the same route: a rider (first half of the file)
    and a driver (second half). *)
Definition twin_data : DataFrame := participants [7; 8]%Z [0; 0] [10; 10].

(** The pair frame of the two, reduced to the id columns, and with a weight
    column. *)
Definition four_id_pairs : DataFrame :=
  mkFrame 4
    [("Announcement_x", map CInt [1; 1; 2; 2]%Z);
     ("Announcement_y", map CInt [101; 102; 101; 102]%Z)]%string.

Definition four_pairs (weights : list Q) : DataFrame :=
  mkFrame 4
    [("Announcement_x", map CInt [1; 1; 2; 2]%Z);
     ("Announcement_y", map CInt [101; 102; 101; 102]%Z);
     ("weight", map CFloat weights)]%string.

(** The cross product of [two_drivers] and [two_riders], ids kept. *)
Definition example_pairs : DataFrame :=
  mkFrame 4
    [("Announcement_x", map CInt [1; 1; 2; 2]%Z);
     ("Announcement_y", map CInt [101; 102; 101; 102]%Z);
     ("Origin_Latitude_x", map CFloat [0; 0; 4; 4]);
     ("Origin_Longitude_x", map CFloat [0; 0; 0; 0]);
     ("Destination_Latitude_x", map CFloat [10; 10; 14; 14]);
     ("Destination_Longitude_x", map CFloat [0; 0; 0; 0]);
     ("Distance_Car-Peak_x", map CFloat [10; 10; 10; 10]);
     ("Origin_Latitude_y", map CFloat [1; 5; 1; 5]);
     ("Origin_Longitude_y", map CFloat [0; 0; 0; 0]);
     ("Destination_Latitude_y", map CFloat [6; 10; 6; 10]);
     ("Destination_Longitude_y", map CFloat [0; 0; 0; 0]);
     ("Distance_Car-Peak_y", map CFloat [5; 5; 5; 5])]%string.





(** Candidate pairs for the first of the two drivers only. *)
Definition first_driver_pairs : DataFrame :=
  mkFrame 2
    [("Announcement_x", map CInt [1; 1]%Z);
     ("Announcement_y", map CInt [101; 102]%Z)]%string.

(** The candidate edges of [four_pairs [3; 5; 4; -1]] and of [four_id_pairs]. *)
Definition four_weighted_edges : list Key3 :=
  [(1%Z, 101%Z, 3); (1%Z, 102%Z, 5); (2%Z, 101%Z, 4); (2%Z, 102%Z, -1)].

Definition four_edges : list Key2 := [(1, 101); (1, 102); (2, 101); (2, 102)]%Z.

(** A distance function for the examples. *)
Definition manhattan (p q : Q * Q) : Q :=
  Qabs (fst p - fst q) + Qabs (snd p - snd q).

(** A pair row with the given trip lengths. *)
Definition trip_row (dt rt : Q) : PairRow :=
  mkPairRow (CFloat 0, CFloat 0) (CFloat 0, CFloat 0)
            (CFloat 0, CFloat 0) (CFloat 0, CFloat 0) (CFloat dt) (CFloat rt).

(** * Properties *)

(** ** The result monad *)

Lemma bind_Ok {A B} (r : result A) (f : A -> result B) (b : B) :
  bind r f = Ok b -> exists a, r = Ok a /\ f a = Ok b.
Proof. destruct r as [a|e]; simpl; [eauto | discriminate]. Qed.

Lemma Ok_inj {A} (a b : A) : Ok a = Ok b -> a = b.
Proof. now intros [= ->]. Qed.

Ltac inv_bind H :=
  let a := fresh "a" in
  let E := fresh "E" in
  apply bind_Ok in H; destruct H as (a & E & H).

Lemma mapM_map {A B} (f : A -> result B) (g : A -> B) (l : list A) :
  (forall a, In a l -> f a = Ok (g a)) -> mapM f l = Ok (map g l).
Proof.
  induction l as [|a l IH]; intros H; simpl; [reflexivity|].
  rewrite (H a (or_introl eq_refl)); simpl.
  rewrite IH by (intros; apply H; now right). reflexivity.
Qed.

Lemma mapM_Ok_map {A B} (f : A -> result B) (g : A -> B) (l : list A) (bs : list B) :
  (forall a b, In a l -> f a = Ok b -> b = g a) ->
  mapM f l = Ok bs -> bs = map g l.
Proof.
  revert bs; induction l as [|a l IH]; simpl; intros bs Hg H.
  - now injection H as <-.
  - apply bind_Ok in H. destruct H as (b & Eb & H).
    apply bind_Ok in H. destruct H as (bs' & Ebs & H). injection H as <-.
    rewrite (Hg a b (or_introl eq_refl) Eb).
    rewrite (IH bs' (fun a' b' Ha' => Hg a' b' (or_intror Ha')) Ebs). reflexivity.
Qed.

Lemma mapM_Ok_inv {A B} (f : A -> result B) (l : list A) (bs : list B) :
  mapM f l = Ok bs -> Forall2 (fun a b => f a = Ok b) l bs.
Proof.
  revert bs; induction l as [|a l IH]; simpl; intros bs H.
  - injection H as <-. constructor.
  - inv_bind H. inv_bind H. injection H as <-. constructor; auto.
Qed.

Lemma mapM_length {A B} (f : A -> result B) (l : list A) (bs : list B) :
  mapM f l = Ok bs -> length bs = length l.
Proof.
  intros H. apply mapM_Ok_inv in H. symmetry. eapply Forall2_length; eauto.
Qed.

Lemma mapM_app {A B} (f : A -> result B) (l l' : list A) :
  mapM f (l ++ l') = (a <- mapM f l ;; b <- mapM f l' ;; Ok (a ++ b)).
Proof.
  induction l as [|x l IH]; simpl.
  - destruct (mapM f l'); reflexivity.
  - destruct (f x); simpl; [|reflexivity]. rewrite IH.
    destruct (mapM f l); simpl; [|reflexivity].
    destruct (mapM f l'); reflexivity.
Qed.

(** ** Linear expressions over a 0-1 solution *)

Lemma X_chosen (s : Solution) (v : Var) :
  X s v = if chosen s v then 1 else 0.
Proof. unfold chosen, X. destruct (nth v s false); reflexivity. Qed.

Lemma chosen_nth (s : Solution) (v : Var) : chosen s v = nth v s false.
Proof. unfold chosen, X. destruct (nth v s false); reflexivity. Qed.

Lemma X_nonneg (s : Solution) (v : Var) : 0 <= X s v.
Proof. unfold X. destruct (nth v s false); lra. Qed.

Lemma eval_cons (s : Solution) (c : Q) (v : Var) (e : LinExpr) :
  eval s ((c, v) :: e) = c * X s v + eval s e.
Proof. reflexivity. Qed.

Lemma eval_app (s : Solution) (e e' : LinExpr) :
  eval s (e ++ e') == eval s e + eval s e'.
Proof.
  induction e as [|[c v] e IH].
  - change (eval s []) with 0. simpl. lra.
  - simpl app. rewrite !eval_cons, IH. lra.
Qed.

Lemma eval_nonneg (s : Solution) (e : LinExpr) :
  Forall (fun t => 0 <= fst t) e -> 0 <= eval s e.
Proof.
  induction 1 as [|[c v] e Hc _ IH]; [unfold eval; simpl; lra|].
  rewrite eval_cons. simpl in Hc. pose proof (X_nonneg s v). nra.
Qed.

Lemma QofN_S (n : nat) : QofN (S n) == 1 + QofN n.
Proof.
  unfold QofN. rewrite Nat2Z.inj_succ, <- Z.add_1_l, inject_Z_plus. reflexivity.
Qed.

Lemma QofN_le (n m : nat) : QofN n <= QofN m <-> (n <= m)%nat.
Proof. unfold QofN. rewrite <- Zle_Qle. lia. Qed.

Lemma eval_ones (s : Solution) (vs : list Var) :
  eval s (map (fun v => (1, v)) vs) == QofN (count_chosen s vs).
Proof.
  unfold count_chosen.
  induction vs as [|v vs IH]; [reflexivity|].
  simpl map. rewrite eval_cons, IH, X_chosen. simpl filter.
  destruct (chosen s v); simpl length; [rewrite QofN_S|]; lra.
Qed.

Lemma at_most_one_holds (s : Solution) (vs : list Var) :
  eval s (fst (at_most_one vs)) <= snd (at_most_one vs)
  <-> (count_chosen s vs <= 1)%nat.
Proof.
  unfold at_most_one; simpl. rewrite eval_ones.
  change 1 with (QofN 1). apply QofN_le.
Qed.

(** ** The solver contract is decidable and satisfiable *)

Lemma all_solutions_spec (n : nat) (s : Solution) :
  In s (all_solutions n) <-> length s = n.
Proof.
  revert s; induction n as [|n IH]; intros s; simpl.
  - split; [intros [<-|[]]; reflexivity|].
    destruct s; [now left | discriminate].
  - rewrite in_app_iff, !in_map_iff. split.
    + intros [(t & <- & Ht)|(t & <- & Ht)]; simpl; f_equal; now apply IH.
    + destruct s as [|[|] t]; [discriminate| |]; intros [= H]; apply IH in H; eauto.
Qed.

Lemma feasibleb_iff (m : Model) (s : Solution) :
  feasibleb m s = true <-> feasible m s.
Proof.
  unfold feasibleb, feasible.
  rewrite andb_true_iff, Nat.eqb_eq, forallb_forall, Forall_forall.
  split; intros [H1 H2]; split; auto; intros c Hc; apply Qle_bool_iff; auto.
Qed.

Lemma at_least_as_goodb_iff (m : Model) (s s' : Solution) :
  at_least_as_goodb m s s' = true <-> at_least_as_good m s s'.
Proof.
  unfold at_least_as_goodb, at_least_as_good.
  destruct (sense m); apply Qle_bool_iff.
Qed.

Lemma optimalb_iff (m : Model) (s : Solution) :
  optimalb m s = true <-> optimal m s.
Proof.
  unfold optimalb, optimal.
  rewrite andb_true_iff, feasibleb_iff, forallb_forall. split.
  - intros [Hf H]; split; [assumption|]. intros s' Hs'.
    specialize (H s'). rewrite all_solutions_spec in H.
    specialize (H (proj1 Hs')). apply orb_true_iff in H.
    destruct H as [H|H]; [|now apply at_least_as_goodb_iff].
    apply negb_true_iff in H. apply feasibleb_iff in Hs'. congruence.
  - intros [Hf H]; split; [assumption|]. intros s' _.
    destruct (feasibleb m s') eqn:E; simpl; [|reflexivity].
    apply at_least_as_goodb_iff, H, feasibleb_iff, E.
Qed.

Lemma at_least_as_good_total (m : Model) (s s' : Solution) :
  at_least_as_good m s s' \/ at_least_as_good m s' s.
Proof.
  unfold at_least_as_good. destruct (sense m);
    destruct (Qlt_le_dec (objective_value m s) (objective_value m s'));
    first [left; lra | right; lra].
Qed.

Lemma at_least_as_good_trans (m : Model) (s1 s2 s3 : Solution) :
  at_least_as_good m s1 s2 -> at_least_as_good m s2 s3 -> at_least_as_good m s1 s3.
Proof. unfold at_least_as_good. destruct (sense m); lra. Qed.

Lemma best_of_list (m : Model) (l : list Solution) :
  l <> [] -> exists s, In s l /\ forall s', In s' l -> at_least_as_good m s s'.
Proof.
  induction l as [|a l IH]; [congruence|]. intros _.
  destruct l as [|b l].
  - exists a; split; [now left|]. intros s' [<-|[]].
    destruct (at_least_as_good_total m a a); assumption.
  - destruct IH as (s & Hs & Hbest); [discriminate|].
    destruct (at_least_as_good_total m a s) as [H|H].
    + exists a; split; [now left|]. intros s' [<-|Hs'].
      * destruct (at_least_as_good_total m a a); assumption.
      * eapply at_least_as_good_trans; eauto.
    + exists s; split; [now right|]. intros s' [<-|Hs']; auto.
Qed.

(** A model with a feasible point has an optimal one: the solver's answer
    exists. *)
Lemma exists_optimal (m : Model) :
  (exists s, feasible m s) -> exists s, optimal m s.
Proof.
  intros (s0 & H0).
  destruct (best_of_list m (filter (feasibleb m) (all_solutions (numvars m))))
    as (s & Hs & Hbest).
  - intros E. assert (In s0 (filter (feasibleb m) (all_solutions (numvars m)))) as Hin.
    { apply filter_In; split; [apply all_solutions_spec, H0 | now apply feasibleb_iff]. }
    rewrite E in Hin. destruct Hin.
  - apply filter_In in Hs. destruct Hs as [_ Hs]. apply feasibleb_iff in Hs.
    exists s; split; [assumption|]. intros s' Hs'. apply Hbest.
    apply filter_In; split; [apply all_solutions_spec, Hs' | now apply feasibleb_iff].
Qed.

(** ** Selections of a tupledict *)

Lemma selected_offset {K} (keys : list K) (pre s : Solution) :
  selected (combine keys (seq (length pre) (length keys))) (pre ++ s)
  = mask_select keys s.
Proof.
  revert pre s; induction keys as [|k keys IH]; intros pre s; [reflexivity|].
  unfold selected, mask_select. simpl length. simpl seq. simpl combine. simpl filter.
  rewrite chosen_nth, app_nth2, Nat.sub_diag by lia.
  destruct s as [|b s].
  - simpl. specialize (IH (pre ++ [false]) []).
    rewrite length_app, Nat.add_1_r in IH. simpl length in IH.
    rewrite <- app_assoc in IH. simpl app in IH.
    unfold selected, mask_select in IH.
    replace (combine keys []) with (@nil (K * bool)) in IH by (destruct keys; reflexivity).
    assert (forall x : list (K * Var),
             filter (fun kv => chosen (pre ++ [false]) (snd kv)) x
             = filter (fun kv => chosen pre (snd kv)) x) as E.
    { intros x. apply filter_ext. intros [k' v]. simpl. rewrite !chosen_nth.
      destruct (Nat.lt_ge_cases v (length pre)).
      - now rewrite app_nth1.
      - rewrite app_nth2 by assumption. rewrite (nth_overflow pre) by assumption.
        destruct (v - length pre)%nat as [|[|]]; reflexivity. }
    rewrite E in IH. rewrite app_nil_r. exact IH.
  - specialize (IH (pre ++ [b]) s).
    rewrite length_app, Nat.add_1_r, <- app_assoc in IH. simpl app in IH.
    unfold selected, mask_select in IH. simpl nth.
    destruct b; simpl; rewrite IH; reflexivity.
Qed.

Lemma selected_addVars {K} (keys : list K) (s : Solution) :
  selected (addVars keys) s = mask_select keys s.
Proof. exact (selected_offset keys [] s). Qed.

Lemma nil_in_sublists {K} (keys : list K) : In [] (sublists keys).
Proof.
  induction keys as [|k keys IH]; [now left|]. simpl. apply in_or_app. now left.
Qed.

Lemma mask_select_sublist {K} (keys : list K) (s : Solution) :
  In (mask_select keys s) (sublists keys).
Proof.
  revert s; induction keys as [|k keys IH]; intros s; [now left|].
  destruct s as [|[|] s]; simpl; apply in_or_app.
  - left. apply nil_in_sublists.
  - right. apply (in_map (cons k)), IH.
  - left. apply IH.
Qed.

Lemma sublist_mask {K} (keys M : list K) :
  In M (sublists keys) ->
  exists s, length s = length keys /\ mask_select keys s = M.
Proof.
  revert M; induction keys as [|k keys IH]; intros M H; simpl in H.
  - destruct H as [<-|[]]. exists []. split; reflexivity.
  - apply in_app_or in H. destruct H as [H|H].
    + destruct (IH M H) as (s & Hl & Hs). exists (false :: s).
      split; [simpl; congruence | exact Hs].
    + apply in_map_iff in H. destruct H as (M' & <- & H).
      destruct (IH M' H) as (s & Hl & Hs). exists (true :: s).
      split; [simpl; congruence | unfold mask_select in *; simpl; now rewrite Hs].
Qed.

Lemma sublists_incl {K} (keys M : list K) :
  In M (sublists keys) -> incl M keys.
Proof.
  revert M; induction keys as [|k keys IH]; intros M H; simpl in H.
  - destruct H as [<-|[]]. intros a [].
  - apply in_app_or in H. destruct H as [H|H].
    + apply incl_tl, IH, H.
    + apply in_map_iff in H. destruct H as (M' & <- & H).
      apply incl_cons; [now left | apply incl_tl, IH, H].
Qed.

Lemma count_selected {K} (p : K -> bool) (x : list (K * Var)) (s : Solution) :
  count_chosen s (map snd (filter (fun kv => p (fst kv)) x))
  = length (filter p (selected x s)).
Proof.
  unfold count_chosen, selected.
  induction x as [|[k v] x IH]; [reflexivity|]. simpl.
  destruct (p k) eqn:Ep; simpl; destruct (chosen s v); simpl; rewrite ?Ep; simpl;
    rewrite IH; reflexivity.
Qed.

Lemma eval_selected {K} (c : K -> Q) (x : list (K * Var)) (s : Solution) :
  eval s (map (fun kv => (c (fst kv), snd kv)) x) == Qsum (map c (selected x s)).
Proof.
  unfold selected.
  induction x as [|[k v] x IH]; [reflexivity|].
  simpl map at 1. rewrite eval_cons, IH, X_chosen. simpl.
  destruct (chosen s v); simpl; lra.
Qed.

(** ** One-to-one pairings and the at-most-one counts *)

Lemma distinct_NoDup (l : list Z) : distinct l = true <-> NoDup l.
Proof.
  induction l as [|z l IH]; simpl.
  - split; [constructor | reflexivity].
  - rewrite andb_true_iff, negb_true_iff, IH. split.
    + intros [Hn Hd]. constructor; [|assumption]. intros Hin.
      assert (existsb (Z.eqb z) l = true) as E
        by (apply existsb_exists; exists z; split; [assumption | apply Z.eqb_refl]).
      congruence.
    + intros H. inversion H as [|? ? Hn Hd]; subst. split; [|assumption].
      destruct (existsb (Z.eqb z) l) eqn:E; [|reflexivity].
      apply existsb_exists in E. destruct E as (y & Hy & Ey).
      apply Z.eqb_eq in Ey. subst y. contradiction.
Qed.

Lemma NoDup_count {K} (p : K -> Z) (M : list K) :
  NoDup (map p M) -> forall d, (length (filter (fun k => Z.eqb (p k) d) M) <= 1)%nat.
Proof.
  induction M as [|k M IH]; simpl; intros H d; [lia|].
  inversion H as [|? ? Hn Hd]; subst. specialize (IH Hd d).
  destruct (Z.eqb (p k) d) eqn:E; [|assumption]. simpl.
  apply Z.eqb_eq in E. subst d.
  destruct (filter (fun k0 => Z.eqb (p k0) (p k)) M) as [|k' l] eqn:F; [simpl; lia|].
  exfalso. apply Hn.
  assert (In k' (filter (fun k0 => Z.eqb (p k0) (p k)) M)) as Hin by (rewrite F; now left).
  apply filter_In in Hin. destruct Hin as [Hin E]. apply Z.eqb_eq in E.
  rewrite <- E. now apply in_map.
Qed.

Lemma count_NoDup {K} (p : K -> Z) (M : list K) :
  (forall k, In k M -> (length (filter (fun k' => Z.eqb (p k') (p k)) M) <= 1)%nat) ->
  NoDup (map p M).
Proof.
  induction M as [|k M IH]; simpl; intros H; [constructor|].
  constructor.
  - intros Hin. apply in_map_iff in Hin. destruct Hin as (k' & E & Hin).
    specialize (H k (or_introl eq_refl)). rewrite Z.eqb_refl in H. simpl in H.
    assert (In k' (filter (fun k'0 => Z.eqb (p k'0) (p k)) M)) as Hf
      by (apply filter_In; split; [assumption | now apply Z.eqb_eq]).
    destruct (filter (fun k'0 => Z.eqb (p k'0) (p k)) M); [destruct Hf | simpl in H; lia].
  - apply IH. intros k' Hk'. specialize (H k' (or_intror Hk')).
    destruct (Z.eqb (p k) (p k')); simpl in H; lia.
Qed.

(** ** Maxima of the exhaustive search *)

Lemma Qmax_list_ge (l : list Q) (q : Q) :
  In q l -> q <= fold_right Qmax 0 l.
Proof.
  induction l as [|a l IH]; intros H; [destruct H|]. simpl.
  destruct H as [<-|H]; [apply Q.le_max_l|].
  eapply Qle_trans; [apply IH, H | apply Q.le_max_r].
Qed.

Lemma Qmax_list_attained (l : list Q) :
  fold_right Qmax 0 l == 0 \/ exists q, In q l /\ fold_right Qmax 0 l == q.
Proof.
  induction l as [|a l IH]; [left; reflexivity|]. simpl.
  destruct (Q.max_spec a (fold_right Qmax 0 l)) as [[_ E]|[_ E]].
  - destruct IH as [IH|(q & Hq & IH)].
    + left. now rewrite E.
    + right. exists q. split; [now right | now rewrite E].
  - right. exists a. split; [now left | exact E].
Qed.

Lemma Nmax_list_ge (l : list nat) (n : nat) :
  In n l -> (n <= fold_right Nat.max 0 l)%nat.
Proof.
  induction l as [|a l IH]; intros H; [destruct H|]. simpl.
  destruct H as [<-|H]; [lia | specialize (IH H); lia].
Qed.

Lemma Nmax_list_attained (l : list nat) :
  fold_right Nat.max 0%nat l = 0%nat \/ In (fold_right Nat.max 0%nat l) l.
Proof.
  induction l as [|a l IH]; [now left|]. simpl.
  destruct (Nat.max_spec a (fold_right Nat.max 0%nat l)) as [[_ E]|[_ E]]; rewrite E.
  - destruct IH as [IH|IH]; [now left | right; now right].
  - right; now left.
Qed.

(** ** Sets of keys and dictionary lookups *)

Lemma FOP_filter {A} (R : A -> A -> Prop) (f : A -> bool) (l : list A) :
  ForallOrdPairs R l -> ForallOrdPairs R (filter f l).
Proof.
  induction 1 as [|a l Ha _ IH]; simpl; [constructor|].
  destruct (f a); [|assumption]. constructor; [|assumption].
  apply Forall_forall. intros b Hb. apply filter_In in Hb.
  rewrite Forall_forall in Ha. now apply Ha.
Qed.

Lemma py_set_apart {K} (eqb : K -> K -> bool) (l : list K) :
  (forall a b, eqb a b = eqb b a) ->
  ForallOrdPairs (fun a b => eqb a b = false) (py_set eqb l).
Proof.
  intros Hsym. induction l as [|k l IH]; simpl; constructor.
  - apply Forall_forall. intros b Hb. apply filter_In in Hb.
    destruct Hb as [_ Hb]. apply negb_true_iff in Hb. now rewrite Hsym.
  - now apply FOP_filter.
Qed.

Lemma py_set_incl {K} (eqb : K -> K -> bool) (l : list K) :
  incl (py_set eqb l) l.
Proof.
  induction l as [|k l IH]; simpl; intros a Ha; [assumption|].
  destruct Ha as [<-|Ha]; [now left|]. right. apply filter_In in Ha. now apply IH.
Qed.

Lemma key2_eqb_eq (k k' : Key2) : key2_eqb k k' = true <-> k = k'.
Proof.
  destruct k, k'. unfold key2_eqb; simpl.
  rewrite andb_true_iff, !Z.eqb_eq. split; [intros []; congruence | intros [= -> ->]; auto].
Qed.

Lemma key2_eqb_sym (k k' : Key2) : key2_eqb k k' = key2_eqb k' k.
Proof. unfold key2_eqb. now rewrite (Z.eqb_sym (fst k)), (Z.eqb_sym (snd k)). Qed.

Lemma key2_eqb_refl (k : Key2) : key2_eqb k k = true.
Proof. now apply key2_eqb_eq. Qed.

Lemma Qeq_bool_sym' (a b : Q) : Qeq_bool a b = Qeq_bool b a.
Proof.
  destruct (Qeq_bool a b) eqn:E.
  - apply Qeq_bool_iff in E. symmetry. apply Qeq_bool_iff. now symmetry.
  - destruct (Qeq_bool b a) eqn:E'; [|reflexivity].
    apply Qeq_bool_iff in E'. symmetry in E'. apply Qeq_bool_iff in E'. congruence.
Qed.

Lemma key3_eqb_sym (k k' : Key3) : key3_eqb k k' = key3_eqb k' k.
Proof. unfold key3_eqb. now rewrite key2_eqb_sym, Qeq_bool_sym'. Qed.

Lemma key3_eqb_refl (k : Key3) : key3_eqb k k = true.
Proof.
  unfold key3_eqb. rewrite key2_eqb_refl. simpl. apply Qeq_bool_iff. reflexivity.
Qed.

Lemma py_set_In2 (l : list Key2) (k : Key2) : In k (py_set key2_eqb l) <-> In k l.
Proof.
  split; [apply py_set_incl|].
  induction l as [|a l IH]; simpl; [auto|]. intros [<-|H]; [now left|].
  destruct (key2_eqb k a) eqn:E.
  - apply key2_eqb_eq in E. now left.
  - right. apply filter_In. split; [now apply IH | now rewrite E].
Qed.

Lemma py_set_NoDup2 (l : list Key2) : NoDup (py_set key2_eqb l).
Proof.
  pose proof (py_set_apart key2_eqb l key2_eqb_sym) as H.
  induction H as [|a t Ha _ IH]; constructor; [|assumption].
  intros Hin. rewrite Forall_forall in Ha. specialize (Ha a Hin).
  now rewrite key2_eqb_refl in Ha.
Qed.

Lemma unique_In (l : list Z) (z : Z) : In z (unique l) <-> In z l.
Proof.
  induction l as [|a l IH]; simpl; [tauto|]. split.
  - intros [->|H]; [now left|]. apply filter_In in H. right. now apply IH.
  - intros [->|H]; [now left|]. destruct (Z.eqb z a) eqn:E.
    + apply Z.eqb_eq in E. now left.
    + right. apply filter_In. split; [now apply IH | now rewrite E].
Qed.

Lemma unique_NoDup (l : list Z) : NoDup (unique l).
Proof.
  induction l as [|a l IH]; simpl; constructor.
  - intros H. apply filter_In in H. destruct H as [_ H]. now rewrite Z.eqb_refl in H.
  - now apply NoDup_filter.
Qed.

Section Lookups.

Context {K : Type} (eqb : K -> K -> bool).
Hypothesis eqb_refl : forall k, eqb k k = true.

Lemma dict_get_combine (keys : list K) (vs : list Var) :
  ForallOrdPairs (fun a b => eqb a b = false) keys ->
  own_hit eqb (combine keys vs) (combine keys vs).
Proof.
  intros Hf; revert vs; induction Hf as [|k keys Hk _ IH]; intros vs kv H;
    [destruct H|].
  destruct vs as [|v vs]; [destruct H|]. simpl in H. unfold dict_get. simpl.
  destruct H as [<-|H]; simpl; [now rewrite eqb_refl|].
  assert (eqb k (fst kv) = false) as E.
  { rewrite Forall_forall in Hk. apply Hk.
    destruct kv as [k' v']. apply in_combine_l in H. exact H. }
  rewrite E. apply (IH vs kv H).
Qed.

Lemma mapM_dict_get (x y : list (K * Var)) (p : K -> bool) :
  own_hit eqb x y ->
  mapM (dict_get eqb x) (filter p (map fst y))
  = Ok (map snd (filter (fun kv => p (fst kv)) y)).
Proof.
  induction y as [|[k v] y IH]; intros H; [reflexivity|]. simpl.
  assert (own_hit eqb x y) as Hy by (intros kv Hkv; apply H; now right).
  pose proof (H (k, v) (or_introl eq_refl)) as E. simpl in E.
  destruct (p k); [|now apply IH]. simpl.
  rewrite E. simpl. rewrite (IH Hy). reflexivity.
Qed.

Lemma mapM_dict_get_coef (x y : list (K * Var)) (c : K -> Q) :
  own_hit eqb x y ->
  mapM (fun k => v <- dict_get eqb x k ;; Ok (c k, v)) (map fst y)
  = Ok (map (fun kv => (c (fst kv), snd kv)) y).
Proof.
  induction y as [|[k v] y IH]; intros H; [reflexivity|]. simpl.
  assert (own_hit eqb x y) as Hy by (intros kv Hkv; apply H; now right).
  pose proof (H (k, v) (or_introl eq_refl)) as E. simpl in E.
  rewrite E. simpl. rewrite (IH Hy). reflexivity.
Qed.

End Lookups.

Lemma map_fst_addVars {K} (keys : list K) : map fst (addVars keys) = keys.
Proof.
  unfold addVars. generalize 0%nat.
  induction keys as [|k keys IH]; intros n; simpl; [reflexivity|]. now rewrite IH.
Qed.

Lemma length_addVars {K} (keys : list K) : length (addVars keys) = length keys.
Proof. unfold addVars. rewrite length_combine, length_seq. lia. Qed.

Lemma filter_map_fst {K} (p : K -> bool) (x : list (K * Var)) :
  filter p (map fst x) = map fst (filter (fun kv => p (fst kv)) x).
Proof.
  induction x as [|[k v] x IH]; [reflexivity|]. simpl.
  destruct (p k); simpl; now rewrite IH.
Qed.

(** ** The weighted model in closed form *)

Lemma own_hit_possible_matches3 (l : list Key3) :
  own_hit key3_eqb (addVars (py_set key3_eqb l)) (addVars (py_set key3_eqb l)).
Proof.
  apply dict_get_combine; [apply key3_eqb_refl | apply py_set_apart, key3_eqb_sym].
Qed.

Lemma sum_le_one_row (vs : list Var) : sum_le_one vs = Ok (sum_row vs).
Proof. destruct vs; reflexivity. Qed.

Lemma sum_le_one_Ok (vs : list Var) (c : LinExpr * Q) :
  sum_le_one vs = Ok c -> c = sum_row vs.
Proof. rewrite sum_le_one_row. now intros [= <-]. Qed.

Lemma sum_row_holds (s : Solution) (vs : list Var) :
  eval s (fst (sum_row vs)) <= snd (sum_row vs)
  <-> (count_chosen s vs <= 1)%nat.
Proof.
  destruct vs as [|v vs]; [|apply at_most_one_holds].
  split; intros _; [apply Nat.le_0_l | apply Qle_refl].
Qed.

Lemma mapM_count_constraints {K} (eqb : K -> K -> bool) (p : K -> Z)
  (x : list (K * Var)) (keys : list K) (ids : list Z) (cs : list (LinExpr * Q)) :
  own_hit eqb x x -> map fst x = keys ->
  mapM (fun d => vs <- mapM (dict_get eqb x)
                        (filter (fun k => Z.eqb (p k) d) keys) ;;
                 sum_le_one vs) ids
  = Ok cs ->
  cs = count_constraints p x ids.
Proof.
  intros H <-. apply mapM_Ok_map. intros d c _.
  rewrite (mapM_dict_get eqb x x (fun k => Z.eqb (p k) d) H). simpl.
  apply sum_le_one_Ok.
Qed.

Lemma mapM_count_constraints_total {K} (eqb : K -> K -> bool) (p : K -> Z)
  (x : list (K * Var)) (keys : list K) (ids : list Z) :
  own_hit eqb x x -> map fst x = keys ->
  mapM (fun d => vs <- mapM (dict_get eqb x)
                        (filter (fun k => Z.eqb (p k) d) keys) ;;
                 sum_le_one vs) ids
  = Ok (count_constraints p x ids).
Proof.
  intros H <-. apply mapM_map. intros d Hd.
  rewrite (mapM_dict_get eqb x x (fun k => Z.eqb (p k) d) H). simpl.
  apply sum_le_one_row.
Qed.

Lemma build_model_weighted (driverdf riderdf processdf : DataFrame)
  (m : Model) (x : tupledict) :
  build_model true driverdf riderdf processdf = Ok (m, x) ->
  exists drivers riders pm,
    unique_ids driverdf = Ok drivers /\
    unique_ids riderdf = Ok riders /\
    possible_matches3 processdf = Ok pm /\
    ForallOrdPairs (fun a b => key3_eqb a b = false) pm /\
    x = Keys3 (addVars pm) /\
    m = weighted_model drivers riders pm.
Proof.
  unfold build_model. intros H.
  apply bind_Ok in H. destruct H as (drivers & Ed & H).
  apply bind_Ok in H. destruct H as (riders & Er & H).
  apply bind_Ok in H. destruct H as (pm & Ep & H).
  exists drivers, riders, pm. repeat (split; [assumption|]).
  assert (exists l, pm = py_set key3_eqb l) as (l & ->).
  { unfold possible_matches3 in Ep.
    apply bind_Ok in Ep. destruct Ep as (ax & _ & Ep).
    apply bind_Ok in Ep. destruct Ep as (ay & _ & Ep).
    apply bind_Ok in Ep. destruct Ep as (w & _ & Ep).
    injection Ep as <-. eauto. }
  split; [apply py_set_apart, key3_eqb_sym|].
  pose proof (own_hit_possible_matches3 l) as Hx.
  set (pm := py_set key3_eqb l) in *.
  pose proof (mapM_dict_get_coef key3_eqb _ _ weight_of Hx) as E1.
  rewrite map_fst_addVars in E1. rewrite E1 in H. simpl in H.
  apply bind_Ok in H. destruct H as (cd & Ecd & H).
  apply bind_Ok in H. destruct H as (cr & Ecr & H).
  apply (mapM_count_constraints key3_eqb driver_of _ _ drivers cd Hx
           (map_fst_addVars pm)) in Ecd.
  apply (mapM_count_constraints key3_eqb rider_of _ _ riders cr Hx
           (map_fst_addVars pm)) in Ecr.
  subst cd cr. injection H as <- <-. split; reflexivity.
Qed.

Lemma Forall_count_constraints {K} (p : K -> Z) (x : list (K * Var)) (ids : list Z)
  (s : Solution) :
  Forall (fun c => eval s (fst c) <= snd c) (count_constraints p x ids)
  <-> forall d, In d ids ->
        (length (filter (fun k => Z.eqb (p k) d) (selected x s)) <= 1)%nat.
Proof.
  unfold count_constraints. rewrite Forall_map, Forall_forall.
  split; intros H d Hd; specialize (H d Hd).
  - apply sum_row_holds in H.
    now rewrite (count_selected (fun k => Z.eqb (p k) d)) in H.
  - apply sum_row_holds.
    now rewrite (count_selected (fun k => Z.eqb (p k) d)).
Qed.

Lemma count_one_to_one {K} (p : K -> Z) (M : list K) (ids : list Z) :
  (forall k, In k M -> In (p k) ids) ->
  (forall d, In d ids -> (length (filter (fun k => Z.eqb (p k) d) M) <= 1)%nat)
  <-> NoDup (map p M).
Proof.
  intros Hin. split.
  - intros H. apply count_NoDup. intros k Hk. apply H, Hin, Hk.
  - intros H d _. now apply NoDup_count.
Qed.

Lemma one_to_one_spec (pairs : list Key2) :
  one_to_one pairs = true <-> NoDup (map fst pairs) /\ NoDup (map snd pairs).
Proof. unfold one_to_one. now rewrite andb_true_iff, !distinct_NoDup. Qed.

(** Feasible points of the weighted model are the one-to-one selections of
    candidate edges, and the objective is their total weight. *)
Lemma weighted_feasible (drivers riders : list Z) (pm : list Key3) (s : Solution) :
  (forall k, In k pm -> In (driver_of k) drivers /\ In (rider_of k) riders) ->
  feasible (weighted_model drivers riders pm) s
  <-> length s = length pm /\ one_to_one (map fst (mask_select pm s)) = true.
Proof.
  intros Hin. unfold feasible, weighted_model. simpl numvars. simpl constrs.
  rewrite length_addVars, Forall_app, !Forall_count_constraints, selected_addVars.
  assert (forall k, In k (mask_select pm s) -> In k pm) as Hsub
    by (apply sublists_incl, mask_select_sublist).
  rewrite (count_one_to_one driver_of) by (intros k Hk; apply Hin, Hsub, Hk).
  rewrite (count_one_to_one rider_of) by (intros k Hk; apply Hin, Hsub, Hk).
  rewrite one_to_one_spec, !map_map. unfold driver_of, rider_of. tauto.
Qed.

Lemma weighted_objective (drivers riders : list Z) (pm : list Key3) (s : Solution) :
  objective_value (weighted_model drivers riders pm) s
  == total_weight (mask_select pm s).
Proof.
  unfold objective_value, weighted_model, total_weight. simpl objective.
  now rewrite eval_selected, selected_addVars.
Qed.

Lemma weighted_optimum (drivers riders : list Z) (pm : list Key3) :
  (forall k, In k pm -> In (driver_of k) drivers /\ In (rider_of k) riders) ->
  (exists s, optimal (weighted_model drivers riders pm) s) /\
  forall s, optimal (weighted_model drivers riders pm) s ->
            objective_value (weighted_model drivers riders pm) s
            == brute_force_optimum pm.
Proof.
  intros Hin. set (m := weighted_model drivers riders pm).
  assert (forall s, feasible m s -> objective_value m s <= brute_force_optimum pm) as Hle.
  { intros s Hs. apply (weighted_feasible _ _ _ _ Hin) in Hs. destruct Hs as [_ Hs].
    unfold m. rewrite weighted_objective. apply Qmax_list_ge.
    apply in_map. apply filter_In. split; [apply mask_select_sublist | exact Hs]. }
  assert (exists s, feasible m s /\ objective_value m s == brute_force_optimum pm)
    as (s0 & Hf0 & Ho0).
  { destruct (Qmax_list_attained (map total_weight (pairings3 pm))) as [E|(q & Hq & E)].
    - exists (repeat false (length pm)). assert (mask_select pm (repeat false (length pm)) = []) as Em.
      { unfold mask_select. clear. induction pm as [|k l IH]; [reflexivity | exact IH]. }
      split.
      + apply (weighted_feasible _ _ _ _ Hin). rewrite repeat_length, Em. now split.
      + unfold m. rewrite weighted_objective, Em. unfold brute_force_optimum.
        rewrite E. reflexivity.
    - apply in_map_iff in Hq. destruct Hq as (M & <- & HM).
      apply filter_In in HM. destruct HM as [HM H1].
      destruct (sublist_mask pm M HM) as (s & Hl & Hs). exists s. split.
      + apply (weighted_feasible _ _ _ _ Hin). rewrite Hs. now split.
      + unfold m. rewrite weighted_objective, Hs. unfold brute_force_optimum.
        now rewrite E. }
  split.
  - apply exists_optimal. eauto.
  - intros s [Hs Hbest]. apply Qle_antisym; [now apply Hle|].
    specialize (Hbest s0 Hf0). unfold at_least_as_good in Hbest. simpl in Hbest.
    fold m in Hbest. now rewrite <- Ho0.
Qed.

(** ** The unweighted model in closed form *)

Lemma dict_get_var_of {K} (eqb : K -> K -> bool) (x : list (K * Var)) (k : K) :
  dict_mem eqb x k = true -> dict_get eqb x k = Ok (var_of eqb x k).
Proof.
  unfold dict_mem, var_of, dict_get. intros H.
  destruct (find (fun kv => eqb (fst kv) k) x) eqn:F; [reflexivity|].
  apply existsb_exists in H. destruct H as (kv & Hkv & E).
  now rewrite (find_none _ _ F kv Hkv) in E.
Qed.

Lemma dict_mem_In (x : list (Key2 * Var)) (k : Key2) :
  dict_mem key2_eqb x k = true <-> In k (map fst x).
Proof.
  unfold dict_mem. rewrite existsb_exists, in_map_iff. split.
  - intros (kv & H & E). apply key2_eqb_eq in E. eauto.
  - intros (kv & E & H). exists kv. split; [assumption|]. now apply key2_eqb_eq.
Qed.

Lemma mapM_pair_constraints (x : list (Key2 * Var)) (mk : Z -> Z -> Key2)
  (ids others : list Z) (cs : list (LinExpr * Q)) :
  mapM (fun d => vs <- mapM (fun z => dict_get key2_eqb x (mk d z))
                        (filter (fun z => dict_mem key2_eqb x (mk d z)) others) ;;
                 sum_le_one vs) ids
  = Ok cs ->
  cs = pair_constraints x mk ids others.
Proof.
  apply mapM_Ok_map. intros d c _.
  rewrite (mapM_map _ (fun z => var_of key2_eqb x (mk d z))).
  - simpl. apply sum_le_one_Ok.
  - intros z Hz. apply filter_In in Hz. now apply dict_get_var_of.
Qed.

Lemma mapM_pair_constraints_total (x : list (Key2 * Var)) (mk : Z -> Z -> Key2)
  (ids others : list Z) :
  mapM (fun d => vs <- mapM (fun z => dict_get key2_eqb x (mk d z))
                        (filter (fun z => dict_mem key2_eqb x (mk d z)) others) ;;
                 sum_le_one vs) ids
  = Ok (pair_constraints x mk ids others).
Proof.
  apply mapM_map. intros d Hd.
  rewrite (mapM_map _ (fun z => var_of key2_eqb x (mk d z))).
  - simpl. apply sum_le_one_row.
  - intros z Hz. apply filter_In in Hz. now apply dict_get_var_of.
Qed.

Lemma build_model_unweighted (driverdf riderdf processdf : DataFrame)
  (m : Model) (x : tupledict) :
  build_model false driverdf riderdf processdf = Ok (m, x) ->
  exists drivers riders pm,
    unique_ids driverdf = Ok drivers /\
    unique_ids riderdf = Ok riders /\
    possible_matches2 processdf = Ok pm /\
    NoDup drivers /\ NoDup riders /\ NoDup pm /\
    x = Keys2 (addVars pm) /\
    m = unweighted_model drivers riders pm.
Proof.
  unfold build_model. intros H.
  apply bind_Ok in H. destruct H as (drivers & Ed & H).
  apply bind_Ok in H. destruct H as (riders & Er & H).
  apply bind_Ok in H. destruct H as (pm & Ep & H).
  exists drivers, riders, pm. repeat (split; [assumption|]).
  assert (forall df ids, unique_ids df = Ok ids -> NoDup ids) as Hu.
  { intros df ids E. unfold unique_ids in E.
    apply bind_Ok in E. destruct E as (c & _ & E). injection E as <-.
    apply unique_NoDup. }
  split; [eapply Hu; eauto|]. split; [eapply Hu; eauto|].
  split.
  { unfold possible_matches2 in Ep.
    apply bind_Ok in Ep. destruct Ep as (ax & _ & Ep).
    apply bind_Ok in Ep. destruct Ep as (ay & _ & Ep).
    injection Ep as <-. apply py_set_NoDup2. }
  apply bind_Ok in H. destruct H as (cd & Ecd & H).
  apply bind_Ok in H. destruct H as (cr & Ecr & H).
  apply (mapM_pair_constraints _ (fun d r => (d, r))) in Ecd.
  apply (mapM_pair_constraints _ (fun r d => (d, r))) in Ecr.
  subst cd cr. injection H as <- <-. split; reflexivity.
Qed.

Lemma count_chosen_perm (s : Solution) (l l' : list Var) :
  Permutation l l' -> count_chosen s l = count_chosen s l'.
Proof.
  unfold count_chosen. induction 1; simpl; try congruence.
  - destruct (chosen s x); simpl; congruence.
  - destruct (chosen s x), (chosen s y); reflexivity.
Qed.

Lemma NoDup_apart (l : list Key2) :
  NoDup l -> ForallOrdPairs (fun a b => key2_eqb a b = false) l.
Proof.
  induction 1 as [|a l Ha _ IH]; constructor; [|assumption].
  apply Forall_forall. intros b Hb. destruct (key2_eqb a b) eqn:E; [|reflexivity].
  apply key2_eqb_eq in E. subst b. contradiction.
Qed.

Lemma count_pair_constraint (pm : list Key2) (s : Solution)
  (mk : Z -> Z -> Key2) (p q : Key2 -> Z) (others : list Z) (d : Z) :
  NoDup pm -> NoDup others ->
  (forall z, p (mk d z) = d /\ q (mk d z) = z) ->
  (forall k, p k = d -> mk d (q k) = k) ->
  (forall k, In k pm -> In (q k) others) ->
  count_chosen s (map (fun z => var_of key2_eqb (addVars pm) (mk d z))
                    (filter (fun z => dict_mem key2_eqb (addVars pm) (mk d z)) others))
  = length (filter (fun k => Z.eqb (p k) d) (selected (addVars pm) s)).
Proof.
  intros Hpm Hot Hmk Hinv Hin. set (x := addVars pm).
  assert (own_hit key2_eqb x x) as Hx
    by (apply dict_get_combine; [apply key2_eqb_refl | now apply NoDup_apart]).
  rewrite <- (count_selected (fun k => Z.eqb (p k) d)).
  rewrite <- (map_map (mk d) (var_of key2_eqb x)).
  assert (map snd (filter (fun kv => Z.eqb (p (fst kv)) d) x)
          = map (var_of key2_eqb x) (filter (fun k => Z.eqb (p k) d) pm)) as ->.
  { rewrite <- (map_fst_addVars pm) at 1. fold x. rewrite filter_map_fst, map_map.
    apply map_ext_in. intros kv Hkv. apply filter_In in Hkv.
    unfold var_of. now rewrite (Hx kv (proj1 Hkv)). }
  apply count_chosen_perm, Permutation_map, NoDup_Permutation.
  - apply Finite.Injective_map_NoDup; [|now apply NoDup_filter].
    intros a b E. apply (f_equal q) in E. now rewrite !(proj2 (Hmk _)) in E.
  - now apply NoDup_filter.
  - intros k. rewrite in_map_iff, filter_In. split.
    + intros (z & <- & Hz). apply filter_In in Hz. destruct Hz as [_ Hz].
      apply dict_mem_In in Hz. unfold x in Hz. rewrite map_fst_addVars in Hz.
      split; [assumption|]. apply Z.eqb_eq, Hmk.
    + intros [Hk E]. apply Z.eqb_eq in E. exists (q k). split; [now apply Hinv|].
      apply filter_In. split; [now apply Hin|].
      apply dict_mem_In. unfold x. rewrite map_fst_addVars. now rewrite Hinv.
Qed.

Lemma Forall_pair_constraints (pm : list Key2) (s : Solution)
  (mk : Z -> Z -> Key2) (p q : Key2 -> Z) (ids others : list Z) :
  NoDup pm -> NoDup others ->
  (forall d z, p (mk d z) = d /\ q (mk d z) = z) ->
  (forall d k, p k = d -> mk d (q k) = k) ->
  (forall k, In k pm -> In (q k) others) ->
  Forall (fun c => eval s (fst c) <= snd c) (pair_constraints (addVars pm) mk ids others)
  <-> forall d, In d ids ->
        (length (filter (fun k => Z.eqb (p k) d) (selected (addVars pm) s)) <= 1)%nat.
Proof.
  intros Hpm Hot Hmk Hinv Hin.
  unfold pair_constraints. rewrite Forall_map, Forall_forall.
  split; intros H d Hd; specialize (H d Hd).
  - apply sum_row_holds in H.
    now rewrite (count_pair_constraint pm s mk p q others d) in H by auto.
  - apply sum_row_holds.
    now rewrite (count_pair_constraint pm s mk p q others d) by auto.
Qed.

(** Feasible points of the unweighted model are the one-to-one selections of
    candidate edges, and the objective is their number. *)
Lemma unweighted_feasible (drivers riders : list Z) (pm : list Key2) (s : Solution) :
  NoDup drivers -> NoDup riders -> NoDup pm ->
  (forall k, In k pm -> In (fst k) drivers /\ In (snd k) riders) ->
  feasible (unweighted_model drivers riders pm) s
  <-> length s = length pm /\ one_to_one (mask_select pm s) = true.
Proof.
  intros Hd Hr Hpm Hin. unfold feasible, unweighted_model. simpl numvars. simpl constrs.
  rewrite length_addVars, Forall_app.
  assert (forall k, In k (mask_select pm s) -> In k pm) as Hsub
    by (apply sublists_incl, mask_select_sublist).
  pose proof (Forall_pair_constraints pm s (fun d r => (d, r)) fst snd drivers riders
                Hpm Hr) as E1.
  pose proof (Forall_pair_constraints pm s (fun r d => (d, r)) snd fst riders drivers
                Hpm Hd) as E2.
  rewrite selected_addVars in E1, E2.
  pose proof (count_one_to_one (@fst Z Z) (mask_select pm s) drivers) as E3.
  pose proof (count_one_to_one (@snd Z Z) (mask_select pm s) riders) as E4.
  rewrite E1, E2, one_to_one_spec.
  - rewrite E3, E4; [tauto | |]; intros k Hk; apply Hin, Hsub, Hk.
  - intros d z; split; reflexivity.
  - intros d [a b]; simpl; congruence.
  - intros k Hk; now apply Hin.
  - intros d z; split; reflexivity.
  - intros d [a b]; simpl; congruence.
  - intros k Hk; now apply Hin.
Qed.

Lemma unweighted_objective (drivers riders : list Z) (pm : list Key2) (s : Solution) :
  objective_value (unweighted_model drivers riders pm) s
  == QofN (length (mask_select pm s)).
Proof.
  unfold objective_value, unweighted_model. simpl objective.
  rewrite (eval_selected (fun _ => 1)), selected_addVars.
  induction (mask_select pm s) as [|k l IH]; [reflexivity|].
  simpl map. simpl length. rewrite QofN_S. simpl. rewrite IH. reflexivity.
Qed.

Lemma mask_select_all_false {K} (keys : list K) :
  mask_select keys (repeat false (length keys)) = [].
Proof. unfold mask_select. induction keys as [|k l IH]; [reflexivity | exact IH]. Qed.

Lemma unweighted_optimum (drivers riders : list Z) (pm : list Key2) :
  NoDup drivers -> NoDup riders -> NoDup pm ->
  (forall k, In k pm -> In (fst k) drivers /\ In (snd k) riders) ->
  (exists s, optimal (unweighted_model drivers riders pm) s) /\
  forall s, optimal (unweighted_model drivers riders pm) s ->
            length (mask_select pm s) = max_matching_size pm.
Proof.
  intros Hd Hr Hpm Hin. set (m := unweighted_model drivers riders pm).
  assert (forall s, feasible m s ->
                    (length (mask_select pm s) <= max_matching_size pm)%nat) as Hle.
  { intros s Hs. apply unweighted_feasible in Hs; auto. destruct Hs as [_ Hs].
    apply Nmax_list_ge. apply in_map.
    apply filter_In. split; [apply mask_select_sublist | exact Hs]. }
  assert (exists s, feasible m s /\ length (mask_select pm s) = max_matching_size pm)
    as (s0 & Hf0 & Ho0).
  { destruct (Nmax_list_attained (map (@length Key2) (pairings2 pm))) as [E|Hq].
    - exists (repeat false (length pm)). split.
      + apply unweighted_feasible; auto.
        rewrite repeat_length, mask_select_all_false. now split.
      + rewrite mask_select_all_false. unfold max_matching_size. now rewrite E.
    - apply in_map_iff in Hq. destruct Hq as (M & E & HM).
      apply filter_In in HM. destruct HM as [HM H1].
      destruct (sublist_mask pm M HM) as (s & Hl & Hs). exists s. split.
      + apply unweighted_feasible; auto. rewrite Hs. now split.
      + rewrite Hs. exact E. }
  split.
  - apply exists_optimal. eauto.
  - intros s [Hs Hbest]. apply Nat.le_antisymm; [now apply Hle|].
    specialize (Hbest s0 Hf0). unfold at_least_as_good in Hbest. simpl in Hbest.
    fold m in Hbest. unfold m in Hbest. rewrite !unweighted_objective in Hbest.
    apply QofN_le in Hbest. lia.
Qed.

Lemma build_model_weighted_total (driverdf riderdf processdf : DataFrame)
  (drivers riders : list Z) (pm : list Key3) :
  unique_ids driverdf = Ok drivers ->
  unique_ids riderdf = Ok riders ->
  possible_matches3 processdf = Ok pm ->
  build_model true driverdf riderdf processdf
  = Ok (weighted_model drivers riders pm, Keys3 (addVars pm)).
Proof.
  intros Ed Er Ep. unfold build_model. rewrite Ed, Er, Ep. simpl.
  assert (exists l, pm = py_set key3_eqb l) as (l & ->).
  { unfold possible_matches3 in Ep.
    apply bind_Ok in Ep. destruct Ep as (ax & _ & Ep).
    apply bind_Ok in Ep. destruct Ep as (ay & _ & Ep).
    apply bind_Ok in Ep. destruct Ep as (w & _ & Ep).
    injection Ep as <-. eauto. }
  pose proof (own_hit_possible_matches3 l) as Hx.
  pose proof (mapM_dict_get_coef key3_eqb _ _ weight_of Hx) as E1.
  pose proof (mapM_count_constraints_total key3_eqb driver_of _ _ drivers Hx
                (map_fst_addVars _)) as E2.
  pose proof (mapM_count_constraints_total key3_eqb rider_of _ _ riders Hx
                (map_fst_addVars _)) as E3.
  rewrite map_fst_addVars in E1.
  rewrite E1. simpl. rewrite E2. simpl. rewrite E3. reflexivity.
Qed.

Lemma build_model_unweighted_total (driverdf riderdf processdf : DataFrame)
  (drivers riders : list Z) (pm : list Key2) :
  unique_ids driverdf = Ok drivers ->
  unique_ids riderdf = Ok riders ->
  possible_matches2 processdf = Ok pm ->
  build_model false driverdf riderdf processdf
  = Ok (unweighted_model drivers riders pm, Keys2 (addVars pm)).
Proof.
  intros Ed Er Ep. unfold build_model. rewrite Ed, Er, Ep. simpl.
  rewrite (mapM_pair_constraints_total _ (fun d r => (d, r)) drivers riders).
  simpl. rewrite (mapM_pair_constraints_total _ (fun r d => (d, r)) riders drivers).
  reflexivity.
Qed.

(** ** Optimality of the class models *)

(** C1. With [use_weights=True], on every instance with at most six drivers
    and six riders whose candidate edges join listed participants, the model
    build_model returns has an optimal solution, and every optimal solution
    selects a one-to-one matching whose objective value, the sum of the
    selected edge weights, equals the brute-force optimum over all one-to-one
    pairings of candidate edges (participants left out contribute zero). *)
Theorem weighted_objective_is_brute_force_optimum
  (driverdf riderdf processdf : DataFrame) (m : Model) (x : tupledict)
  (drivers riders : list Z) (edges : list Key3) :
  build_model true driverdf riderdf processdf = Ok (m, x) ->
  unique_ids driverdf = Ok drivers ->
  unique_ids riderdf = Ok riders ->
  possible_matches3 processdf = Ok edges ->
  edges_within drivers riders (map fst edges) ->
  (length drivers <= 6)%nat -> (length riders <= 6)%nat ->
  (exists s, optimal m s) /\
  forall s, optimal m s ->
    one_to_one (matching_of x s) = true /\
    objective_value m s == matched_weight x s /\
    objective_value m s == brute_force_optimum edges.
Proof.
  intros Hb Ed Er Ep Hin _ _.
  destruct (build_model_weighted _ _ _ _ _ Hb)
    as (ds & rs & pm & Ed' & Er' & Ep' & _ & -> & ->).
  rewrite Ed in Ed'. rewrite Er in Er'. rewrite Ep in Ep'.
  injection Ed' as <-. injection Er' as <-. injection Ep' as <-.
  assert (forall k, In k edges -> In (driver_of k) drivers /\ In (rider_of k) riders)
    as Hin' by (intros k Hk; apply (Hin (fst k)), in_map, Hk).
  destruct (weighted_optimum drivers riders edges Hin') as [Hex Hopt].
  split; [exact Hex|].
  intros s Hs. simpl matching_of. simpl matched_weight.
  rewrite selected_addVars. repeat split.
  - apply (weighted_feasible drivers riders edges s Hin'), Hs.
  - apply weighted_objective.
  - now apply Hopt.
Qed.

Lemma weighted_objective_is_brute_force_optimum_witness :
  let m := weighted_model [1; 2]%Z [101; 102]%Z four_weighted_edges in
  let x := Keys3 (addVars four_weighted_edges) in
  (exists s, optimal m s) /\
  forall s, optimal m s ->
    one_to_one (matching_of x s) = true /\
    objective_value m s == matched_weight x s /\
    objective_value m s == brute_force_optimum four_weighted_edges.
Proof.
  apply (weighted_objective_is_brute_force_optimum
           two_drivers two_riders (four_pairs [3; 5; 4; -1]) _ _
           [1; 2]%Z [101; 102]%Z).
  - reflexivity.
  - reflexivity.
  - reflexivity.
  - reflexivity.
  - intros k Hk. simpl in Hk.
    repeat (destruct Hk as [<-|Hk]; [simpl; auto 6|]). destruct Hk.
  - simpl. lia.
  - simpl. lia.
Defined.

Lemma matched_pairs_selected (pm : list Key2) (s : Solution) :
  NoDup pm ->
  matched_pairs (Keys2 (addVars pm)) s = Ok (matching_of (Keys2 (addVars pm)) s).
Proof.
  intros Hn. unfold matched_pairs. simpl x_dict. simpl possible_pairs. simpl matching_of.
  set (x := addVars pm).
  assert (own_hit key2_eqb x x) as Hx
    by (apply dict_get_combine; [apply key2_eqb_refl | now apply NoDup_apart]).
  assert (forall y, own_hit key2_eqb x y ->
            mapM (fun dr => v <- dict_get key2_eqb x dr ;; Ok (dr, chosen s v)) (map fst y)
            = Ok (map (fun kv => (fst kv, chosen s (snd kv))) y)) as Hm.
  { induction y as [|[k v] y IH]; intros Hy; [reflexivity|]. simpl.
    pose proof (Hy (k, v) (or_introl eq_refl)) as E. simpl in E. rewrite E. simpl.
    rewrite IH by (intros kv Hkv; apply Hy; now right). reflexivity. }
  rewrite (Hm x Hx). simpl. f_equal. unfold selected.
  clear Hx Hm. clearbody x.
  induction x as [|[k v] x IH]; [reflexivity|]. simpl.
  destruct (chosen s v); simpl; now rewrite IH.
Qed.

(** C2. With [use_weights=False], on every instance with at most eight
    drivers and eight riders whose candidate edges join listed participants,
    the model build_model returns has an optimal solution, and the matching
    every optimal solution selects, which is the list of pairs
    calculate_metrics counts, is one-to-one and has the maximum size found by
    exhaustive search over all one-to-one pairings of candidate edges. *)
Theorem unweighted_size_is_maximum_matching
  (driverdf riderdf processdf : DataFrame) (m : Model) (x : tupledict)
  (drivers riders : list Z) (edges : list Key2) :
  build_model false driverdf riderdf processdf = Ok (m, x) ->
  unique_ids driverdf = Ok drivers ->
  unique_ids riderdf = Ok riders ->
  possible_matches2 processdf = Ok edges ->
  edges_within drivers riders edges ->
  (length drivers <= 8)%nat -> (length riders <= 8)%nat ->
  (exists s, optimal m s) /\
  forall s, optimal m s ->
    matched_pairs x s = Ok (matching_of x s) /\
    one_to_one (matching_of x s) = true /\
    length (matching_of x s) = max_matching_size edges.
Proof.
  intros Hb Ed Er Ep Hin _ _.
  destruct (build_model_unweighted _ _ _ _ _ Hb)
    as (ds & rs & pm & Ed' & Er' & Ep' & Nd & Nr & Np & -> & ->).
  rewrite Ed in Ed'. rewrite Er in Er'. rewrite Ep in Ep'.
  injection Ed' as <-. injection Er' as <-. injection Ep' as <-.
  destruct (unweighted_optimum drivers riders edges Nd Nr Np Hin) as [Hex Hopt].
  split; [exact Hex|].
  intros s Hs. split; [apply matched_pairs_selected; exact Np|].
  simpl matching_of. rewrite selected_addVars. split.
  - apply (unweighted_feasible drivers riders edges s Nd Nr Np Hin), Hs.
  - now apply Hopt.
Qed.

Lemma unweighted_size_is_maximum_matching_witness :
  let m := unweighted_model [1; 2]%Z [101; 102]%Z four_edges in
  let x := Keys2 (addVars four_edges) in
  (exists s, optimal m s) /\
  forall s, optimal m s ->
    matched_pairs x s = Ok (matching_of x s) /\
    one_to_one (matching_of x s) = true /\
    length (matching_of x s) = max_matching_size four_edges.
Proof.
  apply (unweighted_size_is_maximum_matching
           two_drivers two_riders four_id_pairs _ _ [1; 2]%Z [101; 102]%Z).
  - reflexivity.
  - reflexivity.
  - reflexivity.
  - reflexivity.
  - intros k Hk. simpl in Hk.
    repeat (destruct Hk as [<-|Hk]; [simpl; auto 6|]). destruct Hk.
  - simpl. lia.
  - simpl. lia.
Defined.

(** ** The model of the script *)

Lemma idx_eqb_eq (k k' : nat * nat) : idx_eqb k k' = true <-> k = k'.
Proof.
  destruct k, k'. unfold idx_eqb; simpl.
  rewrite andb_true_iff, !Nat.eqb_eq. split; [intros []; congruence | intros [= -> ->]; auto].
Qed.

Lemma own_hit_NoDup {K} (eqb : K -> K -> bool) (keys : list K) :
  (forall a b, eqb a b = true <-> a = b) ->
  NoDup keys -> own_hit eqb (addVars keys) (addVars keys).
Proof.
  intros Heq Hn. apply dict_get_combine; [intros k; now apply Heq|].
  induction Hn as [|a l Ha _ IH]; constructor; [|assumption].
  apply Forall_forall. intros b Hb. destruct (eqb a b) eqn:E; [|reflexivity].
  apply Heq in E. subst b. contradiction.
Qed.

Lemma count_by_keys {K} (eqb : K -> K -> bool) (keys A : list K) (pred : K -> bool)
  (s : Solution) :
  (forall a b, eqb a b = true <-> a = b) ->
  NoDup keys -> NoDup A ->
  (forall k, In k A <-> In k keys /\ pred k = true) ->
  count_chosen s (map (var_of eqb (addVars keys)) A)
  = length (filter pred (selected (addVars keys) s)).
Proof.
  intros Heq Hk HA Hiff. set (x := addVars keys).
  pose proof (own_hit_NoDup eqb keys Heq Hk) as Hx. fold x in Hx.
  rewrite <- (count_selected pred).
  assert (map snd (filter (fun kv => pred (fst kv)) x)
          = map (var_of eqb x) (filter pred keys)) as ->.
  { rewrite <- (map_fst_addVars keys) at 1. fold x. rewrite filter_map_fst, map_map.
    apply map_ext_in. intros kv Hkv. apply filter_In in Hkv.
    unfold var_of. now rewrite (Hx kv (proj1 Hkv)). }
  apply count_chosen_perm, Permutation_map, NoDup_Permutation;
    [assumption | now apply NoDup_filter |].
  intros k. rewrite filter_In. apply Hiff.
Qed.

Lemma grid_In (R D i j : nat) : In (i, j) (grid R D) <-> (i < R /\ j < D)%nat.
Proof. unfold grid. rewrite in_prod_iff, !in_seq. lia. Qed.

Lemma grid_NoDup (R D : nat) : NoDup (grid R D).
Proof.
  unfold grid. generalize (seq_NoDup D 0). generalize (seq_NoDup R 0).
  generalize (seq 0 D) as l'. generalize (seq 0 R) as l.
  induction l as [|a l IH]; intros l' Hl Hl'; simpl; [constructor|].
  inversion Hl as [|? ? Ha Hl0]; subst.
  apply NoDup_app; [| now apply IH |].
  - apply Finite.Injective_map_NoDup; [|assumption]. intros x y E. congruence.
  - intros k Hk Hk'. apply in_map_iff in Hk. destruct Hk as (b & <- & _).
    apply in_prod_iff in Hk'. tauto.
Qed.

Lemma script_dict_get (R D i j : nat) :
  (i < R)%nat -> (j < D)%nat ->
  dict_get idx_eqb (script_vars R D) (i, j)
  = Ok (var_of idx_eqb (script_vars R D) (i, j)).
Proof.
  intros Hi Hj. apply dict_get_var_of. unfold dict_mem.
  apply existsb_exists. unfold script_vars.
  assert (In (i, j) (map fst (addVars (grid R D)))) as H
    by (rewrite map_fst_addVars; now apply grid_In).
  apply in_map_iff in H. destruct H as (kv & E & H).
  exists kv. split; [exact H|]. now apply idx_eqb_eq.
Qed.

Lemma script_model_inv (riders drivers : DataFrame) (m : Model) :
  script_model riders drivers = Ok m ->
  numvars m = length (script_vars (nrows riders) (nrows drivers)) /\
  sense m = MINIMIZE /\
  constrs m = script_constraints (nrows riders) (nrows drivers) /\
  Forall2 (fun ij t => snd t = var_of idx_eqb (script_vars (nrows riders) (nrows drivers)) ij
                       /\ calculate_distance riders drivers (fst ij) (snd ij) = Ok (fst t))
          (grid (nrows riders) (nrows drivers)) (objective m).
Proof.
  unfold script_model. intros H.
  apply bind_Ok in H. destruct H as (obj & Eo & H).
  rewrite (mapM_map _ (fun i => at_most_one
             (map (fun j => var_of idx_eqb (script_vars (nrows riders) (nrows drivers)) (i, j))
                  (seq 0 (nrows drivers))))) in H.
  2:{ intros i Hi. apply in_seq in Hi.
      rewrite (mapM_map _ (fun j => var_of idx_eqb
                 (script_vars (nrows riders) (nrows drivers)) (i, j))); [reflexivity|].
      intros j Hj. apply in_seq in Hj. apply script_dict_get; lia. }
  simpl in H.
  rewrite (mapM_map _ (fun j => at_most_one
             (map (fun i => var_of idx_eqb (script_vars (nrows riders) (nrows drivers)) (i, j))
                  (seq 0 (nrows riders))))) in H.
  2:{ intros j Hj. apply in_seq in Hj.
      rewrite (mapM_map _ (fun i => var_of idx_eqb
                 (script_vars (nrows riders) (nrows drivers)) (i, j))); [reflexivity|].
      intros i Hi. apply in_seq in Hi. apply script_dict_get; lia. }
  simpl in H. injection H as <-. simpl.
  repeat split.
  apply mapM_Ok_inv in Eo. fold (grid (nrows riders) (nrows drivers)) in Eo.
  eapply Forall2_impl; [|exact Eo]. simpl. intros ij t Ht.
  apply bind_Ok in Ht. destruct Ht as (v & Ev & Ht).
  apply bind_Ok in Ht. destruct Ht as (c & Ec & Ht). injection Ht as <-. simpl.
  split; [|exact Ec]. unfold var_of. now rewrite Ev.
Qed.

Lemma calculate_distance_nonneg (riders drivers : DataFrame) (i j : nat) (c : Q) :
  calculate_distance riders drivers i j = Ok c -> 0 <= c.
Proof.
  unfold calculate_distance. intros H.
  repeat (apply bind_Ok in H; destruct H as (? & _ & H)).
  apply Ok_inj in H. rewrite <- H.
  match goal with
  | |- 0 <= Qabs ?a + Qabs ?b + Qabs ?c + Qabs ?d =>
      pose proof (Qabs_nonneg a); pose proof (Qabs_nonneg b);
      pose proof (Qabs_nonneg c); pose proof (Qabs_nonneg d); lra
  end.
Qed.

Lemma chosen_all_false (n : nat) (v : Var) : chosen (repeat false n) v = false.
Proof.
  rewrite chosen_nth. destruct (Nat.lt_ge_cases v n).
  - now apply nth_repeat_lt.
  - apply nth_overflow. now rewrite repeat_length.
Qed.

Lemma eval_all_false (n : nat) (e : LinExpr) : eval (repeat false n) e == 0.
Proof.
  induction e as [|[c v] e IH]; [reflexivity|].
  rewrite eval_cons, IH, X_chosen, chosen_all_false. lra.
Qed.

Lemma selected_all_false {K} (x : list (K * Var)) (n : nat) :
  selected x (repeat false n) = [].
Proof.
  unfold selected. induction x as [|[k v] x IH]; [reflexivity|]. simpl.
  now rewrite chosen_all_false.
Qed.

Lemma count_chosen_all_false (n : nat) (vs : list Var) :
  count_chosen (repeat false n) vs = 0%nat.
Proof.
  unfold count_chosen. induction vs as [|v vs IH]; [reflexivity|]. simpl.
  now rewrite chosen_all_false.
Qed.

Lemma script_objective_nonneg (riders drivers : DataFrame) (m : Model) :
  script_model riders drivers = Ok m -> Forall (fun t => 0 <= fst t) (objective m).
Proof.
  intros H. apply script_model_inv in H. destruct H as (_ & _ & _ & H).
  induction H as [|ij t l l' [_ Ht] _ IH]; constructor; [|assumption].
  eapply calculate_distance_nonneg, Ht.
Qed.

Lemma script_all_false_feasible (riders drivers : DataFrame) (m : Model) :
  script_model riders drivers = Ok m -> feasible m (repeat false (numvars m)).
Proof.
  intros H. apply script_model_inv in H. destruct H as (_ & _ & Hc & _).
  split; [apply repeat_length|]. rewrite Hc. unfold script_constraints.
  apply Forall_app; split; apply Forall_map, Forall_forall; intros z _;
    apply at_most_one_holds; rewrite count_chosen_all_false; lia.
Qed.

(** C10. In the module-level script, whenever the model is built, every
    objective coefficient is a sum of absolute values and so nonnegative, the
    sense is minimisation, and the assignment that selects no pair satisfies
    every at-most-one constraint: it is an optimal solution, and the optimal
    objective value is 0. *)
Theorem script_all_zero_is_optimal (riders drivers : DataFrame) (m : Model) :
  script_model riders drivers = Ok m ->
  Forall (fun t => 0 <= fst t) (objective m) /\
  sense m = MINIMIZE /\
  selected (script_vars (nrows riders) (nrows drivers)) (repeat false (numvars m)) = [] /\
  optimal m (repeat false (numvars m)) /\
  objective_value m (repeat false (numvars m)) == 0 /\
  forall s, optimal m s -> objective_value m s == 0.
Proof.
  intros H.
  pose proof (script_objective_nonneg _ _ _ H) as Hobj.
  pose proof (script_all_false_feasible _ _ _ H) as Hzero.
  pose proof (script_model_inv _ _ _ H) as (_ & Hs & _ & _).
  assert (forall s, 0 <= objective_value m s) as Hge
    by (intros s; now apply eval_nonneg).
  assert (objective_value m (repeat false (numvars m)) == 0) as Hz
    by apply eval_all_false.
  repeat split; try assumption.
  - apply selected_all_false.
  - apply Hzero.
  - apply Hzero.
  - intros s' _. unfold at_least_as_good. rewrite Hs, Hz. apply Hge.
  - intros s [_ Hbest]. specialize (Hbest _ Hzero).
    unfold at_least_as_good in Hbest. rewrite Hs, Hz in Hbest.
    apply Qle_antisym; [assumption | apply Hge].
Qed.

Lemma script_all_zero_is_optimal_witness :
  exists m,
    script_model two_riders two_drivers = Ok m /\
    Forall (fun t => 0 <= fst t) (objective m) /\
    sense m = MINIMIZE /\
    selected (script_vars 2 2) (repeat false (numvars m)) = [] /\
    optimal m (repeat false (numvars m)) /\
    objective_value m (repeat false (numvars m)) == 0 /\
    forall s, optimal m s -> objective_value m s == 0.
Proof.
  eexists. split; [reflexivity|].
  apply (script_all_zero_is_optimal two_riders two_drivers). reflexivity.
Defined.

(** ** Validity of the returned matching *)

Lemma class_matching_valid (use_weights : bool)
  (driverdf riderdf processdf : DataFrame) (m : Model) (x : tupledict)
  (drivers riders : list Z) (pairs : list Key2) (s : Solution) :
  build_model use_weights driverdf riderdf processdf = Ok (m, x) ->
  unique_ids driverdf = Ok drivers ->
  unique_ids riderdf = Ok riders ->
  candidate_pairs use_weights processdf = Ok pairs ->
  edges_within drivers riders pairs ->
  feasible m s ->
  NoDup (map fst (matching_of x s)) /\ NoDup (map snd (matching_of x s)) /\
  incl (matching_of x s) pairs.
Proof.
  intros Hb Ed Er Ec Hin Hs. destruct use_weights.
  - destruct (build_model_weighted _ _ _ _ _ Hb)
      as (ds & rs & pm & Ed' & Er' & Ep & _ & -> & ->).
    rewrite Ed in Ed'. rewrite Er in Er'. injection Ed' as <-. injection Er' as <-.
    unfold candidate_pairs in Ec. rewrite Ep in Ec. simpl in Ec. injection Ec as <-.
    assert (forall k, In k pm -> In (driver_of k) drivers /\ In (rider_of k) riders)
      as Hin' by (intros k Hk; apply (Hin (fst k)), in_map, Hk).
    apply (weighted_feasible _ _ _ _ Hin') in Hs. destruct Hs as [_ Hs].
    apply one_to_one_spec in Hs. simpl matching_of. rewrite selected_addVars.
    repeat split; try apply Hs.
    apply incl_map, sublists_incl, mask_select_sublist.
  - destruct (build_model_unweighted _ _ _ _ _ Hb)
      as (ds & rs & pm & Ed' & Er' & Ep & Nd & Nr & Np & -> & ->).
    rewrite Ed in Ed'. rewrite Er in Er'. injection Ed' as <-. injection Er' as <-.
    unfold candidate_pairs in Ec. rewrite Ep in Ec. injection Ec as <-.
    apply unweighted_feasible in Hs; auto. destruct Hs as [_ Hs].
    apply one_to_one_spec in Hs. simpl matching_of. rewrite selected_addVars.
    repeat split; try apply Hs.
    apply sublists_incl, mask_select_sublist.
Qed.

Lemma selected_incl {K} (x : list (K * Var)) (s : Solution) :
  incl (selected x s) (map fst x).
Proof.
  unfold selected. intros k Hk. apply in_map_iff in Hk.
  destruct Hk as (kv & <- & Hkv). apply filter_In in Hkv. now apply in_map.
Qed.

Lemma NoDup_map_of_nat {K} (p : K -> nat) (M : list K) :
  NoDup (map (fun k => Z.of_nat (p k)) M) -> NoDup (map p M).
Proof.
  intros H. rewrite <- (map_map p Z.of_nat) in H. eapply NoDup_map_inv, H.
Qed.

Lemma script_matching_one_to_one (riders drivers : DataFrame) (m : Model)
  (s : Solution) :
  script_model riders drivers = Ok m ->
  feasible m s ->
  let sel := selected (script_vars (nrows riders) (nrows drivers)) s in
  NoDup (map fst sel) /\ NoDup (map snd sel) /\
  incl sel (grid (nrows riders) (nrows drivers)).
Proof.
  intros Hm [_ Hs] sel.
  pose proof (script_model_inv _ _ _ Hm) as (_ & _ & Hc & _).
  rewrite Hc in Hs. unfold script_constraints in Hs.
  apply Forall_app in Hs. destruct Hs as [Hr Hd].
  rewrite Forall_map, Forall_forall in Hr, Hd.
  set (R := nrows riders) in *. set (D := nrows drivers) in *.
  assert (incl sel (grid R D)) as Hsub.
  { unfold sel, script_vars. intros k Hk. apply selected_incl in Hk.
    now rewrite map_fst_addVars in Hk. }
  split; [|split; [|exact Hsub]].
  - apply NoDup_map_of_nat, count_NoDup. intros [i j] Hk. simpl.
    pose proof (proj1 (grid_In R D i j) (Hsub _ Hk)) as [Hi Hj].
    assert (In i (seq 0 R)) as Hi' by (apply in_seq; lia).
    specialize (Hr i Hi'). apply at_most_one_holds in Hr.
    rewrite <- (map_map (fun j => (i, j)) (var_of idx_eqb (script_vars R D))) in Hr.
    unfold script_vars in Hr.
    rewrite (count_by_keys idx_eqb (grid R D) _
               (fun k => Z.eqb (Z.of_nat (fst k)) (Z.of_nat i))) in Hr.
    + exact Hr.
    + apply idx_eqb_eq.
    + apply grid_NoDup.
    + apply Finite.Injective_map_NoDup; [intros a b; congruence | apply seq_NoDup].
    + intros [a b]. rewrite in_map_iff, grid_In, Z.eqb_eq. simpl. split.
      * intros (z & [= <- <-] & Hz). apply in_seq in Hz. lia.
      * intros [[_ Hb] Ha]. apply Nat2Z.inj in Ha. subst a.
        exists b. split; [reflexivity | apply in_seq; lia].
  - apply NoDup_map_of_nat, count_NoDup. intros [i j] Hk. simpl.
    pose proof (proj1 (grid_In R D i j) (Hsub _ Hk)) as [Hi Hj].
    assert (In j (seq 0 D)) as Hj' by (apply in_seq; lia).
    specialize (Hd j Hj'). apply at_most_one_holds in Hd.
    rewrite <- (map_map (fun i => (i, j)) (var_of idx_eqb (script_vars R D))) in Hd.
    unfold script_vars in Hd.
    rewrite (count_by_keys idx_eqb (grid R D) _
               (fun k => Z.eqb (Z.of_nat (snd k)) (Z.of_nat j))) in Hd.
    + exact Hd.
    + apply idx_eqb_eq.
    + apply grid_NoDup.
    + apply Finite.Injective_map_NoDup; [intros a b; congruence | apply seq_NoDup].
    + intros [a b]. rewrite in_map_iff, grid_In, Z.eqb_eq. simpl. split.
      * intros (z & [= <- <-] & Hz). apply in_seq in Hz. lia.
      * intros [[Ha _] Hb]. apply Nat2Z.inj in Hb. subst b.
        exists a. split; [reflexivity | apply in_seq; lia].
Qed.

Lemma Forall2_nth_error {A B} (R : A -> B -> Prop) (l : list A) (l' : list B)
  (i : nat) (a : A) :
  Forall2 R l l' -> nth_error l i = Some a ->
  exists b, nth_error l' i = Some b /\ R a b.
Proof.
  intros H. revert i. induction H as [|x y l l' Hxy _ IH]; intros i Hi.
  - destruct i; discriminate.
  - destruct i as [|i]; simpl in *; [injection Hi as <-; eauto | now apply IH].
Qed.

Lemma Forall2_In_r {A B} (R : A -> B -> Prop) (l : list A) (l' : list B) (b : B) :
  Forall2 R l l' -> In b l' -> exists a, In a l /\ R a b.
Proof.
  induction 1 as [|x y l l' Hxy _ IH]; intros Hb; [destruct Hb|].
  destruct Hb as [<-|Hb]; [exists x; split; [now left | assumption]|].
  destruct (IH Hb) as (a & Ha & Hab). exists a. split; [now right | assumption].
Qed.

Lemma id_at_nth (df : DataFrame) (ids : list Z) (i : nat) (z : Z) :
  int_col df "Announcement" = Ok ids -> id_at df i = Ok z ->
  nth_error ids i = Some z.
Proof.
  unfold int_col, id_at. intros H1 H2.
  apply bind_Ok in H1. destruct H1 as (c & Ec & H1).
  rewrite Ec in H2. simpl in H2.
  apply bind_Ok in H2. destruct H2 as (v & Ev & H2).
  unfold iloc in Ev. destruct (nth_error c i) as [v'|] eqn:En; [|discriminate].
  injection Ev as ->.
  apply mapM_Ok_inv in H1.
  destruct (Forall2_nth_error _ _ _ _ _ H1 En) as (b & Hb & E).
  rewrite H2 in E. injection E as <-. exact Hb.
Qed.

Lemma NoDup_through_ids {A B} (ids : list Z) (f : A -> nat) (g : B -> Z)
  (sel : list A) (ms : list B) :
  Forall2 (fun a b => nth_error ids (f a) = Some (g b)) sel ms ->
  NoDup ids -> NoDup (map f sel) -> NoDup (map g ms).
Proof.
  intros H Hids. induction H as [|a b sel ms Hab H IH]; simpl; intros Hn;
    [constructor|].
  inversion Hn as [|? ? Hfa Hn']; subst. constructor; [|now apply IH].
  intros Hin. apply in_map_iff in Hin. destruct Hin as (b' & E & Hb').
  destruct (Forall2_In_r _ _ _ _ H Hb') as (a' & Ha' & Hab').
  rewrite E, <- Hab in Hab'.
  assert (f a' = f a) as Ef.
  { apply (proj1 (NoDup_nth_error ids) Hids); [|exact Hab'].
    apply nth_error_Some. rewrite Hab'. rewrite Hab. discriminate. }
  apply Hfa. rewrite <- Ef. now apply in_map.
Qed.

Lemma extract_matches_valid (riders drivers : DataFrame) (m : Model) (s : Solution)
  (matches : list (Z * Z)) (rids dids : list Z) :
  script_model riders drivers = Ok m ->
  feasible m s ->
  extract_matches riders drivers s = Ok matches ->
  int_col riders "Announcement" = Ok rids ->
  int_col drivers "Announcement" = Ok dids ->
  NoDup rids -> NoDup dids ->
  NoDup (map fst matches) /\ NoDup (map snd matches) /\
  forall p, In p matches -> In (fst p) rids /\ In (snd p) dids.
Proof.
  intros Hm Hs He Er Ed Nr Nd.
  destruct (script_matching_one_to_one _ _ _ _ Hm Hs) as (H1 & H2 & _).
  unfold extract_matches in He. apply mapM_Ok_inv in He.
  assert (Forall2 (fun ij p => nth_error rids (fst ij) = Some (fst p) /\
                               nth_error dids (snd ij) = Some (snd p))
            (selected (script_vars (nrows riders) (nrows drivers)) s) matches) as HF.
  { eapply Forall2_impl; [|exact He]. simpl. intros ij p Hp.
    apply bind_Ok in Hp. destruct Hp as (r & Hr & Hp).
    apply bind_Ok in Hp. destruct Hp as (d & Hd & Hp). injection Hp as <-. simpl.
    split; eapply id_at_nth; eauto. }
  repeat split.
  - eapply (NoDup_through_ids rids fst fst); [|exact Nr|exact H1].
    eapply Forall2_impl; [|exact HF]. simpl. tauto.
  - eapply (NoDup_through_ids dids snd snd); [|exact Nd|exact H2].
    eapply Forall2_impl; [|exact HF]. simpl. tauto.
  - destruct (Forall2_In_r _ _ _ _ HF H) as (ij & _ & E & _).
    eapply nth_error_In, E.
  - destruct (Forall2_In_r _ _ _ _ HF H) as (ij & _ & _ & E).
    eapply nth_error_In, E.
Qed.

(** C3. In both objective modes of the class, when every candidate edge joins
    a listed driver and a listed rider, the matching an optimal solution
    selects uses each driver id at most once and each rider id at most once,
    and every selected pair is a candidate edge.  In the script, when the
    announcement ids are pairwise distinct, the extracted matches use each
    rider id and each driver id at most once and pair ids of the two frames. *)
Theorem returned_matching_is_valid :
  (forall (use_weights : bool) (driverdf riderdf processdf : DataFrame)
          (m : Model) (x : tupledict) (drivers riders : list Z)
          (pairs : list Key2) (s : Solution),
      build_model use_weights driverdf riderdf processdf = Ok (m, x) ->
      unique_ids driverdf = Ok drivers ->
      unique_ids riderdf = Ok riders ->
      candidate_pairs use_weights processdf = Ok pairs ->
      edges_within drivers riders pairs ->
      optimal m s ->
      NoDup (map fst (matching_of x s)) /\ NoDup (map snd (matching_of x s)) /\
      incl (matching_of x s) pairs) /\
  (forall (riders drivers : DataFrame) (m : Model) (s : Solution)
          (matches : list (Z * Z)) (rids dids : list Z),
      script_model riders drivers = Ok m ->
      optimal m s ->
      extract_matches riders drivers s = Ok matches ->
      int_col riders "Announcement" = Ok rids ->
      int_col drivers "Announcement" = Ok dids ->
      NoDup rids -> NoDup dids ->
      NoDup (map fst matches) /\ NoDup (map snd matches) /\
      forall p, In p matches -> In (fst p) rids /\ In (snd p) dids).
Proof.
  split.
  - intros uw ddf rdf pdf m x ds rs pairs s Hb Ed Er Ec Hin [Hs _].
    eapply class_matching_valid; eauto.
  - intros riders drivers m s matches rids dids Hm [Hs _].
    now apply (extract_matches_valid riders drivers m s).
Qed.

Lemma returned_matching_is_valid_witness :
  (let matching := matching_of (Keys2 (addVars four_edges)) [true; false; false; true] in
   NoDup (map fst matching) /\ NoDup (map snd matching) /\ incl matching four_edges) /\
  (let matches := [(7, 8)]%Z in
   NoDup (map fst matches) /\ NoDup (map snd matches) /\
   forall p, In p matches -> In (fst p) [7]%Z /\ In (snd p) [8]%Z).
Proof.
  split.
  - apply (proj1 returned_matching_is_valid false two_drivers two_riders
             four_id_pairs (unweighted_model [1; 2]%Z [101; 102]%Z four_edges)
             (Keys2 (addVars four_edges)) [1; 2]%Z [101; 102]%Z four_edges
             [true; false; false; true]).
    + reflexivity.
    + reflexivity.
    + reflexivity.
    + reflexivity.
    + intros k Hk. simpl in Hk.
      repeat (destruct Hk as [<-|Hk]; [simpl; auto 6|]). destruct Hk.
    + apply optimalb_iff. vm_compute. reflexivity.
  - apply (proj2 returned_matching_is_valid
             (iloc_rows twin_data 0 1) (iloc_rows twin_data 1 2)
             (mkModel 1 [(0, 0%nat)] MINIMIZE
                      [([(1, 0%nat)], 1); ([(1, 0%nat)], 1)])
             [true] [(7, 8)]%Z [7]%Z [8]%Z).
    + vm_compute. reflexivity.
    + apply optimalb_iff. vm_compute. reflexivity.
    + reflexivity.
    + reflexivity.
    + reflexivity.
    + repeat constructor. intros [].
    + repeat constructor. intros [].
Defined.

(** ** The weight strategies *)

Lemma py_div_zero (a b : Q) : b == 0 -> py_div a b = Raise ZeroDivisionError.
Proof.
  intros H. unfold py_div. now rewrite (proj2 (Qeq_bool_iff b 0) H).
Qed.

Lemma py_div_nonzero (a b : Q) : ~ b == 0 -> py_div a b = Ok (a / b).
Proof.
  intros H. unfold py_div. destruct (Qeq_bool b 0) eqn:E; [|reflexivity].
  apply Qeq_bool_iff in E. contradiction.
Qed.

Lemma py_min_Qmin (a b : Q) : py_min a b == Qmin a b.
Proof.
  unfold py_min. destruct (Qle_bool a b) eqn:E.
  - apply Qle_bool_iff in E. symmetry. now apply Q.min_l.
  - assert (b <= a) as H.
    { destruct (Qlt_le_dec b a) as [H|H]; [now apply Qlt_le_weak|].
      apply Qle_bool_iff in H. congruence. }
    symmetry. now apply Q.min_r.
Qed.

Lemma ratio_bounds (a b : Q) :
  0 < a -> 0 < b -> 0 < Qmin (a / b) (b / a) /\ Qmin (a / b) (b / a) <= 1.
Proof.
  intros Ha Hb.
  assert (0 < a / b) as H1 by (apply Qlt_shift_div_l; [assumption | lra]).
  assert (0 < b / a) as H2 by (apply Qlt_shift_div_l; [assumption | lra]).
  split; [apply Q.min_glb_lt; assumption|].
  destruct (Qlt_le_dec b a) as [H|H].
  - eapply Qle_trans; [apply Q.le_min_r|].
    apply Qle_shift_div_r; [assumption | lra].
  - eapply Qle_trans; [apply Q.le_min_l|].
    apply Qle_shift_div_r; [assumption | lra].
Qed.

(** C6. For a pair whose driver or rider trip length is zero, the
    distance_proximity weight raises ZeroDivisionError; for a pair with both
    trip lengths positive it is min(driver/rider, rider/driver), which lies
    in (0, 1]. *)
Theorem distance_proximity_weight (geodesic : Q * Q -> Q * Q -> Q)
  (row : PairRow) (dt rt : Q) :
  as_num (driver_trip_length row) = Ok dt ->
  as_num (rider_trip_length row) = Ok rt ->
  ((dt == 0 \/ rt == 0) ->
   weight_of_row geodesic distance_proximity row = Raise ZeroDivisionError) /\
  (0 < dt -> 0 < rt ->
   exists w, weight_of_row geodesic distance_proximity row = Ok w /\
             w == Qmin (dt / rt) (rt / dt) /\ 0 < w /\ w <= 1).
Proof.
  intros Ed Er. unfold weight_of_row. rewrite Ed, Er. simpl. split.
  - intros [H|H].
    + destruct (Qeq_bool rt 0) eqn:E.
      * apply Qeq_bool_iff in E. now rewrite (py_div_zero dt rt E).
      * rewrite py_div_nonzero by (intros E'; apply Qeq_bool_iff in E'; congruence).
        simpl. now rewrite (py_div_zero rt dt H).
    + now rewrite (py_div_zero dt rt H).
  - intros Hd Hr.
    rewrite (py_div_nonzero dt rt), (py_div_nonzero rt dt) by lra. simpl.
    eexists. split; [reflexivity|].
    pose proof (py_min_Qmin (dt / rt) (rt / dt)) as E.
    pose proof (ratio_bounds dt rt Hd Hr) as [H1 H2].
    split; [exact E|]. rewrite E. split; assumption.
Qed.

Lemma distance_proximity_weight_witness :
  weight_of_row manhattan distance_proximity (trip_row 10 0) = Raise ZeroDivisionError /\
  exists w, weight_of_row manhattan distance_proximity (trip_row 10 5) = Ok w /\
            w == Qmin (10 / 5) (5 / 10) /\ 0 < w /\ w <= 1.
Proof.
  split.
  - apply (proj1 (distance_proximity_weight manhattan (trip_row 10 0) 10 0
                    eq_refl eq_refl)).
    right. reflexivity.
  - apply (proj2 (distance_proximity_weight manhattan (trip_row 10 5) 10 5
                    eq_refl eq_refl)); reflexivity.
Defined.

Lemma lookup_col_set_same (name : string) (c : list cell) (cs : list (string * list cell)) :
  lookup_col name (set_col_in name c cs) = Some c.
Proof.
  induction cs as [|[n c0] cs IH]; simpl; [now rewrite String.eqb_refl|].
  destruct (String.eqb n name) eqn:E; simpl; rewrite E; [reflexivity | exact IH].
Qed.

Lemma lookup_col_set_other (name n' : string) (c : list cell)
  (cs : list (string * list cell)) :
  String.eqb n' name = false ->
  lookup_col name (set_col_in n' c cs) = lookup_col name cs.
Proof.
  intros Hne. induction cs as [|[n c0] cs IH]; simpl; [now rewrite Hne|].
  destruct (String.eqb n n') eqn:E; simpl.
  - apply String.eqb_eq in E. subst n. now rewrite Hne.
  - destruct (String.eqb n name); [reflexivity | exact IH].
Qed.

Lemma getcol_setcol_same (df : DataFrame) (name : string) (c : list cell) :
  getcol (setcol df name c) name = Ok c.
Proof. unfold getcol, setcol. simpl. now rewrite lookup_col_set_same. Qed.

Lemma getcol_setcol_other (df : DataFrame) (name n' : string) (c : list cell) :
  String.eqb n' name = false -> getcol (setcol df n' c) name = getcol df name.
Proof. intros H. unfold getcol, setcol. simpl. now rewrite lookup_col_set_other. Qed.

Lemma mapM_as_num_floats (ws : list Q) : mapM as_num (map CFloat ws) = Ok ws.
Proof. induction ws as [|w ws IH]; simpl; [reflexivity | now rewrite IH]. Qed.

Lemma num_col_row (df : DataFrame) (name : string) (qs : list Q) (w : list cell)
  (i : nat) :
  num_col df name = Ok qs -> (i < length qs)%nat ->
  String.eqb "weight" name = false ->
  exists c, row_get (setcol df "weight" w) i name = Ok c /\ as_num c = Ok (nth i qs 0).
Proof.
  unfold num_col, row_get. intros H Hi Hne.
  apply bind_Ok in H. destruct H as (c & Ec & H).
  rewrite getcol_setcol_other, Ec by assumption. simpl.
  apply mapM_Ok_inv in H. clear Ec. revert i Hi.
  induction H as [|a q c qs Haq _ IH]; intros i Hi; simpl in Hi; [lia|].
  destruct i as [|i]; [exists a; split; [reflexivity | exact Haq]|].
  apply IH. lia.
Qed.

Lemma valid_latitude_iff (lat : Q) :
  valid_latitude lat = true <-> -90 <= lat /\ lat <= 90.
Proof.
  unfold valid_latitude. rewrite andb_true_iff, !Qle_bool_iff. reflexivity.
Qed.

Lemma geodesic_km_Ok (geodesic : Q * Q -> Q * Q -> Q) (p q : cell * cell)
  (a b : Q * Q) :
  point p = Ok a -> point q = Ok b ->
  valid_latitude (fst a) = true -> valid_latitude (fst b) = true ->
  geodesic_km geodesic p q = Ok (geodesic a b).
Proof.
  intros Ep Eq Ha Hb. unfold geodesic_km, geopy_point.
  rewrite Ep. cbn [bind]. rewrite Ha. cbn [bind].
  rewrite Eq. cbn [bind]. rewrite Hb. reflexivity.
Qed.

Lemma point_Ok (c c' : cell) (a b : Q) :
  as_num c = Ok a -> as_num c' = Ok b -> point (c, c') = Ok (a, b).
Proof. intros Ea Eb. unfold point. cbn [fst snd]. now rewrite Ea, Eb. Qed.

Lemma key3_eqb_trans (a b c : Key3) :
  key3_eqb a b = true -> key3_eqb b c = true -> key3_eqb a c = true.
Proof.
  unfold key3_eqb. rewrite !andb_true_iff, !key2_eqb_eq, !Qeq_bool_iff.
  intros [-> E1] [-> E2]. split; [reflexivity|]. now rewrite E1.
Qed.

(** Every element of the list is represented in the set built from it. *)
Lemma py_set_covers {K} (eqb : K -> K -> bool) (l : list K) (t : K) :
  (forall a, eqb a a = true) ->
  (forall a b, eqb a b = eqb b a) ->
  (forall a b c, eqb a b = true -> eqb b c = true -> eqb a c = true) ->
  In t l -> exists k, In k (py_set eqb l) /\ eqb k t = true.
Proof.
  intros Hrefl Hsym Htrans. induction l as [|a l IH]; intros Ht; [destruct Ht|].
  simpl. destruct Ht as [->|Ht]; [exists t; split; [now left | apply Hrefl]|].
  destruct (IH Ht) as (k & Hk & Ek).
  destruct (eqb k a) eqn:E.
  - exists a. split; [now left|]. apply Htrans with k; [|exact Ek].
    now rewrite Hsym.
  - exists k. split; [|exact Ek]. right. apply filter_In. split; [exact Hk|].
    now rewrite E.
Qed.

(** C7. On a pair frame with the ten numeric columns and latitudes geopy
    accepts, calculate_weights with distance_savings succeeds and gives every
    row the weight (driver trip + rider trip) minus the three-leg route
    length, every leg measured by the one distance function of the run.  The
    model built on the frame it leaves maximises; its variables are keyed by
    the rows' (driver id, rider id, saving) triples, every row has one, the
    objective coefficient of a variable is the saving in its key, and the
    objective value of a solution is the total saving of the pairs it
    selects. *)
Theorem distance_savings_weight (geodesic : Q * Q -> Q * Q -> Q) (df : DataFrame)
  (dolat dolon ddlat ddlon rolat rolon rdlat rdlon dt rt : list Q) :
  num_col df "Origin_Latitude_x" = Ok dolat ->
  num_col df "Origin_Longitude_x" = Ok dolon ->
  num_col df "Destination_Latitude_x" = Ok ddlat ->
  num_col df "Destination_Longitude_x" = Ok ddlon ->
  num_col df "Origin_Latitude_y" = Ok rolat ->
  num_col df "Origin_Longitude_y" = Ok rolon ->
  num_col df "Destination_Latitude_y" = Ok rdlat ->
  num_col df "Destination_Longitude_y" = Ok rdlon ->
  num_col df "Distance_Car-Peak_x" = Ok dt ->
  num_col df "Distance_Car-Peak_y" = Ok rt ->
  Forall (fun l => length l = nrows df)
         [dolat; dolon; ddlat; ddlon; rolat; rolon; rdlat; rdlon; dt; rt] ->
  Forall (Forall (fun lat => -90 <= lat /\ lat <= 90)) [dolat; ddlat; rolat; rdlat] ->
  let savings :=
    map (savings_at geodesic dolat dolon ddlat ddlon rolat rolon rdlat rdlon dt rt)
        (seq 0 (nrows df)) in
  exists df',
    calculate_weights geodesic distance_savings df = Ok df' /\
    num_col df' "weight" = Ok savings /\
    forall driverdf riderdf m x,
      build_model true driverdf riderdf df' = Ok (m, x) ->
      sense m = MAXIMIZE /\
      exists ax ay xs,
        int_col df "Announcement_x" = Ok ax /\
        int_col df "Announcement_y" = Ok ay /\
        x = Keys3 xs /\
        objective m = map (fun kv => (weight_of (fst kv), snd kv)) xs /\
        (forall k, In k (map fst xs) -> In k (zip3 ax ay savings)) /\
        (forall t, In t (zip3 ax ay savings) ->
                   exists k, In k (map fst xs) /\ key3_eqb k t = true) /\
        (forall s, objective_value m s == total_weight (selected xs s)).
Proof.
  intros H1 H2 H3 H4 H5 H6 H7 H8 H9 H10 HL HV savings.
  repeat match goal with
         | H : Forall _ (_ :: _) |- _ =>
             let E := fresh "L" in inversion H as [|? ? E ?]; subst; clear H
         end.
  assert (Hvalid : forall (l : list Q) i,
             Forall (fun lat => -90 <= lat /\ lat <= 90) l -> (i < length l)%nat ->
             valid_latitude (nth i l 0) = true).
  { intros l i Hl Hi. apply valid_latitude_iff.
    rewrite Forall_forall in Hl. apply Hl. now apply nth_In. }
  unfold calculate_weights.
  set (df0 := setcol df "weight" (repeat (CInt 0) (nrows df))).
  rewrite (mapM_map _ (savings_at geodesic dolat dolon ddlat ddlon rolat rolon
                         rdlat rdlon dt rt)).
  - cbn [bind nrows df0 setcol]. fold df0. fold savings.
    eexists. split; [reflexivity|].
    assert (Ew : num_col (setcol df0 "weight" (map CFloat savings)) "weight"
                 = Ok savings).
    { unfold num_col. rewrite getcol_setcol_same. cbn [bind].
      apply mapM_as_num_floats. }
    split; [exact Ew|].
    intros ddf rdf m x Hb.
    destruct (build_model_weighted _ _ _ _ _ Hb)
      as (ds & rs & pm & _ & _ & Ep & _ & -> & ->).
    split; [reflexivity|].
    unfold possible_matches3 in Ep.
    apply bind_Ok in Ep. destruct Ep as (ax & Eax & Ep).
    apply bind_Ok in Ep. destruct Ep as (ay & Eay & Ep).
    apply bind_Ok in Ep. destruct Ep as (w & Ew' & Ep).
    rewrite Ew in Ew'. apply Ok_inj in Ew'. subst w.
    apply Ok_inj in Ep. subst pm.
    unfold int_col in Eax, Eay. unfold df0 in Eax, Eay.
    rewrite !getcol_setcol_other in Eax, Eay by reflexivity.
    exists ax, ay, (addVars (py_set key3_eqb (zip3 ax ay savings))).
    split; [exact Eax|]. split; [exact Eay|]. split; [reflexivity|].
    split; [reflexivity|]. rewrite map_fst_addVars.
    split; [intros k Hk; now apply (py_set_incl key3_eqb)|].
    split.
    + intros t Ht.
      exact (py_set_covers key3_eqb _ t key3_eqb_refl key3_eqb_sym key3_eqb_trans Ht).
    + intros s. rewrite weighted_objective, selected_addVars. reflexivity.
  - intros i Hi. apply in_seq in Hi. simpl in Hi. unfold df0, read_row.
    destruct (num_col_row df _ _ (repeat (CInt 0) (nrows df)) i H1) as (c1 & -> & A1);
      [lia | reflexivity |].
    destruct (num_col_row df _ _ (repeat (CInt 0) (nrows df)) i H2) as (c2 & -> & A2);
      [lia | reflexivity |].
    destruct (num_col_row df _ _ (repeat (CInt 0) (nrows df)) i H3) as (c3 & -> & A3);
      [lia | reflexivity |].
    destruct (num_col_row df _ _ (repeat (CInt 0) (nrows df)) i H4) as (c4 & -> & A4);
      [lia | reflexivity |].
    destruct (num_col_row df _ _ (repeat (CInt 0) (nrows df)) i H5) as (c5 & -> & A5);
      [lia | reflexivity |].
    destruct (num_col_row df _ _ (repeat (CInt 0) (nrows df)) i H6) as (c6 & -> & A6);
      [lia | reflexivity |].
    destruct (num_col_row df _ _ (repeat (CInt 0) (nrows df)) i H7) as (c7 & -> & A7);
      [lia | reflexivity |].
    destruct (num_col_row df _ _ (repeat (CInt 0) (nrows df)) i H8) as (c8 & -> & A8);
      [lia | reflexivity |].
    destruct (num_col_row df _ _ (repeat (CInt 0) (nrows df)) i H9) as (c9 & -> & A9);
      [lia | reflexivity |].
    destruct (num_col_row df _ _ (repeat (CInt 0) (nrows df)) i H10) as (c10 & -> & A10);
      [lia | reflexivity |].
    cbn [bind weight_of_row driver_trip_length rider_trip_length driver_origin
         driver_endpoint rider_origin rider_endpoint].
    rewrite A9, A10. cbn [bind]. unfold three_legs.
    rewrite (geodesic_km_Ok geodesic _ _ _ _ (point_Ok _ _ _ _ A1 A2)
               (point_Ok _ _ _ _ A5 A6))
      by (cbn [fst]; apply Hvalid; [assumption | lia]).
    cbn [bind].
    rewrite (geodesic_km_Ok geodesic _ _ _ _ (point_Ok _ _ _ _ A5 A6)
               (point_Ok _ _ _ _ A7 A8))
      by (cbn [fst]; apply Hvalid; [assumption | lia]).
    cbn [bind].
    rewrite (geodesic_km_Ok geodesic _ _ _ _ (point_Ok _ _ _ _ A7 A8)
               (point_Ok _ _ _ _ A3 A4))
      by (cbn [fst]; apply Hvalid; [assumption | lia]).
    reflexivity.
Qed.

Lemma distance_savings_weight_witness :
  let savings :=
    map (savings_at manhattan [0; 0; 4; 4] [0; 0; 0; 0] [10; 10; 14; 14]
           [0; 0; 0; 0] [1; 5; 1; 5] [0; 0; 0; 0] [6; 10; 6; 10] [0; 0; 0; 0]
           [10; 10; 10; 10] [5; 5; 5; 5])
        (seq 0 (nrows example_pairs)) in
  exists df',
    calculate_weights manhattan distance_savings example_pairs = Ok df' /\
    num_col df' "weight" = Ok savings /\
    forall driverdf riderdf m x,
      build_model true driverdf riderdf df' = Ok (m, x) ->
      sense m = MAXIMIZE /\
      exists ax ay xs,
        int_col example_pairs "Announcement_x" = Ok ax /\
        int_col example_pairs "Announcement_y" = Ok ay /\
        x = Keys3 xs /\
        objective m = map (fun kv => (weight_of (fst kv), snd kv)) xs /\
        (forall k, In k (map fst xs) -> In k (zip3 ax ay savings)) /\
        (forall t, In t (zip3 ax ay savings) ->
                   exists k, In k (map fst xs) /\ key3_eqb k t = true) /\
        (forall s, objective_value m s == total_weight (selected xs s)).
Proof.
  apply (distance_savings_weight manhattan example_pairs);
    try reflexivity.
  - repeat constructor.
  - repeat constructor; discriminate.
Defined.

(** ** Degenerate input *)

Lemma script_without_riders (optimize : Model -> option Solution) (data : DataFrame) :
  (nrows data <= 1)%nat -> script optimize data = Raise ZeroDivisionError.
Proof.
  destruct data as [n cs]. simpl. intros Hn.
  assert (n = 0 \/ n = 1)%nat as [->| ->] by lia; unfold script; simpl;
    destruct (optimize _); reflexivity.
Qed.

Lemma metrics_without_variables (geodesic : Q * Q -> Q * Q -> Q)
  (use_weights : bool) (driverdf riderdf processdf : DataFrame)
  (m : Model) (x : tupledict) (s : Solution) :
  build_model use_weights driverdf riderdf processdf = Ok (m, x) ->
  candidate_pairs use_weights processdf = Ok [] ->
  calculate_metrics geodesic x s driverdf riderdf = Raise IndexError.
Proof.
  intros Hb Hc. destruct use_weights.
  - destruct (build_model_weighted _ _ _ _ _ Hb)
      as (ds & rs & pm & Ed & Er & Ep & _ & -> & _).
    unfold candidate_pairs in Hc. rewrite Ep in Hc. simpl in Hc.
    apply Ok_inj in Hc. destruct pm; [|discriminate].
    unfold calculate_metrics. rewrite Ed, Er. reflexivity.
  - destruct (build_model_unweighted _ _ _ _ _ Hb)
      as (ds & rs & pm & Ed & Er & Ep & _ & _ & _ & -> & _).
    unfold candidate_pairs in Hc. rewrite Ep in Hc. apply Ok_inj in Hc. subst pm.
    unfold calculate_metrics. rewrite Ed, Er. reflexivity.
Qed.

(** C4 (the code at the degenerate input).  The script raises
    ZeroDivisionError whenever the file has at most one row, that is, no
    rider.  In the class, calculate_metrics raises IndexError whenever the
    model was built without a candidate edge; with no driver and no rider the
    model is built, the empty solution is optimal with objective 0 and no
    pair, and calculate_metrics raises. *)
Theorem degenerate_input_raises :
  (forall (optimize : Model -> option Solution) (data : DataFrame),
      (nrows data <= 1)%nat -> script optimize data = Raise ZeroDivisionError) /\
  (forall (geodesic : Q * Q -> Q * Q -> Q) (use_weights : bool)
          (driverdf riderdf processdf : DataFrame) (m : Model) (x : tupledict)
          (s : Solution),
      build_model use_weights driverdf riderdf processdf = Ok (m, x) ->
      candidate_pairs use_weights processdf = Ok [] ->
      calculate_metrics geodesic x s driverdf riderdf = Raise IndexError) /\
  (exists m x,
      build_model false no_participants no_participants no_pairs = Ok (m, x) /\
      optimal m [] /\ matching_of x [] = [] /\ objective_value m [] == 0 /\
      calculate_metrics manhattan x [] no_participants no_participants
      = Raise IndexError).
Proof.
  split; [exact script_without_riders|]. split; [exact metrics_without_variables|].
  eexists. eexists. split; [reflexivity|].
  split; [apply optimalb_iff; reflexivity|].
  repeat split; reflexivity.
Qed.

Lemma degenerate_input_raises_witness :
  script (fun _ => Some []) (participants [1]%Z [0] [10]) = Raise ZeroDivisionError /\
  calculate_metrics manhattan (Keys2 []) [] no_participants no_participants
  = Raise IndexError.
Proof.
  split.
  - apply (proj1 degenerate_input_raises). simpl. lia.
  - apply (proj1 (proj2 degenerate_input_raises) manhattan false
             no_participants no_participants no_pairs
             (unweighted_model [] [] []) (Keys2 []) []); reflexivity.
Defined.

(** ** Ties between optimal matchings *)





(** ** The reported metrics *)

Lemma geodesic_between_Ok (geodesic : Q * Q -> Q * Q -> Q) (p q : Q * Q) (v : Q) :
  geodesic_between geodesic p q = Ok v -> v = geodesic p q.
Proof.
  unfold geodesic_between, geopy_point.
  destruct (valid_latitude (fst p)); [|discriminate].
  destruct (valid_latitude (fst q)); [|discriminate].
  now intros [= <-].
Qed.

Lemma py_div_Ok (a b q : Q) : py_div a b = Ok q -> q = a / b /\ ~ b == 0.
Proof.
  unfold py_div. destruct (Qeq_bool b 0) eqn:E; [discriminate|].
  intros [= <-]. split; [reflexivity|]. intros H. apply Qeq_bool_iff in H. congruence.
Qed.

(** C8 (as stated, refuted).  The class returns the mean saving only: on the
    two-by-two instance with both pairs matched the per-pair savings are 5
    and 5, their sum is 10 and the only AKS value returned is 5.  The script
    reports 3 for a matched pair whose saving by the formula is 10. *)
Lemma aks_modes_counterexample :
  (exists mt,
      calculate_metrics manhattan (Keys2 (addVars four_edges))
        [true; false; false; true] two_drivers two_riders = Ok mt /\
      mapM (pair_saving manhattan two_drivers two_riders) [(1, 101); (2, 102)]%Z
      = Ok [5; 5] /\
      matches mt = 2%nat /\ match_rate mt == 1 /\ aks mt == 5 /\
      ~ aks mt == Qsum [5; 5]) /\
  (exists m rep,
      script_model (iloc_rows twin_data 0 1) (iloc_rows twin_data 1 2) = Ok m /\
      optimal m [true] /\
      script (fun _ => Some [true]) twin_data = Ok rep /\
      report_matches rep = [(7, 8)]%Z /\
      pair_saving manhattan (iloc_rows twin_data 1 2) (iloc_rows twin_data 0 1) (8, 7)%Z
      = Ok 10 /\
      distance_saved rep == 3 /\ ~ distance_saved rep == 10).
Proof.
  split.
  - eexists. split; [vm_compute; reflexivity|].
    repeat split; try (vm_compute; reflexivity).
    vm_compute. discriminate.
  - eexists. eexists. split; [vm_compute; reflexivity|].
    split; [apply optimalb_iff; vm_compute; reflexivity|].
    split; [vm_compute; reflexivity|].
    repeat split; try (vm_compute; reflexivity).
    vm_compute. discriminate.
Qed.

(** C8 (amended).  The class computes, for each matched pair, the driver's
    plus the rider's trip length minus the three-leg route length, and
    returns the average over the matched pairs (0 when there is none).  The
    script reports the number of matches times the riders' mean trip length
    times the estimated savings rate 0.3 (0 when there is no match). *)
Theorem aks_is_mean_of_pair_savings :
  (forall (geodesic : Q * Q -> Q * Q -> Q) (x : tupledict) (s : Solution)
          (driverdf riderdf : DataFrame) (mt : Metrics),
      calculate_metrics geodesic x s driverdf riderdf = Ok mt ->
      exists sel savings,
        matched_pairs x s = Ok sel /\
        mapM (pair_saving geodesic driverdf riderdf) sel = Ok savings /\
        length savings = length sel /\
        matches mt = length sel /\
        aks mt = (if Nat.ltb 0 (length sel)
                  then Qsum savings / QofN (length sel) else 0)) /\
  (forall (geodesic : Q * Q -> Q * Q -> Q) (driverdf riderdf : DataFrame)
          (dr : Key2) (v : Q),
      pair_saving geodesic driverdf riderdf dr = Ok v ->
      exists dt rt dolat dolon ddlat ddlon rolat rolon rdlat rdlon,
        first_float driverdf (fst dr) "Distance_Car-Peak" = Ok dt /\
        first_float riderdf (snd dr) "Distance_Car-Peak" = Ok rt /\
        first_float driverdf (fst dr) "Origin_Latitude" = Ok dolat /\
        first_float driverdf (fst dr) "Origin_Longitude" = Ok dolon /\
        first_float driverdf (fst dr) "Destination_Latitude" = Ok ddlat /\
        first_float driverdf (fst dr) "Destination_Longitude" = Ok ddlon /\
        first_float riderdf (snd dr) "Origin_Latitude" = Ok rolat /\
        first_float riderdf (snd dr) "Origin_Longitude" = Ok rolon /\
        first_float riderdf (snd dr) "Destination_Latitude" = Ok rdlat /\
        first_float riderdf (snd dr) "Destination_Longitude" = Ok rdlon /\
        v = (dt + rt)
            - (geodesic (dolat, dolon) (rolat, rolon)
               + geodesic (rolat, rolon) (rdlat, rdlon)
               + geodesic (rdlat, rdlon) (ddlat, ddlon))) /\
  (forall (optimize : Model -> option Solution) (data : DataFrame) (rep : Report),
      script optimize data = Ok rep ->
      exists dists,
        num_col (iloc_rows data 0 (nrows data / 2)) "Distance_Car-Peak" = Ok dists /\
        total_original_distance rep = Qsum dists /\
        distance_saved rep
        = (if Nat.ltb 0 (length (report_matches rep))
           then QofN (length (report_matches rep))
                * (Qsum dists / QofN (length dists)) * ESTIMATED_SAVINGS_RATE
           else 0)).
Proof.
  split; [|split].
  - intros geodesic x s ddf rdf mt H. unfold calculate_metrics in H.
    apply bind_Ok in H. destruct H as (ds & _ & H).
    apply bind_Ok in H. destruct H as (rs & _ & H).
    apply bind_Ok in H. destruct H as (k0 & _ & H).
    apply bind_Ok in H. destruct H as (sel & Esel & H).
    apply bind_Ok in H. destruct H as (rate & _ & H).
    apply bind_Ok in H. destruct H as (savings & Esav & H).
    apply Ok_inj in H. subst mt. simpl.
    pose proof (mapM_length _ _ _ Esav) as El.
    exists sel, savings. rewrite El. repeat split; assumption.
  - intros geodesic ddf rdf dr v H. unfold pair_saving in H.
    apply bind_Ok in H. destruct H as (dt & E1 & H).
    apply bind_Ok in H. destruct H as (rt & E2 & H).
    apply bind_Ok in H. destruct H as (dolat & E3 & H).
    apply bind_Ok in H. destruct H as (dolon & E4 & H).
    apply bind_Ok in H. destruct H as (ddlat & E5 & H).
    apply bind_Ok in H. destruct H as (ddlon & E6 & H).
    apply bind_Ok in H. destruct H as (rolat & E7 & H).
    apply bind_Ok in H. destruct H as (rolon & E8 & H).
    apply bind_Ok in H. destruct H as (rdlat & E9 & H).
    apply bind_Ok in H. destruct H as (rdlon & E10 & H).
    apply bind_Ok in H. destruct H as (a & Ea & H).
    apply bind_Ok in H. destruct H as (b & Eb & H).
    apply bind_Ok in H. destruct H as (c & Ec & H).
    apply geodesic_between_Ok in Ea, Eb, Ec. subst a b c.
    apply Ok_inj in H.
    exists dt, rt, dolat, dolon, ddlat, ddlon, rolat, rolon, rdlat, rdlon.
    repeat split; try assumption. now symmetry.
  - intros optimize data rep H. unfold script in H.
    apply bind_Ok in H. destruct H as (model & _ & H).
    apply bind_Ok in H. destruct H as (ms & Ems & H).
    apply bind_Ok in H. destruct H as (rate & _ & H).
    apply bind_Ok in H. destruct H as (dists & Ed & H).
    apply Ok_inj in H. subst rep. simpl.
    exists dists. split; [exact Ed|]. split; [reflexivity|].
    destruct (optimize model) as [s|].
    + reflexivity.
    + apply Ok_inj in Ems. subst ms. reflexivity.
Qed.

Lemma aks_is_mean_of_pair_savings_witness :
  (exists sel savings,
      matched_pairs (Keys2 (addVars four_edges)) [true; false; false; true] = Ok sel /\
      mapM (pair_saving manhattan two_drivers two_riders) sel = Ok savings /\
      length savings = length sel /\
      2%nat = length sel /\
      10 # 2 = (if Nat.ltb 0 (length sel)
                then Qsum savings / QofN (length sel) else 0)) /\
  (exists dists,
      num_col (iloc_rows twin_data 0 (nrows twin_data / 2)) "Distance_Car-Peak"
      = Ok dists /\
      10 = Qsum dists /\
      3.0 = (if Nat.ltb 0 (length [(7, 8)]%Z)
             then QofN (length [(7, 8)]%Z)
                  * (Qsum dists / QofN (length dists)) * ESTIMATED_SAVINGS_RATE
             else 0)).
Proof.
  split.
  - apply (proj1 aks_is_mean_of_pair_savings manhattan (Keys2 (addVars four_edges))
             [true; false; false; true] two_drivers two_riders
             (mkMetrics 2 (4 # 4) (10 # 2))).
    vm_compute. reflexivity.
  - apply (proj2 (proj2 aks_is_mean_of_pair_savings) (fun _ => Some [true]) twin_data
             (mkReport [(7, 8)]%Z (Some 0) 100 10 3.0)).
    vm_compute. reflexivity.
Defined.

(** C9 (as stated, refuted).  With two drivers, one rider and one match the
    class reports 2/3, not the rider-centric 1, and calculate_metrics has no
    argument that would select the other definition; the script reports the
    percentage 100 for one rider, one driver and one match, where either
    definition gives 1. *)
Lemma matching_rate_counterexample :
  (exists mt,
      calculate_metrics manhattan (Keys2 (addVars [(1, 101); (2, 101)]%Z))
        [true; false] two_drivers one_rider = Ok mt /\
      matches mt = 1%nat /\ match_rate mt == 2 # 3 /\
      ~ match_rate mt == QofN 1 / QofN 1) /\
  (exists m rep,
      script_model (iloc_rows twin_data 0 1) (iloc_rows twin_data 1 2) = Ok m /\
      optimal m [true] /\
      script (fun _ => Some [true]) twin_data = Ok rep /\
      length (report_matches rep) = 1%nat /\ matching_rate rep == 100 /\
      ~ matching_rate rep == 2 * QofN 1 / QofN (1 + 1) /\
      ~ matching_rate rep == QofN 1 / QofN 1).
Proof.
  split.
  - eexists. split; [vm_compute; reflexivity|].
    repeat split; try (vm_compute; reflexivity).
    vm_compute. discriminate.
  - eexists. eexists. split; [vm_compute; reflexivity|].
    split; [apply optimalb_iff; vm_compute; reflexivity|].
    split; [vm_compute; reflexivity|].
    repeat split; try (vm_compute; reflexivity); vm_compute; discriminate.
Qed.

Lemma QofN_double (n : nat) : QofN (n * 2) == 2 * QofN n.
Proof.
  unfold QofN. rewrite Nat2Z.inj_mul, inject_Z_mult. simpl. ring.
Qed.

(** C9 (amended).  The class always computes the matching rate as
    2*|M| / (D + R), D and R counting the distinct driver and rider ids; the
    script always computes (|M| / num_riders) * 100.  Neither takes a
    parameter that selects the definition. *)
Theorem matching_rate_is_fixed_per_variant :
  (forall (geodesic : Q * Q -> Q * Q -> Q) (x : tupledict) (s : Solution)
          (driverdf riderdf : DataFrame) (mt : Metrics),
      calculate_metrics geodesic x s driverdf riderdf = Ok mt ->
      exists drivers riders,
        unique_ids driverdf = Ok drivers /\
        unique_ids riderdf = Ok riders /\
        match_rate mt
        == 2 * QofN (matches mt) / QofN (length drivers + length riders)) /\
  (forall (optimize : Model -> option Solution) (data : DataFrame) (rep : Report),
      script optimize data = Ok rep ->
      matching_rate rep
      == QofN (length (report_matches rep)) / QofN (nrows data / 2) * 100).
Proof.
  split.
  - intros geodesic x s ddf rdf mt H. unfold calculate_metrics in H.
    apply bind_Ok in H. destruct H as (ds & Ed & H).
    apply bind_Ok in H. destruct H as (rs & Er & H).
    apply bind_Ok in H. destruct H as (k0 & _ & H).
    apply bind_Ok in H. destruct H as (sel & Esel & H).
    apply bind_Ok in H. destruct H as (rate & Erate & H).
    apply bind_Ok in H. destruct H as (savings & Esav & H).
    apply Ok_inj in H. subst mt. simpl.
    exists ds, rs. repeat split; try assumption.
    apply py_div_Ok in Erate. destruct Erate as [-> _].
    fold (QofN (length sel * 2)). fold (QofN (length ds + length rs)).
    now rewrite QofN_double.
  - intros optimize data rep H. unfold script in H.
    apply bind_Ok in H. destruct H as (model & _ & H).
    apply bind_Ok in H. destruct H as (ms & Ems & H).
    apply bind_Ok in H. destruct H as (rate & Erate & H).
    apply bind_Ok in H. destruct H as (dists & Ed & H).
    apply Ok_inj in H. subst rep. simpl.
    apply py_div_Ok in Erate. destruct Erate as [-> _].
    assert (nrows (iloc_rows data 0 (nrows data / 2)) = (nrows data / 2)%nat) as ->.
    { unfold iloc_rows. cbn [nrows]. rewrite Nat.sub_0_r. apply Nat.min_l.
      apply Nat.Div0.div_le_upper_bound. lia. }
    reflexivity.
Qed.

Lemma matching_rate_is_fixed_per_variant_witness :
  (exists drivers riders,
      unique_ids two_drivers = Ok drivers /\
      unique_ids one_rider = Ok riders /\
      2 # 3 == 2 * QofN 1 / QofN (length drivers + length riders)) /\
  100 == QofN (length [(7, 8)]%Z) / QofN (nrows twin_data / 2) * 100.
Proof.
  split.
  - apply (proj1 matching_rate_is_fixed_per_variant manhattan
             (Keys2 (addVars [(1, 101); (2, 101)]%Z)) [true; false]
             two_drivers one_rider (mkMetrics 1 (2 # 3) 5)).
    vm_compute. reflexivity.
  - apply (proj2 matching_rate_is_fixed_per_variant (fun _ => Some [true]) twin_data
             (mkReport [(7, 8)]%Z (Some 0) 100 10 3.0)).
    vm_compute. reflexivity.
Defined.

(** ** The pipeline of the class

    create_pairs drops the columns Announcement_x and Announcement_y that
    build_model reads: run_optimization raises on every input. *)

Lemma lookup_col_In (name : string) (cs : list (string * list cell)) (c : list cell) :
  lookup_col name cs = Some c -> In name (map fst cs).
Proof.
  induction cs as [|[n c0] cs IH]; simpl; [discriminate|].
  destruct (String.eqb n name) eqn:E; [|now right; apply IH].
  apply String.eqb_eq in E. now left.
Qed.

Lemma drop_columns_names (df df' : DataFrame) (names : list string) (n : string) :
  drop_columns df names = Ok df' -> In n names -> ~ In n (column_names df').
Proof.
  unfold drop_columns. destruct (find _ names); [discriminate|].
  intros [= <-] Hn Hin. unfold column_names in Hin. simpl in Hin.
  apply in_map_iff in Hin. destruct Hin as ([n' c] & E & Hin). simpl in E. subst n'.
  apply filter_In in Hin. destruct Hin as [_ Hin]. simpl in Hin.
  apply negb_true_iff in Hin.
  assert (mem_string n names = true) as Hm
    by (apply existsb_exists; exists n; split; [assumption | apply String.eqb_refl]).
  congruence.
Qed.

Lemma select_columns_names (df df' : DataFrame) (names : list string) :
  select_columns df names = Ok df' -> column_names df' = names.
Proof.
  unfold select_columns. intros H.
  apply bind_Ok in H. destruct H as (cs & Ecs & H). injection H as <-.
  unfold column_names. simpl. apply mapM_Ok_inv in Ecs.
  induction Ecs as [|n nc names cs Hn _ IH]; [reflexivity|]. simpl.
  apply bind_Ok in Hn. destruct Hn as (c & _ & Hn). injection Hn as <-.
  simpl. now rewrite IH.
Qed.

Lemma last_removelast_In {A} (l : list A) (d a : A) :
  In a (last l d :: removelast l) -> In a l \/ a = d.
Proof.
  induction l as [|x l IH]; [intros [<-|[]]; now right|].
  destruct l as [|y l]; [intros [<-|[]]; left; now left|].
  intros [E|[<-|H]].
  - destruct (IH (or_introl E)) as [H|H]; [left; now right | now right].
  - left; now left.
  - destruct (IH (or_intror H)) as [H'|H']; [left; now right | now right].
Qed.

Lemma create_pairs_drops_ids (str_of_float : Q -> string)
  (driverdf riderdf processdf : DataFrame) :
  create_pairs str_of_float driverdf riderdf = Ok processdf ->
  getcol processdf "Announcement_x" = Raise (KeyError "Announcement_x").
Proof.
  unfold create_pairs. intros H.
  apply bind_Ok in H. destruct H as (ax & _ & H).
  apply bind_Ok in H. destruct H as (ay & _ & H).
  apply bind_Ok in H. destruct H as (pairdf & Ed & H).
  unfold getcol. destruct (lookup_col "Announcement_x" (cols processdf)) eqn:E;
    [|reflexivity].
  apply lookup_col_In in E. fold (column_names processdf) in E.
  rewrite (select_columns_names _ _ _ H) in E.
  apply last_removelast_In in E. destruct E as [E|E]; [|discriminate].
  exfalso. apply (drop_columns_names _ _ _ "Announcement_x" Ed); [now left | exact E].
Qed.

Lemma build_model_needs_ids (use_weights : bool)
  (driverdf riderdf processdf : DataFrame) (mx : Model * tupledict) :
  getcol processdf "Announcement_x" = Raise (KeyError "Announcement_x") ->
  build_model use_weights driverdf riderdf processdf <> Ok mx.
Proof.
  intros E H. unfold build_model in H.
  apply bind_Ok in H. destruct H as (ds & _ & H).
  apply bind_Ok in H. destruct H as (rs & _ & H).
  destruct use_weights; apply bind_Ok in H; destruct H as (pm & Ep & _);
    [unfold possible_matches3 in Ep | unfold possible_matches2 in Ep];
    unfold int_col in Ep; rewrite E in Ep; discriminate.
Qed.

(** X1. run_optimization never returns metrics: whatever the participant
    frames, the weight method and the solver, the pipeline ends in an
    exception, because create_pairs removes the two id columns that
    build_model reads from the pair frame. *)
Theorem run_optimization_always_raises
  (geodesic : Q * Q -> Q * Q -> Q) (str_of_float : Q -> string)
  (optimize : Model -> Solution) (use_weights : bool) (weight_method : Method)
  (driverdf riderdf : DataFrame) :
  exists e, run_optimization geodesic str_of_float optimize use_weights weight_method
              driverdf riderdf = Raise e.
Proof.
  destruct (run_optimization geodesic str_of_float optimize use_weights weight_method
              driverdf riderdf) as [mt|e] eqn:H; [exfalso | eauto].
  unfold run_optimization in H.
  apply bind_Ok in H. destruct H as (pdf & Ecp & H).
  apply bind_Ok in H. destruct H as (pdf' & Ew & H).
  apply bind_Ok in H. destruct H as (mx & Eb & _).
  apply (build_model_needs_ids _ _ _ _ mx) in Eb; [exact Eb|].
  apply create_pairs_drops_ids in Ecp.
  destruct use_weights; [|now apply Ok_inj in Ew; subst pdf'].
  unfold calculate_weights in Ew.
  apply bind_Ok in Ew. destruct Ew as (ws & _ & Ew). apply Ok_inj in Ew. subst pdf'.
  rewrite !getcol_setcol_other by reflexivity. exact Ecp.
Qed.

Example run_optimization_two_by_two :
  run_optimization manhattan (fun _ => "0"%string) (fun _ => []) false distance_savings
    two_drivers two_riders
  = Raise (KeyError "Announcement_x").
Proof. reflexivity. Qed.

(** * Further properties of the code *)

(** ** calculate_weights *)

Lemma row_get_setcol_other (df : DataFrame) (n' name : string) (c : list cell)
  (i : nat) :
  String.eqb n' name = false ->
  row_get (setcol df n' c) i name = row_get df i name.
Proof. intros H. unfold row_get. now rewrite getcol_setcol_other. Qed.

Lemma read_row_setcol_weight (df : DataFrame) (c : list cell) (i : nat) :
  read_row (setcol df "weight" c) i = read_row df i.
Proof.
  unfold read_row. rewrite !row_get_setcol_other by reflexivity. reflexivity.
Qed.

(** X2. calculate_weights changes nothing but the weight column: the row
    count and every other column are kept, and the weight column it leaves
    holds one number per row. *)
Theorem calculate_weights_keeps_frame (geodesic : Q * Q -> Q * Q -> Q)
  (method : Method) (df df' : DataFrame) :
  calculate_weights geodesic method df = Ok df' ->
  nrows df' = nrows df /\
  (forall name, String.eqb "weight" name = false -> getcol df' name = getcol df name) /\
  exists ws, getcol df' "weight" = Ok (map CFloat ws) /\
             num_col df' "weight" = Ok ws /\ length ws = nrows df.
Proof.
  unfold calculate_weights. intros H.
  apply bind_Ok in H. destruct H as (ws & Ews & H). apply Ok_inj in H. subst df'.
  split; [reflexivity|]. split.
  - intros name Hn. now rewrite !getcol_setcol_other.
  - exists ws. split; [apply getcol_setcol_same|]. split.
    + unfold num_col. rewrite getcol_setcol_same. simpl. apply mapM_as_num_floats.
    + apply mapM_length in Ews. rewrite Ews. simpl. apply length_seq.
Qed.

Lemma calculate_weights_keeps_frame_witness :
  exists df',
    calculate_weights manhattan distance_proximity example_pairs = Ok df' /\
    nrows df' = nrows example_pairs /\
    (forall name, String.eqb "weight" name = false ->
                  getcol df' name = getcol example_pairs name) /\
    exists ws, getcol df' "weight" = Ok (map CFloat ws) /\
               num_col df' "weight" = Ok ws /\ length ws = nrows example_pairs.
Proof.
  eexists. split; [vm_compute; reflexivity|].
  apply (calculate_weights_keeps_frame manhattan distance_proximity example_pairs).
  vm_compute. reflexivity.
Defined.

(** X3. On a pair frame without rows the loop body never runs:
    calculate_weights succeeds for every method name, known or not, whatever
    columns the frame has, and leaves an empty weight column.  With an
    unknown method name and a first row that can be read, it raises
    NameError. *)
Theorem calculate_weights_edge_cases (geodesic : Q * Q -> Q * Q -> Q)
  (df : DataFrame) :
  (forall method, nrows df = 0%nat ->
     exists df', calculate_weights geodesic method df = Ok df' /\
                 getcol df' "weight" = Ok []) /\
  (forall name row, (0 < nrows df)%nat -> read_row df 0 = Ok row ->
     calculate_weights geodesic (other_method name) df = Raise NameError).
Proof.
  split.
  - intros method Hn. unfold calculate_weights. simpl nrows. rewrite Hn. simpl.
    eexists. split; [reflexivity | apply getcol_setcol_same].
  - intros name row Hn Hr. unfold calculate_weights. simpl nrows.
    destruct (nrows df) as [|n]; [lia|]. simpl.
    rewrite read_row_setcol_weight, Hr. reflexivity.
Qed.

Lemma calculate_weights_edge_cases_witness :
  (exists df', calculate_weights manhattan (other_method "fastest") no_pairs = Ok df' /\
               getcol df' "weight" = Ok []) /\
  calculate_weights manhattan (other_method "fastest") example_pairs = Raise NameError.
Proof.
  split.
  - apply (proj1 (calculate_weights_edge_cases manhattan no_pairs)). reflexivity.
  - apply (proj2 (calculate_weights_edge_cases manhattan example_pairs) "fastest"%string
             (mkPairRow (CFloat 0, CFloat 0) (CFloat 10, CFloat 0)
                        (CFloat 1, CFloat 0) (CFloat 6, CFloat 0) (CFloat 10) (CFloat 5))).
    + simpl. lia.
    + reflexivity.
Defined.

(** X4. The adjusted_proximity weight of a pair whose three-leg route can be
    measured: ZeroDivisionError when the route length or either trip length
    is zero; with all three positive it is
    (driver trip / route length) * min(driver/rider, rider/driver), which is
    positive and at most driver trip / route length. *)
Theorem adjusted_proximity_weight (geodesic : Q * Q -> Q * Q -> Q)
  (row : PairRow) (dt rt route : Q) :
  as_num (driver_trip_length row) = Ok dt ->
  as_num (rider_trip_length row) = Ok rt ->
  three_legs geodesic (driver_origin row) (rider_origin row)
             (rider_endpoint row) (driver_endpoint row) = Ok route ->
  ((route == 0 \/ dt == 0 \/ rt == 0) ->
   weight_of_row geodesic adjusted_proximity row = Raise ZeroDivisionError) /\
  (0 < route -> 0 < dt -> 0 < rt ->
   exists w, weight_of_row geodesic adjusted_proximity row = Ok w /\
             w == (dt / route) * Qmin (dt / rt) (rt / dt) /\
             0 < w /\ w <= dt / route).
Proof.
  intros Ed Er Eroute. unfold weight_of_row. rewrite Eroute, Ed, Er. simpl. split.
  - intros H.
    destruct (Qeq_bool route 0) eqn:E0.
    { apply Qeq_bool_iff in E0. now rewrite (py_div_zero dt route E0). }
    rewrite (py_div_nonzero dt route)
      by (intros E'; apply Qeq_bool_iff in E'; congruence). simpl.
    destruct (Qeq_bool rt 0) eqn:E1.
    { apply Qeq_bool_iff in E1. now rewrite (py_div_zero dt rt E1). }
    rewrite (py_div_nonzero dt rt)
      by (intros E'; apply Qeq_bool_iff in E'; congruence). simpl.
    destruct H as [H|[H|H]].
    + apply Qeq_bool_iff in H. congruence.
    + now rewrite (py_div_zero rt dt H).
    + apply Qeq_bool_iff in H. congruence.
  - intros H0 Hd Hr.
    rewrite (py_div_nonzero dt route), (py_div_nonzero dt rt),
      (py_div_nonzero rt dt) by lra. simpl.
    eexists. split; [reflexivity|].
    pose proof (py_min_Qmin (dt / rt) (rt / dt)) as E.
    pose proof (ratio_bounds dt rt Hd Hr) as [H1 H2].
    assert (0 < dt / route) as Hc by (apply Qlt_shift_div_l; [assumption | lra]).
    rewrite E. split; [reflexivity|]. split; [nra|nra].
Qed.

Lemma adjusted_proximity_weight_witness :
  weight_of_row (fun _ _ => 0) adjusted_proximity (trip_row 10 5)
  = Raise ZeroDivisionError /\
  exists w, weight_of_row (fun _ _ => 5) adjusted_proximity (trip_row 10 5) = Ok w /\
            w == (10 / 15) * Qmin (10 / 5) (5 / 10) /\ 0 < w /\ w <= 10 / 15.
Proof.
  split.
  - apply (proj1 (adjusted_proximity_weight (fun _ _ => 0) (trip_row 10 5) 10 5 0
                    eq_refl eq_refl eq_refl)).
    left. reflexivity.
  - apply (proj2 (adjusted_proximity_weight (fun _ _ => 5) (trip_row 10 5) 10 5 15
                    eq_refl eq_refl eq_refl)); reflexivity.
Defined.

(** ** create_pairs *)

Lemma lookup_col_of_In (name : string) (cs : list (string * list cell)) :
  In name (map fst cs) -> exists c, lookup_col name cs = Some c.
Proof.
  induction cs as [|[n c0] cs IH]; simpl; [intros []|]. intros H.
  destruct (String.eqb n name) eqn:E; [eauto|].
  destruct H as [H|H]; [|now apply IH].
  subst n. now rewrite String.eqb_refl in E.
Qed.

Lemma has_col_In (df : DataFrame) (name : string) :
  has_col df name = true <-> In name (column_names df).
Proof.
  unfold has_col, column_names. split.
  - destruct (lookup_col name (cols df)) eqn:E; [|discriminate].
    intros _. eapply lookup_col_In, E.
  - intros H. destruct (lookup_col_of_In _ _ H) as (c & ->). reflexivity.
Qed.

Lemma set_col_in_names (k name : string) (c : list cell)
  (cs : list (string * list cell)) :
  In name (map fst (set_col_in k c cs)) <-> name = k \/ In name (map fst cs).
Proof.
  induction cs as [|[n c0] cs IH]; simpl; [intuition|].
  destruct (String.eqb n k) eqn:E; simpl.
  - apply String.eqb_eq in E. subst n. intuition.
  - rewrite IH. intuition.
Qed.

Lemma not_key_names (name : string) (cs : list (string * list cell)) :
  In name (map fst (filter (fun nc => negb (String.eqb (fst nc) "key")) cs))
  <-> In name (map fst cs) /\ String.eqb name "key" = false.
Proof.
  rewrite !in_map_iff. split.
  - intros ([n c] & E & H). apply filter_In in H. destruct H as [H Hk].
    simpl in *. subst n. apply negb_true_iff in Hk. split; [exists (name, c)|]; auto.
  - intros [([n c] & E & H) Hk]. simpl in E. subst n. exists (name, c).
    split; [reflexivity|]. apply filter_In. split; [assumption|]. simpl. now rewrite Hk.
Qed.

Lemma merge_on_key_names (l r : DataFrame) (name : string) :
  In name (column_names l) -> In name (column_names r) ->
  String.eqb name "key" = false ->
  In (String.append name "_x") (column_names (merge_on_key l r)) /\
  In (String.append name "_y") (column_names (merge_on_key l r)).
Proof.
  intros Hl Hr Hk. unfold column_names, merge_on_key. simpl cols.
  set (lc := filter (fun nc => negb (String.eqb (fst nc) "key")) (cols l)).
  set (rc := filter (fun nc => negb (String.eqb (fst nc) "key")) (cols r)).
  assert (In name (map fst lc)) as Hlc by (apply not_key_names; auto).
  assert (In name (map fst rc)) as Hrc by (apply not_key_names; auto).
  assert (forall names, In name names -> mem_string name names = true) as Hm.
  { intros names H. apply existsb_exists. exists name.
    split; [assumption | apply String.eqb_refl]. }
  rewrite map_app, !map_map. simpl. split; apply in_or_app; [left | right];
    apply in_map_iff.
  - apply in_map_iff in Hlc. destruct Hlc as (nc & E & H). exists nc.
    split; [|assumption]. unfold suffixed. rewrite E, (Hm _ Hrc). reflexivity.
  - apply in_map_iff in Hrc. destruct Hrc as (nc & E & H). exists nc.
    split; [|assumption]. unfold suffixed. rewrite E, (Hm _ Hlc). reflexivity.
Qed.

Lemma with_key_names (df : DataFrame) (name : string) :
  In name (column_names df) -> In name (column_names (with_key df)).
Proof.
  intros H. unfold column_names, with_key, setcol. simpl.
  apply set_col_in_names. now right.
Qed.

Lemma select_columns_total (df : DataFrame) (names : list string) :
  (forall n, In n names -> In n (column_names df)) ->
  exists df', select_columns df names = Ok df' /\ nrows df' = nrows df.
Proof.
  intros H. unfold select_columns.
  assert (exists cs, mapM (fun n => c <- getcol df n ;; Ok (n, c)) names = Ok cs)
    as (cs & ->).
  { induction names as [|n names IH]; [now exists []|]. simpl.
    destruct (lookup_col_of_In n (cols df) (H n (or_introl eq_refl))) as (c & Ec).
    unfold getcol at 1. rewrite Ec. simpl.
    destruct IH as (cs & ->); [intros n' Hn'; apply H; now right|]. simpl. eauto. }
  simpl. eauto.
Qed.

Lemma In_last_removelast {A} (l : list A) (d a : A) :
  In a l -> In a (last l d :: removelast l).
Proof.
  intros H. destruct l as [|x l]; [destruct H|].
  assert (x :: l <> []) as Hne by discriminate.
  rewrite (app_removelast_last d Hne) in H at 1.
  apply in_app_or in H. destruct H as [H|[H|[]]]; [now right | now left].
Qed.

Lemma last_removelast_In_nonempty {A} (l : list A) (d a : A) :
  l <> [] -> In a (last l d :: removelast l) -> In a l.
Proof.
  intros Hne H. rewrite (app_removelast_last d Hne).
  apply in_or_app. destruct H as [<-|H]; [right; now left | now left].
Qed.

(** X5. When both participant frames carry an Announcement column,
    create_pairs succeeds; the pair frame has one row per (driver, rider)
    pair, it has the column Combined_Announcement, and it has neither
    Announcement_x nor Announcement_y. *)
Theorem create_pairs_shape (str_of_float : Q -> string) (driverdf riderdf : DataFrame) :
  has_col driverdf "Announcement" = true ->
  has_col riderdf "Announcement" = true ->
  exists processdf,
    create_pairs str_of_float driverdf riderdf = Ok processdf /\
    nrows processdf = (nrows driverdf * nrows riderdf)%nat /\
    has_col processdf "Combined_Announcement" = true /\
    has_col processdf "Announcement_x" = false /\
    has_col processdf "Announcement_y" = false.
Proof.
  intros Hd Hr. apply has_col_In in Hd. apply has_col_In in Hr.
  destruct (merge_on_key_names (with_key driverdf) (with_key riderdf) "Announcement"
              (with_key_names _ _ Hd) (with_key_names _ _ Hr) eq_refl) as [Hx Hy].
  simpl String.append in Hx, Hy.
  unfold create_pairs.
  set (pairdf := merge_on_key (with_key driverdf) (with_key riderdf)) in *.
  destruct (lookup_col_of_In _ _ Hx) as (ax & Eax).
  destruct (lookup_col_of_In _ _ Hy) as (ay & Eay).
  unfold getcol at 1. rewrite Eax. simpl. unfold getcol at 1. rewrite Eay. simpl.
  set (pairdf1 := setcol pairdf "Combined_Announcement" _).
  assert (forall n, In n (column_names pairdf) -> In n (column_names pairdf1)) as H1
    by (intros n Hn; apply set_col_in_names; now right).
  assert (In "Combined_Announcement"%string (column_names pairdf1)) as Hc
    by (apply set_col_in_names; now left).
  unfold drop_columns. simpl find.
  rewrite (proj2 (has_col_In pairdf1 "Announcement_x") (H1 _ Hx)).
  rewrite (proj2 (has_col_In pairdf1 "Announcement_y") (H1 _ Hy)). simpl.
  set (pairdf2 := mkFrame _ _).
  assert (forall n, In n (column_names pairdf2) <->
                    In n (column_names pairdf1) /\
                    mem_string n ["Announcement_x"; "Announcement_y"]%string = false) as H2.
  { intros n. unfold column_names, pairdf2. simpl cols. rewrite !in_map_iff. split.
    - intros ([n' c] & E & H). apply filter_In in H. destruct H as [H Hk].
      simpl in *. subst n'. apply negb_true_iff in Hk. split; [exists (n, c)|]; auto.
    - intros [([n' c] & E & H) Hk]. simpl in E. subst n'. exists (n, c).
      split; [reflexivity|]. apply filter_In. split; [assumption|].
      apply negb_true_iff. exact Hk. }
  assert (In "Combined_Announcement"%string (column_names pairdf2)) as Hc2
    by (apply H2; split; [assumption | reflexivity]).
  destruct (select_columns_total pairdf2
              (last (column_names pairdf2) ""%string :: removelast (column_names pairdf2)))
    as (p & Ep & Hn).
  { intros n Hn. apply (last_removelast_In_nonempty _ ""%string); [|exact Hn].
    intros E. rewrite E in Hc2. destruct Hc2. }
  exists p. split; [exact Ep|]. split; [rewrite Hn; reflexivity|].
  pose proof (select_columns_names _ _ _ Ep) as En.
  split; [apply has_col_In; rewrite En; now apply In_last_removelast|].
  assert (forall n, mem_string n ["Announcement_x"; "Announcement_y"]%string = true ->
                    n <> ""%string -> has_col p n = false) as Hno.
  { intros n Hm Hne. destruct (has_col p n) eqn:E; [|reflexivity].
    apply has_col_In in E. rewrite En in E. apply last_removelast_In in E.
    destruct E as [E|E]; [|contradiction]. apply H2 in E. destruct E as [_ E]. congruence. }
  split; apply Hno; (reflexivity || discriminate).
Qed.

Lemma create_pairs_shape_witness :
  exists processdf,
    create_pairs (fun _ => "0"%string) two_drivers two_riders = Ok processdf /\
    nrows processdf = (nrows two_drivers * nrows two_riders)%nat /\
    has_col processdf "Combined_Announcement" = true /\
    has_col processdf "Announcement_x" = false /\
    has_col processdf "Announcement_y" = false.
Proof.
  apply (create_pairs_shape (fun _ => "0"%string) two_drivers two_riders); reflexivity.
Defined.

(** ** build_model *)

Lemma constraints_hold_at_zero (n : nat) (cs : list (LinExpr * Q)) :
  Forall (fun c => exists vs, c = sum_row vs) cs ->
  Forall (fun c => eval (repeat false n) (fst c) <= snd c) cs.
Proof.
  intros H. eapply Forall_impl; [|exact H]. intros c (vs & ->).
  apply sum_row_holds. rewrite count_chosen_all_false. lia.
Qed.

Lemma class_constraints_shape (use_weights : bool)
  (driverdf riderdf processdf : DataFrame) (m : Model) (x : tupledict) :
  build_model use_weights driverdf riderdf processdf = Ok (m, x) ->
  Forall (fun c => exists vs, c = sum_row vs) (constrs m).
Proof.
  intros Hb. destruct use_weights.
  - destruct (build_model_weighted _ _ _ _ _ Hb)
      as (ds & rs & pm & _ & _ & _ & _ & _ & ->).
    unfold weighted_model, count_constraints. simpl constrs.
    apply Forall_app; split; apply Forall_map, Forall_forall; intros; eauto.
  - destruct (build_model_unweighted _ _ _ _ _ Hb)
      as (ds & rs & pm & _ & _ & _ & _ & _ & _ & _ & ->).
    unfold unweighted_model, pair_constraints. simpl constrs.
    apply Forall_app; split; apply Forall_map, Forall_forall; intros; eauto.
Qed.

Lemma matching_of_all_false (x : tupledict) (n : nat) :
  matching_of x (repeat false n) = [].
Proof. destruct x; simpl; now rewrite selected_all_false. Qed.

(** X6. Every model build_model returns, in either mode, is feasible at the
    assignment that selects no pair, where the objective is 0; so the model
    always has an optimal solution, and the optimal objective is never
    negative. *)
Theorem built_model_has_optimum (use_weights : bool)
  (driverdf riderdf processdf : DataFrame) (m : Model) (x : tupledict) :
  build_model use_weights driverdf riderdf processdf = Ok (m, x) ->
  feasible m (repeat false (numvars m)) /\
  matching_of x (repeat false (numvars m)) = [] /\
  objective_value m (repeat false (numvars m)) == 0 /\
  (exists s, optimal m s) /\
  forall s, optimal m s -> 0 <= objective_value m s.
Proof.
  intros Hb.
  assert (feasible m (repeat false (numvars m))) as Hz.
  { split; [apply repeat_length|].
    apply constraints_hold_at_zero. eapply class_constraints_shape, Hb. }
  assert (sense m = MAXIMIZE) as Hs.
  { destruct use_weights.
    - destruct (build_model_weighted _ _ _ _ _ Hb)
        as (ds & rs & pm & _ & _ & _ & _ & _ & ->). reflexivity.
    - destruct (build_model_unweighted _ _ _ _ _ Hb)
        as (ds & rs & pm & _ & _ & _ & _ & _ & _ & _ & ->). reflexivity. }
  split; [exact Hz|]. split; [apply matching_of_all_false|].
  split; [apply eval_all_false|]. split; [apply exists_optimal; eauto|].
  intros s [_ Hbest]. specialize (Hbest _ Hz). unfold at_least_as_good in Hbest.
  rewrite Hs in Hbest. unfold objective_value in Hbest at 1.
  now rewrite eval_all_false in Hbest.
Qed.

Lemma built_model_has_optimum_witness :
  let m := weighted_model [1; 2]%Z [101; 102]%Z four_weighted_edges in
  let x := Keys3 (addVars four_weighted_edges) in
  feasible m (repeat false (numvars m)) /\
  matching_of x (repeat false (numvars m)) = [] /\
  objective_value m (repeat false (numvars m)) == 0 /\
  (exists s, optimal m s) /\
  forall s, optimal m s -> 0 <= objective_value m s.
Proof.
  apply (built_model_has_optimum true two_drivers two_riders (four_pairs [3; 5; 4; -1])).
  reflexivity.
Defined.

(** X7. The size of the model: one binary variable and one objective term
    per distinct candidate pair, one constraint per distinct driver id plus
    one per distinct rider id, and the sense is maximisation.  Every
    constraint is a sum of variables with coefficient 1, bounded by 1 when
    it has a term; for a participant without a candidate pair the sum has no
    term and the row stored is 0 <= 0. *)
Theorem built_model_size (use_weights : bool)
  (driverdf riderdf processdf : DataFrame) (m : Model) (x : tupledict)
  (drivers riders : list Z) (pairs : list Key2) :
  build_model use_weights driverdf riderdf processdf = Ok (m, x) ->
  unique_ids driverdf = Ok drivers ->
  unique_ids riderdf = Ok riders ->
  candidate_pairs use_weights processdf = Ok pairs ->
  numvars m = length pairs /\
  length (objective m) = length pairs /\
  possible_pairs x = pairs /\
  length (constrs m) = (length drivers + length riders)%nat /\
  sense m = MAXIMIZE /\
  Forall (fun c => Forall (fun t => fst t = 1) (fst c) /\
                   snd c = match fst c with [] => 0 | _ => 1 end) (constrs m).
Proof.
  intros Hb Ed Er Ec.
  pose proof (class_constraints_shape _ _ _ _ _ _ Hb) as Hshape.
  assert (Forall (fun c => Forall (fun t => fst t = 1) (fst c) /\
                           snd c = match fst c with [] => 0 | _ => 1 end) (constrs m))
    as Hc.
  { eapply Forall_impl; [|exact Hshape]. intros c (vs & ->).
    destruct vs as [|v vs]; simpl; [split; [constructor | reflexivity]|].
    split; [|reflexivity]. constructor; [reflexivity|].
    apply Forall_map, Forall_forall. reflexivity. }
  destruct use_weights.
  - destruct (build_model_weighted _ _ _ _ _ Hb)
      as (ds & rs & pm & Ed' & Er' & Ep & _ & -> & ->).
    rewrite Ed in Ed'. rewrite Er in Er'. injection Ed' as <-. injection Er' as <-.
    unfold candidate_pairs in Ec. rewrite Ep in Ec. simpl in Ec. apply Ok_inj in Ec.
    subst pairs. unfold weighted_model, count_constraints in *. simpl in *.
    rewrite !length_map, length_app, !length_map, length_addVars.
    repeat split; try reflexivity; try assumption.
    rewrite <- (map_fst_addVars pm) at 2. now rewrite map_map.
  - destruct (build_model_unweighted _ _ _ _ _ Hb)
      as (ds & rs & pm & Ed' & Er' & Ep & _ & _ & _ & -> & ->).
    rewrite Ed in Ed'. rewrite Er in Er'. injection Ed' as <-. injection Er' as <-.
    unfold candidate_pairs in Ec. rewrite Ep in Ec. apply Ok_inj in Ec.
    subst pairs. unfold unweighted_model, pair_constraints in *. simpl in *.
    rewrite !length_map, length_app, !length_map, length_addVars.
    repeat split; try reflexivity; try assumption.
    apply map_fst_addVars.
Qed.

Lemma built_model_size_witness :
  exists m x,
    build_model false two_drivers two_riders first_driver_pairs = Ok (m, x) /\
    constrs m = [([(1, 0%nat); (1, 1%nat)], 1); ([], 0);
                 ([(1, 0%nat)], 1); ([(1, 1%nat)], 1)] /\
    numvars m = length [(1, 101); (1, 102)]%Z /\
    length (objective m) = length [(1, 101); (1, 102)]%Z /\
    possible_pairs x = [(1, 101); (1, 102)]%Z /\
    length (constrs m) = (length [1; 2]%Z + length [101; 102]%Z)%nat /\
    sense m = MAXIMIZE /\
    Forall (fun c => Forall (fun t => fst t = 1) (fst c) /\
                     snd c = match fst c with [] => 0 | _ => 1 end) (constrs m).
Proof.
  eexists. eexists. split; [reflexivity|]. split; [reflexivity|].
  apply (built_model_size false two_drivers two_riders first_driver_pairs);
    reflexivity.
Defined.

Lemma mask_select_filter {K} (f : K -> bool) (keys : list K) (s : Solution) :
  mask_select keys (map (fun kb => snd kb && f (fst kb)) (combine keys s))
  = filter f (mask_select keys s).
Proof.
  unfold mask_select. revert s.
  induction keys as [|k keys IH]; intros s; [reflexivity|].
  destruct s as [|b s]; [reflexivity|]. simpl.
  destruct b; simpl; [destruct (f k); simpl|]; now rewrite IH.
Qed.

Lemma weighted_feasible_counts (drivers riders : list Z) (pm : list Key3) (s : Solution) :
  feasible (weighted_model drivers riders pm) s
  <-> length s = length pm /\
      (forall d, In d drivers ->
         (length (filter (fun k => Z.eqb (driver_of k) d) (mask_select pm s)) <= 1)%nat) /\
      (forall r, In r riders ->
         (length (filter (fun k => Z.eqb (rider_of k) r) (mask_select pm s)) <= 1)%nat).
Proof.
  unfold feasible, weighted_model. simpl numvars. simpl constrs.
  rewrite length_addVars, Forall_app, !Forall_count_constraints, selected_addVars.
  tauto.
Qed.

Lemma filter_filter_length {K} (p f : K -> bool) (M : list K) :
  (length (filter p (filter f M)) <= length (filter p M))%nat.
Proof.
  induction M as [|k M IH]; [apply Nat.le_refl|]. simpl.
  destruct (f k), (p k) eqn:E; simpl; rewrite ?E; simpl; lia.
Qed.

Lemma drop_negative_gains (M : list Key3) :
  total_weight M <= total_weight (filter (fun k => Qle_bool 0 (weight_of k)) M) /\
  ((exists k, In k M /\ weight_of k < 0) ->
   total_weight M < total_weight (filter (fun k => Qle_bool 0 (weight_of k)) M)).
Proof.
  unfold total_weight. induction M as [|k M [IH1 IH2]]; simpl.
  - split; [apply Qle_refl | intros (k & [] & _)].
  - destruct (Qle_bool 0 (weight_of k)) eqn:E; simpl.
    + apply Qle_bool_iff in E. split; [lra|].
      intros (k' & [<-|Hk'] & Hneg); [lra|].
      assert (Qsum (map weight_of M)
              < Qsum (map weight_of (filter (fun k0 => Qle_bool 0 (weight_of k0)) M)))
        by (apply IH2; eauto). lra.
    + assert (weight_of k < 0) as Hk.
      { destruct (Qlt_le_dec (weight_of k) 0) as [H|H]; [assumption|].
        apply Qle_bool_iff in H. congruence. }
      split; [lra | intros _; lra].
Qed.

(** X8. With [use_weights=True] an optimal solution never selects an edge of
    negative weight: leaving such an edge out keeps every constraint and
    raises the objective. *)
Theorem optimal_selects_no_negative_edge
  (driverdf riderdf processdf : DataFrame) (m : Model)
  (entries : list (Key3 * Var)) (s : Solution) :
  build_model true driverdf riderdf processdf = Ok (m, Keys3 entries) ->
  optimal m s ->
  forall k, In k (selected entries s) -> 0 <= weight_of k.
Proof.
  intros Hb [Hs Hbest] k Hk.
  destruct (build_model_weighted _ _ _ _ _ Hb)
    as (ds & rs & pm & _ & _ & _ & _ & Ex & ->).
  injection Ex as ->. rewrite selected_addVars in Hk.
  destruct (Qlt_le_dec (weight_of k) 0) as [Hneg|]; [exfalso | assumption].
  set (f := fun k0 : Key3 => Qle_bool 0 (weight_of k0)).
  set (s' := map (fun kb => snd kb && f (fst kb)) (combine pm s)).
  assert (feasible (weighted_model ds rs pm) s') as Hs'.
  { apply weighted_feasible_counts in Hs. destruct Hs as (Hl & Hd & Hr).
    apply weighted_feasible_counts. unfold s'. rewrite mask_select_filter.
    split; [rewrite length_map, length_combine, Hl; apply Nat.min_id|].
    split; intros z Hz; (eapply Nat.le_trans; [apply filter_filter_length|]); auto. }
  specialize (Hbest s' Hs'). unfold at_least_as_good in Hbest. simpl in Hbest.
  rewrite !weighted_objective in Hbest. unfold s' in Hbest.
  rewrite mask_select_filter in Hbest.
  destruct (drop_negative_gains (mask_select pm s)) as [_ Hlt].
  assert (total_weight (mask_select pm s) < total_weight (filter f (mask_select pm s)))
    by (apply Hlt; eauto).
  lra.
Qed.

Lemma optimal_selects_no_negative_edge_witness :
  Forall (fun k => 0 <= weight_of k)
         (selected (addVars four_weighted_edges) [false; true; true; false]).
Proof.
  apply Forall_forall.
  apply (optimal_selects_no_negative_edge two_drivers two_riders
           (four_pairs [3; 5; 4; -1])
           (weighted_model [1; 2]%Z [101; 102]%Z four_weighted_edges)).
  - reflexivity.
  - apply optimalb_iff. vm_compute. reflexivity.
Defined.

(** X9. The columns build_model needs: without Announcement_x in the pair
    frame it raises KeyError in either mode, and with [use_weights=True] on a
    pair frame that has the id columns but no weight column (the weights were
    not calculated) it raises KeyError for weight. *)
Theorem build_model_missing_columns
  (driverdf riderdf processdf : DataFrame) (drivers riders : list Z) :
  unique_ids driverdf = Ok drivers ->
  unique_ids riderdf = Ok riders ->
  (forall use_weights, has_col processdf "Announcement_x" = false ->
     build_model use_weights driverdf riderdf processdf
     = Raise (KeyError "Announcement_x")) /\
  (forall ax ay,
     int_col processdf "Announcement_x" = Ok ax ->
     int_col processdf "Announcement_y" = Ok ay ->
     has_col processdf "weight" = false ->
     build_model true driverdf riderdf processdf = Raise (KeyError "weight")).
Proof.
  intros Ed Er. split.
  - intros uw H. unfold build_model. rewrite Ed, Er. simpl.
    assert (getcol processdf "Announcement_x" = Raise (KeyError "Announcement_x")) as E.
    { unfold getcol, has_col in *.
      destruct (lookup_col "Announcement_x" (cols processdf)); [discriminate | reflexivity]. }
    destruct uw; [unfold possible_matches3 | unfold possible_matches2];
      unfold int_col; rewrite E; reflexivity.
  - intros ax ay Eax Eay H. unfold build_model. rewrite Ed, Er. simpl.
    unfold possible_matches3. rewrite Eax, Eay. simpl.
    unfold num_col, getcol, has_col in *.
    destruct (lookup_col "weight" (cols processdf)); [discriminate | reflexivity].
Qed.

Lemma build_model_missing_columns_witness :
  build_model false two_drivers two_riders no_participants
  = Raise (KeyError "Announcement_x") /\
  build_model true two_drivers two_riders four_id_pairs = Raise (KeyError "weight").
Proof.
  split.
  - apply (proj1 (build_model_missing_columns two_drivers two_riders no_participants
                    [1; 2]%Z [101; 102]%Z eq_refl eq_refl)).
    reflexivity.
  - apply (proj2 (build_model_missing_columns two_drivers two_riders four_id_pairs
                    [1; 2]%Z [101; 102]%Z eq_refl eq_refl)
             [1; 1; 2; 2]%Z [101; 102; 101; 102]%Z); reflexivity.
Defined.

(** ** calculate_metrics *)

(** X10. In the unweighted mode, when the candidate edges join listed
    participants, the metrics computed from any feasible solution (so from
    any optimal one) report at most min(D, R) matches and a matching rate
    between 0 and 1. *)
Theorem class_match_rate_bounds (geodesic : Q * Q -> Q * Q -> Q)
  (driverdf riderdf processdf : DataFrame) (m : Model) (x : tupledict)
  (drivers riders : list Z) (pairs : list Key2) (s : Solution) (mt : Metrics) :
  build_model false driverdf riderdf processdf = Ok (m, x) ->
  unique_ids driverdf = Ok drivers ->
  unique_ids riderdf = Ok riders ->
  possible_matches2 processdf = Ok pairs ->
  edges_within drivers riders pairs ->
  feasible m s ->
  calculate_metrics geodesic x s driverdf riderdf = Ok mt ->
  (matches mt <= Nat.min (length drivers) (length riders))%nat /\
  0 <= match_rate mt /\ match_rate mt <= 1.
Proof.
  intros Hb Ed Er Ep Hin Hs Hm.
  destruct (class_matching_valid false _ _ _ _ _ _ _ _ s Hb Ed Er Ep Hin Hs)
    as (N1 & N2 & Hsub).
  destruct (build_model_unweighted _ _ _ _ _ Hb)
    as (ds & rs & pm & _ & _ & _ & _ & _ & Np & -> & _).
  unfold calculate_metrics in Hm. rewrite Ed, Er in Hm. simpl in Hm.
  apply bind_Ok in Hm. destruct Hm as (k0 & _ & Hm).
  rewrite (matched_pairs_selected pm s Np) in Hm. simpl bind in Hm.
  simpl matching_of in *. set (M := selected (addVars pm) s) in *.
  apply bind_Ok in Hm. destruct Hm as (rate & Erate & Hm).
  apply bind_Ok in Hm. destruct Hm as (savings & _ & Hm).
  apply Ok_inj in Hm. subst mt. cbn [matches match_rate]. clearbody M.
  assert (length M <= length drivers)%nat as Hd.
  { apply Nat.le_trans with (length (map fst M));
      [rewrite length_map; apply Nat.le_refl|].
    apply NoDup_incl_length; [exact N1|].
    intros d Hdm. apply in_map_iff in Hdm. destruct Hdm as (k & <- & Hk).
    apply Hin, Hsub, Hk. }
  assert (length M <= length riders)%nat as Hr.
  { apply Nat.le_trans with (length (map snd M));
      [rewrite length_map; apply Nat.le_refl|].
    apply NoDup_incl_length; [exact N2|].
    intros r Hrm. apply in_map_iff in Hrm. destruct Hrm as (k & <- & Hk).
    apply Hin, Hsub, Hk. }
  split; [apply Nat.min_glb; assumption|].
  apply py_div_Ok in Erate. destruct Erate as [-> Hne].
  fold (QofN (length M * 2)) in *. fold (QofN (length drivers + length riders)) in *.
  assert (0 < QofN (length drivers + length riders)) as Hpos.
  { assert (0 <= QofN (length drivers + length riders)) as H0
      by (change 0 with (QofN 0); apply QofN_le; lia).
    destruct (Qle_lt_or_eq _ _ H0) as [H|H]; [assumption|]. symmetry in H. contradiction. }
  split.
  - apply Qle_shift_div_l; [assumption|]. rewrite Qmult_0_l.
    change 0 with (QofN 0). apply QofN_le. lia.
  - apply Qle_shift_div_r; [assumption|]. rewrite Qmult_1_l. apply QofN_le. lia.
Qed.

Lemma class_match_rate_bounds_witness :
  (2 <= Nat.min (length [1; 2]%Z) (length [101; 102]%Z))%nat /\ 0 <= 4 # 4 /\ 4 # 4 <= 1.
Proof.
  apply (class_match_rate_bounds manhattan two_drivers two_riders four_id_pairs
           (unweighted_model [1; 2]%Z [101; 102]%Z four_edges)
           (Keys2 (addVars four_edges)) [1; 2]%Z [101; 102]%Z four_edges
           [true; false; false; true] (mkMetrics 2 (4 # 4) (10 # 2))).
  - reflexivity.
  - reflexivity.
  - reflexivity.
  - reflexivity.
  - intros k Hk. simpl in Hk.
    repeat (destruct Hk as [<-|Hk]; [simpl; auto 6|]). destruct Hk.
  - apply feasibleb_iff. vm_compute. reflexivity.
  - vm_compute. reflexivity.
Defined.

(** ** The script: matches, rate and savings *)

Lemma nrows_first_half (data : DataFrame) :
  nrows (iloc_rows data 0 (nrows data / 2)) = (nrows data / 2)%nat.
Proof.
  unfold iloc_rows. cbn [nrows]. rewrite Nat.sub_0_r. apply Nat.min_l.
  apply Nat.Div0.div_le_upper_bound. lia.
Qed.

Lemma script_matches_length (optimize : Model -> option Solution)
  (riders drivers : DataFrame) (m : Model) (ms : list (Z * Z)) :
  (forall m s, optimize m = Some s -> feasible m s) ->
  script_model riders drivers = Ok m ->
  match optimize m with
  | Some s => extract_matches riders drivers s
  | None => Ok []
  end = Ok ms ->
  (length ms <= nrows riders)%nat.
Proof.
  intros Hopt Hm Hms. destruct (optimize m) as [s|] eqn:Eo.
  - destruct (script_matching_one_to_one _ _ _ _ Hm (Hopt _ _ Eo)) as (N1 & _ & Hsub).
    unfold extract_matches in Hms. apply mapM_length in Hms. rewrite Hms.
    set (sel := selected (script_vars (nrows riders) (nrows drivers)) s) in *.
    apply Nat.le_trans with (length (map fst sel));
      [rewrite length_map; apply Nat.le_refl|].
    rewrite <- (length_seq (nrows riders) 0).
    apply NoDup_incl_length; [exact N1|].
    intros i Hi. apply in_map_iff in Hi. destruct Hi as ([i' j] & <- & Hk).
    apply Hsub, grid_In in Hk. apply in_seq. simpl. lia.
  - apply Ok_inj in Hms. subst ms. simpl. lia.
Qed.

(** X11. When the solver's answers are feasible, a report of the script
    counts at most num_riders matches, there is at least one rider, and the
    matching rate lies between 0 and 100. *)
Theorem script_match_rate_bounds (optimize : Model -> option Solution)
  (data : DataFrame) (rep : Report) :
  (forall m s, optimize m = Some s -> feasible m s) ->
  script optimize data = Ok rep ->
  (length (report_matches rep) <= nrows data / 2)%nat /\
  (0 < nrows data / 2)%nat /\
  0 <= matching_rate rep /\ matching_rate rep <= 100.
Proof.
  intros Hopt H. unfold script in H.
  apply bind_Ok in H. destruct H as (model & Em & H).
  apply bind_Ok in H. destruct H as (ms & Ems & H).
  apply bind_Ok in H. destruct H as (rate & Erate & H).
  apply bind_Ok in H. destruct H as (dists & _ & H).
  apply Ok_inj in H. subst rep. cbn [report_matches matching_rate].
  pose proof (script_matches_length optimize _ _ _ _ Hopt Em Ems) as Hlen.
  rewrite nrows_first_half in Hlen, Erate.
  apply py_div_Ok in Erate. destruct Erate as [-> Hne].
  fold (QofN (length ms)) in *. fold (QofN (nrows data / 2)) in *.
  assert (0 < nrows data / 2)%nat as Hpos.
  { destruct (nrows data / 2)%nat; [exfalso; apply Hne; reflexivity | lia]. }
  assert (0 < QofN (nrows data / 2)) as HposQ.
  { assert (~ QofN (nrows data / 2) <= QofN 0) as Hn by (rewrite QofN_le; lia).
    change (QofN 0) with 0 in Hn. lra. }
  assert (0 <= QofN (length ms) / QofN (nrows data / 2)) as H0.
  { apply Qle_shift_div_l; [assumption|]. rewrite Qmult_0_l.
    change 0 with (QofN 0). apply QofN_le. lia. }
  assert (QofN (length ms) / QofN (nrows data / 2) <= 1) as H1.
  { apply Qle_shift_div_r; [assumption|]. rewrite Qmult_1_l. now apply QofN_le. }
  repeat split; try assumption; lra.
Qed.

Lemma script_match_rate_bounds_witness :
  (length [(7, 8)]%Z <= nrows twin_data / 2)%nat /\
  (0 < nrows twin_data / 2)%nat /\
  0 <= 100 /\ 100 <= 100.
Proof.
  apply (script_match_rate_bounds
           (fun m => if feasibleb m [true] then Some [true] else None) twin_data
           (mkReport [(7, 8)]%Z (Some 0) 100 10 3.0)).
  - intros m s. destruct (feasibleb m [true]) eqn:E; [|discriminate].
    intros [= <-]. now apply feasibleb_iff.
  - vm_compute. reflexivity.
Defined.

Lemma eval_zero_terms (s : Solution) (e : LinExpr) :
  Forall (fun t => 0 <= fst t) e -> eval s e == 0 ->
  forall t, In t e -> chosen s (snd t) = true -> fst t == 0.
Proof.
  induction 1 as [|[c v] e Hc He IH]; intros H0 t Ht Hch; [destruct Ht|].
  rewrite eval_cons in H0. simpl in Hc.
  pose proof (eval_nonneg s e He) as Hge. pose proof (X_nonneg s v) as Hx.
  assert (0 <= c * X s v) as Hcx by nra.
  destruct Ht as [<-|Ht].
  - simpl in *. rewrite X_chosen, Hch in H0. lra.
  - apply IH; [lra | assumption | assumption].
Qed.

Lemma Forall2_In_l {A B} (R : A -> B -> Prop) (l : list A) (l' : list B) (a : A) :
  Forall2 R l l' -> In a l -> exists b, In b l' /\ R a b.
Proof.
  induction 1 as [|x y l l' Hxy _ IH]; intros Ha; [destruct Ha|].
  destruct Ha as [<-|Ha]; [exists y; split; [now left | assumption]|].
  destruct (IH Ha) as (b & Hb & Hab). exists b. split; [now right | assumption].
Qed.

Lemma Qabs_zero (q : Q) : Qabs q <= 0 -> q == 0.
Proof. intros H. apply Qabs_Qle_condition in H. lra. Qed.

Lemma zero_detour_same_coordinates (riders drivers : DataFrame) (i j : nat) (c : Q) :
  calculate_distance riders drivers i j = Ok c -> c == 0 ->
  forall name, In name coordinate_columns ->
    exists a b, num_at riders i name = Ok a /\ num_at drivers j name = Ok b /\ a == b.
Proof.
  unfold calculate_distance. intros H Hc.
  apply bind_Ok in H. destruct H as (a1 & E1 & H).
  apply bind_Ok in H. destruct H as (a2 & E2 & H).
  apply bind_Ok in H. destruct H as (a3 & E3 & H).
  apply bind_Ok in H. destruct H as (a4 & E4 & H).
  apply bind_Ok in H. destruct H as (b1 & F1 & H).
  apply bind_Ok in H. destruct H as (b2 & F2 & H).
  apply bind_Ok in H. destruct H as (b3 & F3 & H).
  apply bind_Ok in H. destruct H as (b4 & F4 & H).
  apply Ok_inj in H. rewrite <- H in Hc.
  pose proof (Qabs_nonneg (a1 - b1)). pose proof (Qabs_nonneg (a2 - b2)).
  pose proof (Qabs_nonneg (a3 - b3)). pose proof (Qabs_nonneg (a4 - b4)).
  assert (a1 - b1 == 0) by (apply Qabs_zero; lra).
  assert (a2 - b2 == 0) by (apply Qabs_zero; lra).
  assert (a3 - b3 == 0) by (apply Qabs_zero; lra).
  assert (a4 - b4 == 0) by (apply Qabs_zero; lra).
  intros name [<-|[<-|[<-|[<-|[]]]]]; eexists; eexists;
    (split; [eassumption|]); (split; [eassumption|]); lra.
Qed.

(** X12. The pairs the script extracts from an optimal solution all have
    detour 0: the rider and the driver of every match have the same origin
    and the same destination coordinates.  (Costs are nonnegative and
    nothing rewards a match, so a pair with a positive detour is never
    selected.) *)
Theorem script_matches_have_zero_detour (riders drivers : DataFrame)
  (m : Model) (s : Solution) :
  script_model riders drivers = Ok m ->
  optimal m s ->
  forall ij, In ij (selected (script_vars (nrows riders) (nrows drivers)) s) ->
    exists c, calculate_distance riders drivers (fst ij) (snd ij) = Ok c /\ c == 0 /\
      forall name, In name coordinate_columns ->
        exists a b, num_at riders (fst ij) name = Ok a /\
                    num_at drivers (snd ij) name = Ok b /\ a == b.
Proof.
  intros Hm [Hs Hbest] ij Hij.
  pose proof (script_objective_nonneg _ _ _ Hm) as Hobj.
  pose proof (script_all_false_feasible _ _ _ Hm) as Hzero.
  pose proof (script_model_inv _ _ _ Hm) as (_ & Hsense & _ & HF).
  assert (objective_value m s == 0) as H0.
  { specialize (Hbest _ Hzero). unfold at_least_as_good in Hbest.
    rewrite Hsense in Hbest. unfold objective_value in Hbest at 2.
    rewrite eval_all_false in Hbest.
    apply Qle_antisym; [assumption | now apply eval_nonneg]. }
  set (x := script_vars (nrows riders) (nrows drivers)) in *.
  unfold selected in Hij. apply in_map_iff in Hij. destruct Hij as ([ij' v] & E & Hkv).
  simpl in E. subst ij'. apply filter_In in Hkv. destruct Hkv as [Hkv Hch]. simpl in Hch.
  assert (var_of idx_eqb x ij = v) as Hv.
  { pose proof (own_hit_NoDup idx_eqb (grid (nrows riders) (nrows drivers))
                  idx_eqb_eq (grid_NoDup _ _) (ij, v) Hkv) as E.
    simpl in E. unfold var_of, x, script_vars. fold (grid (nrows riders) (nrows drivers)).
    now rewrite E. }
  assert (In ij (grid (nrows riders) (nrows drivers))) as Hg
    by (apply in_combine_l in Hkv; exact Hkv).
  destruct (Forall2_In_l _ _ _ _ HF Hg) as (t & Ht & Hvar & Hc).
  exists (fst t). split; [exact Hc|].
  assert (fst t == 0) as Hz.
  { apply (eval_zero_terms s (objective m) Hobj H0 t Ht). rewrite Hvar.
    fold x. now rewrite Hv. }
  split; [exact Hz|]. now apply (zero_detour_same_coordinates riders drivers _ _ (fst t)).
Qed.

Lemma script_matches_have_zero_detour_witness :
  Forall (fun ij =>
            exists c, calculate_distance (iloc_rows twin_data 0 1) (iloc_rows twin_data 1 2)
                        (fst ij) (snd ij) = Ok c /\ c == 0 /\
              forall name, In name coordinate_columns ->
                exists a b, num_at (iloc_rows twin_data 0 1) (fst ij) name = Ok a /\
                            num_at (iloc_rows twin_data 1 2) (snd ij) name = Ok b /\
                            a == b)
         (selected (script_vars 1 1) [true]).
Proof.
  apply Forall_forall.
  apply (script_matches_have_zero_detour (iloc_rows twin_data 0 1) (iloc_rows twin_data 1 2)
           (mkModel 1 [(0, 0%nat)] MINIMIZE [([(1, 0%nat)], 1); ([(1, 0%nat)], 1)])
           [true]).
  - vm_compute. reflexivity.
  - apply optimalb_iff. vm_compute. reflexivity.
Defined.

Lemma lookup_col_map (f : list cell -> list cell) (name : string)
  (cs : list (string * list cell)) :
  lookup_col name (map (fun nc => (fst nc, f (snd nc))) cs)
  = option_map f (lookup_col name cs).
Proof.
  induction cs as [|[n c] cs IH]; [reflexivity|]. simpl.
  destruct (String.eqb n name); [reflexivity | exact IH].
Qed.

Lemma mapM_firstn {A B} (f : A -> result B) (l : list A) (bs : list B) (k : nat) :
  mapM f l = Ok bs -> mapM f (firstn k l) = Ok (firstn k bs).
Proof.
  revert bs k. induction l as [|a l IH]; intros bs k H; simpl in H.
  - apply Ok_inj in H. subst bs. now destruct k.
  - apply bind_Ok in H. destruct H as (b & Eb & H).
    apply bind_Ok in H. destruct H as (bs' & Ebs & H). apply Ok_inj in H. subst bs.
    destruct k as [|k]; [reflexivity|]. simpl. rewrite Eb. simpl.
    now rewrite (IH bs' k Ebs).
Qed.

Lemma num_col_first_rows (data : DataFrame) (name : string) (all : list Q) (k : nat) :
  num_col data name = Ok all ->
  num_col (iloc_rows data 0 k) name = Ok (firstn k all).
Proof.
  unfold num_col, getcol, iloc_rows. cbn [cols]. intros H.
  rewrite (lookup_col_map (fun c => firstn (k - 0) (skipn 0 c))).
  destruct (lookup_col name (cols data)) as [c|]; [|discriminate]. simpl in *.
  rewrite Nat.sub_0_r. now apply mapM_firstn.
Qed.

Lemma Qsum_nonneg (l : list Q) : Forall (fun d => 0 <= d) l -> 0 <= Qsum l.
Proof. induction 1; simpl; lra. Qed.

(** X13. When the solver's answers are feasible and the trip lengths of the
    file are nonnegative, one per row, the Additional Kilometers Saved the
    script reports lies between 0 and 30 percent (the estimated savings
    rate) of the riders' total original distance. *)
Theorem script_savings_bounds (optimize : Model -> option Solution)
  (data : DataFrame) (rep : Report) (all : list Q) :
  (forall m s, optimize m = Some s -> feasible m s) ->
  num_col data "Distance_Car-Peak" = Ok all ->
  length all = nrows data ->
  Forall (fun d => 0 <= d) all ->
  script optimize data = Ok rep ->
  0 <= distance_saved rep /\
  distance_saved rep <= ESTIMATED_SAVINGS_RATE * total_original_distance rep.
Proof.
  intros Hopt Hall Hlen Hnn H. unfold script in H.
  apply bind_Ok in H. destruct H as (model & Em & H).
  apply bind_Ok in H. destruct H as (ms & Ems & H).
  apply bind_Ok in H. destruct H as (rate & Erate & H).
  apply bind_Ok in H. destruct H as (dists & Ed & H).
  apply Ok_inj in H. subst rep. cbn [distance_saved total_original_distance].
  pose proof (script_matches_length optimize _ _ _ _ Hopt Em Ems) as Hms.
  rewrite nrows_first_half in Hms, Erate.
  rewrite (num_col_first_rows data _ all _ Hall) in Ed. apply Ok_inj in Ed. subst dists.
  set (R := (nrows data / 2)%nat) in *.
  assert (length (firstn R all) = R) as HlenR.
  { rewrite length_firstn, Hlen. apply Nat.min_l. unfold R.
    apply Nat.Div0.div_le_upper_bound. lia. }
  assert (0 <= Qsum (firstn R all)) as HS.
  { apply Qsum_nonneg. rewrite Forall_forall in *. intros d Hd.
    apply Hnn. rewrite <- (firstn_skipn R all). apply in_or_app. now left. }
  apply py_div_Ok in Erate. destruct Erate as [_ Hne]. fold (QofN R) in Hne.
  assert (0 < QofN R) as HR.
  { assert (0 <= QofN R) as H0 by (change 0 with (QofN 0); apply QofN_le; lia).
    destruct (Qle_lt_or_eq _ _ H0) as [Hlt|Heq]; [assumption|].
    symmetry in Heq. contradiction. }
  assert (0 <= QofN (length ms)) as Hl0
    by (change 0 with (QofN 0); apply QofN_le; lia).
  assert (QofN (length ms) <= QofN R) as Hl1 by now apply QofN_le.
  unfold ESTIMATED_SAVINGS_RATE. rewrite HlenR.
  change (inject_Z (Z.of_nat (length ms))) with (QofN (length ms)).
  change (inject_Z (Z.of_nat R)) with (QofN R).
  set (S := Qsum (firstn R all)) in *. clearbody S. set (q := S / QofN R).
  assert (q * QofN R == S) as Hq by (unfold q; field; lra).
  assert (0 <= q) as Hq0
    by (unfold q; apply Qle_shift_div_l; [exact HR | rewrite Qmult_0_l; exact HS]).
  clearbody q.
  assert (0 <= QofN (length ms) * q /\ QofN (length ms) * q <= S) as [B0 B1]
    by (split; nra).
  destruct (optimize model); [destruct (Nat.ltb 0 (length ms))|]; split; lra.
Qed.

Lemma script_savings_bounds_witness :
  0 <= 3.0 /\ 3.0 <= ESTIMATED_SAVINGS_RATE * 10.
Proof.
  apply (script_savings_bounds
           (fun m => if feasibleb m [true] then Some [true] else None) twin_data
           (mkReport [(7, 8)]%Z (Some 0) 100 10 3.0) [10; 10]).
  - intros m s. destruct (feasibleb m [true]) eqn:E; [|discriminate].
    intros [= <-]. now apply feasibleb_iff.
  - reflexivity.
  - reflexivity.
  - repeat constructor; discriminate.
  - vm_compute. reflexivity.
Defined.

Lemma mapM_head_raise {A B} (f : A -> result B) (a : A) (l : list A) (e : exn) :
  f a = Raise e -> mapM f (a :: l) = Raise e.
Proof. intros H. simpl. now rewrite H. Qed.

Lemma grid_head (R D : nat) :
  (0 < R)%nat -> (0 < D)%nat -> exists rest, grid R D = (0%nat, 0%nat) :: rest.
Proof.
  intros HR HD. destruct R as [|R]; [lia|]. destruct D as [|D]; [lia|].
  unfold grid. simpl. eauto.
Qed.

(** X14. On a file with at least two rows (so at least one rider and one
    driver) that has no Origin_Latitude column, the script raises KeyError
    for that column while it builds the objective. *)
Theorem script_missing_coordinate_column (optimize : Model -> option Solution)
  (data : DataFrame) :
  (2 <= nrows data)%nat ->
  has_col data "Origin_Latitude" = false ->
  script optimize data = Raise (KeyError "Origin_Latitude").
Proof.
  intros Hn Hc. unfold script.
  set (riders := iloc_rows data 0 (nrows data / 2)).
  set (drivers := iloc_rows data (nrows data / 2) (nrows data)).
  assert (0 < nrows riders)%nat as HR.
  { unfold riders. rewrite nrows_first_half.
    apply Nat.div_str_pos. lia. }
  assert (0 < nrows drivers)%nat as HD.
  { unfold drivers, iloc_rows. cbn [nrows]. rewrite Nat.min_id.
    assert (nrows data / 2 < nrows data)%nat by (apply Nat.div_lt; lia). lia. }
  assert (script_model riders drivers = Raise (KeyError "Origin_Latitude")) as E.
  { unfold script_model. fold (grid (nrows riders) (nrows drivers)).
    destruct (grid_head _ _ HR HD) as (rest & ->).
    rewrite mapM_head_raise with (e := KeyError "Origin_Latitude"); [reflexivity|].
    cbn [fst snd]. rewrite (script_dict_get _ _ 0 0 HR HD). cbn [bind].
    unfold calculate_distance, num_at, getcol, riders, iloc_rows. cbn [cols].
    rewrite lookup_col_map. unfold has_col in Hc.
    destruct (lookup_col "Origin_Latitude" (cols data)); [discriminate | reflexivity]. }
  rewrite E. reflexivity.
Qed.

Lemma script_missing_coordinate_column_witness :
  script (fun _ => None) data_without_coordinates = Raise (KeyError "Origin_Latitude").
Proof.
  apply script_missing_coordinate_column; [simpl; lia | reflexivity].
Defined.

(** ** load_data *)

Lemma pick_In {A} (idx : list nat) (c : list A) (v : A) :
  In v (pick idx c) -> In v c.
Proof.
  unfold pick. intros H. apply in_flat_map in H. destruct H as (i & _ & H).
  destruct (nth_error c i) eqn:E; [|contradiction]. destruct H as [<-|[]].
  eapply nth_error_In; eauto.
Qed.

Lemma pick_cons {A} (i : nat) (idx : list nat) (c : list A) :
  pick (i :: idx) c
  = match nth_error c i with Some v => [v] | None => [] end ++ pick idx c.
Proof. reflexivity. Qed.

Lemma Forall2_nth_error_both {A B} (P : A -> B -> Prop) (l : list A) (l' : list B)
  (i : nat) :
  Forall2 P l l' ->
  match nth_error l i, nth_error l' i with
  | Some a, Some b => P a b
  | None, None => True
  | _, _ => False
  end.
Proof.
  intros H. revert i. induction H; intros [|i]; simpl; auto. apply IHForall2.
Qed.

Lemma mapM_pick {A B} (f : A -> result B) (idx : list nat) (c : list A) (bs : list B) :
  mapM f c = Ok bs -> mapM f (pick idx c) = Ok (pick idx bs).
Proof.
  intros H. pose proof (mapM_Ok_inv _ _ _ H) as F.
  induction idx as [|i idx IH]; [reflexivity|].
  rewrite !pick_cons, mapM_app, IH.
  pose proof (Forall2_nth_error_both _ _ _ i F) as Hi.
  destruct (nth_error c i) as [a|], (nth_error bs i) as [b|]; try contradiction.
  - simpl. rewrite Hi. reflexivity.
  - reflexivity.
Qed.

Lemma getcol_take_rows (df : DataFrame) (idx : list nat) (name : string) :
  getcol (take_rows df idx) name = (c <- getcol df name ;; Ok (pick idx c)).
Proof.
  unfold getcol, take_rows. cbn [cols].
  rewrite (lookup_col_map (pick idx)).
  destruct (lookup_col name (cols df)); reflexivity.
Qed.

Lemma num_col_take_rows (df : DataFrame) (idx : list nat) (name : string) (qs : list Q) :
  num_col df name = Ok qs -> num_col (take_rows df idx) name = Ok (pick idx qs).
Proof.
  unfold num_col. rewrite getcol_take_rows. intros H.
  destruct (getcol df name) as [c|]; [|discriminate]. simpl in *.
  now apply mapM_pick.
Qed.

Lemma column_names_take_rows (df : DataFrame) (idx : list nat) :
  column_names (take_rows df idx) = column_names df.
Proof. unfold column_names, take_rows. cbn [cols]. rewrite map_map. reflexivity. Qed.

Lemma column_names_iloc_rows (df : DataFrame) (a b : nat) :
  column_names (iloc_rows df a b) = column_names df.
Proof. unfold column_names, iloc_rows. cbn [cols]. rewrite map_map. reflexivity. Qed.

Lemma where_true_spec (mask : list bool) (start i : nat) :
  In i (where_true start mask) ->
  (start <= i)%nat /\ nth_error mask (i - start) = Some true.
Proof.
  revert start. induction mask as [|b mask IH]; intros start H; [contradiction|].
  simpl in H.
  assert (Hrec : In i (where_true (S start) mask) ->
                 (start <= i)%nat /\ nth_error (b :: mask) (i - start) = Some true).
  { intros Hi. destruct (IH _ Hi) as [Hle Hn]. split; [lia|].
    replace (i - start)%nat with (S (i - S start)) by lia. exact Hn. }
  destruct b; [destruct H as [<-|H]|]; auto.
  split; [lia|]. now rewrite Nat.sub_diag.
Qed.

(** The order [sort_values] produces. *)

Lemma insert_key_perm (k : Q * nat) (l : list (Q * nat)) :
  Permutation (k :: l) (insert_key k l).
Proof.
  induction l as [|h t IH]; simpl; [reflexivity|].
  destruct (Qle_bool (fst k) (fst h)); [reflexivity|].
  rewrite perm_swap. now constructor.
Qed.

Lemma sort_keys_perm (l : list (Q * nat)) : Permutation l (sort_keys l).
Proof.
  induction l as [|k t IH]; simpl; [reflexivity|].
  rewrite <- insert_key_perm. now constructor.
Qed.


Lemma insert_key_sorted (k : Q * nat) (l : list (Q * nat)) :
  Sorted key_le l -> Sorted key_le (insert_key k l).
Proof.
  induction l as [|h t IH]; intros Hs; simpl; [repeat constructor|].
  destruct (Qle_bool (fst k) (fst h)) eqn:E.
  - constructor; [exact Hs|]. constructor. now apply Qle_bool_iff.
  - inversion Hs as [|? ? Ht Hh]; subst.
    assert (Hhk : key_le h k).
    { unfold key_le. destruct (Qlt_le_dec (fst h) (fst k)) as [L|L].
      - now apply Qlt_le_weak.
      - apply Qle_bool_iff in L. congruence. }
    constructor; [now apply IH|].
    destruct t as [|h' t']; simpl; [now constructor|].
    destruct (Qle_bool (fst k) (fst h')); constructor; [exact Hhk|].
    now inversion Hh.
Qed.

Lemma sort_keys_sorted (l : list (Q * nat)) : Sorted key_le (sort_keys l).
Proof.
  induction l as [|k t IH]; simpl; [constructor|]. now apply insert_key_sorted.
Qed.

Lemma key_le_trans : Relations_1.Transitive key_le.
Proof. intros a b c H1 H2. unfold key_le in *. eapply Qle_trans; eauto. Qed.

Lemma combine_seq_nth {A} (l : list A) (s : nat) (k : A) (i : nat) :
  In (k, i) (combine l (seq s (length l))) ->
  (s <= i)%nat /\ nth_error l (i - s) = Some k.
Proof.
  revert s. induction l as [|a l IH]; intros s H; [contradiction|].
  simpl in H. destruct H as [H|H].
  - injection H as -> ->. split; [lia|]. now rewrite Nat.sub_diag.
  - destruct (IH _ H) as [Hle Hn]. split; [lia|].
    replace (i - s)%nat with (S (i - S s)) by lia. exact Hn.
Qed.

Lemma pick_map_snd {A} (c : list A) (l : list (A * nat)) :
  (forall k i, In (k, i) l -> nth_error c i = Some k) ->
  pick (map snd l) c = map fst l.
Proof.
  induction l as [|[k i] l IH]; intros H; [reflexivity|].
  cbn [map]. rewrite pick_cons. cbn [snd fst].
  rewrite (H k i (or_introl eq_refl)). simpl.
  f_equal. apply IH. intros; apply H; now right.
Qed.

Lemma pick_argsort (keys : list Q) :
  pick (argsort keys) keys = map fst (sort_keys (combine keys (seq 0 (length keys)))).
Proof.
  unfold argsort. apply pick_map_snd. intros k i H.
  apply (Permutation_in _ (Permutation_sym (sort_keys_perm _))) in H.
  apply combine_seq_nth in H. destruct H as [_ H]. now rewrite Nat.sub_0_r in H.
Qed.

Lemma map_fst_combine_seq {A} (l : list A) (s : nat) :
  map fst (combine l (seq s (length l))) = l.
Proof.
  revert s. induction l as [|a l IH]; intros s; simpl; [reflexivity|]. now rewrite IH.
Qed.

Lemma pick_argsort_perm (keys : list Q) : Permutation keys (pick (argsort keys) keys).
Proof.
  rewrite pick_argsort.
  rewrite <- (map_fst_combine_seq keys 0) at 1.
  apply Permutation_map, sort_keys_perm.
Qed.

Lemma pick_argsort_sorted (keys : list Q) :
  StronglySorted Qle (pick (argsort keys) keys).
Proof.
  rewrite pick_argsort.
  pose proof (Sorted_StronglySorted key_le_trans (sort_keys_sorted
                (combine keys (seq 0 (length keys))))) as H.
  induction H as [|a l Hl IH Ha]; simpl; constructor; [exact IH|].
  apply Forall_forall. intros q Hq. apply in_map_iff in Hq.
  destruct Hq as (b & <- & Hb).
  rewrite Forall_forall in Ha. exact (Ha b Hb).
Qed.

Lemma StronglySorted_split (l : list Q) (n : nat) :
  StronglySorted Qle l ->
  StronglySorted Qle (firstn n l) /\
  (forall a b, In a (firstn n l) -> In b (skipn n l) -> a <= b).
Proof.
  intros H. revert n. induction H as [|a l Hl IH Ha]; intros n.
  - rewrite firstn_nil, skipn_nil. split; [constructor | intros ? ? []].
  - destruct n as [|n]; simpl.
    + split; [constructor | intros ? ? []].
    + destruct (IH n) as [S1 S2]. split.
      * constructor; [exact S1|]. apply Forall_forall. intros x Hx.
        rewrite Forall_forall in Ha. apply Ha.
        rewrite <- (firstn_skipn n l). apply in_or_app. now left.
      * intros x y [<-|Hx] Hy.
        -- rewrite Forall_forall in Ha. apply Ha.
           rewrite <- (firstn_skipn n l). apply in_or_app. now right.
        -- now apply S2.
Qed.

Lemma num_col_getcol (df : DataFrame) (name : string) (qs : list Q) :
  num_col df name = Ok qs -> exists c, getcol df name = Ok c /\ mapM as_num c = Ok qs.
Proof.
  unfold num_col. intros H. destruct (getcol df name) as [c|]; [|discriminate]. eauto.
Qed.

Lemma cell_lt_as_num (z : Z) (v : cell) (q : Q) :
  as_num v = Ok q -> cell_lt z v = Ok (negb (Qle_bool (inject_Z z) q)).
Proof.
  destruct v as [a|q'|s]; simpl; intros H; [| |discriminate]; apply Ok_inj in H; subst q.
  - f_equal. unfold Qle_bool, inject_Z. simpl. rewrite !Z.mul_1_r. apply Z.ltb_antisym.
  - reflexivity.
Qed.

Lemma cell_gt_as_num (z : Z) (v : cell) (q : Q) :
  as_num v = Ok q -> cell_gt z v = Ok (negb (Qle_bool q (inject_Z z))).
Proof.
  destruct v as [a|q'|s]; simpl; intros H; [| |discriminate]; apply Ok_inj in H; subst q.
  - f_equal. unfold Qle_bool, inject_Z. simpl. rewrite !Z.mul_1_r. apply Z.ltb_antisym.
  - reflexivity.
Qed.

Lemma mapM_through {A B C} (f : A -> result B) (g : A -> result C) (h : B -> C)
  (l : list A) (bs : list B) :
  (forall a b, f a = Ok b -> g a = Ok (h b)) ->
  mapM f l = Ok bs -> mapM g l = Ok (map h bs).
Proof.
  intros Hfg. revert bs. induction l as [|a l IH]; intros bs H; simpl in H.
  - apply Ok_inj in H. now subst bs.
  - inv_bind H. inv_bind H. apply Ok_inj in H. subst bs. simpl.
    rewrite (Hfg _ _ E), (IH _ E0). reflexivity.
Qed.

(** The rows load_data keeps for one side: those of the mask, by
    announcement time, the first [n]. *)
Lemma load_data_frames (df : DataFrame) (num_drivers num_riders : nat)
  (ids times : list Q) :
  num_col df "Announcement" = Ok ids ->
  num_col df "Announcementtime" = Ok times ->
  load_data df num_drivers num_riders
  = Ok (head_rows (take_rows (mask_rows df (map is_driver_id ids))
                     (argsort (pick (where_true 0 (map is_driver_id ids)) times)))
                  num_drivers,
        head_rows (take_rows (mask_rows df (map is_rider_id ids))
                     (argsort (pick (where_true 0 (map is_rider_id ids)) times)))
                  num_riders).
Proof.
  intros Hi Ht. unfold load_data.
  destruct (num_col_getcol _ _ _ Hi) as (c & Ec & Hc). rewrite Ec. cbn [bind].
  rewrite (mapM_through as_num (cell_lt 100000) is_driver_id c ids
             (cell_lt_as_num 100000) Hc).
  rewrite (mapM_through as_num (cell_gt 100000) is_rider_id c ids
             (cell_gt_as_num 100000) Hc).
  cbn [bind]. unfold sort_values, mask_rows.
  rewrite (num_col_take_rows _ _ _ _ Ht). cbn [bind].
  rewrite (num_col_take_rows _ _ _ _ Ht). reflexivity.
Qed.

Lemma num_col_kept (df : DataFrame) (name : string) (qs : list Q)
  (mask : list bool) (keys : list Q) (n : nat) :
  num_col df name = Ok qs ->
  num_col (head_rows (take_rows (mask_rows df mask) (argsort keys)) n) name
  = Ok (firstn n (pick (argsort keys) (pick (where_true 0 mask) qs))).
Proof.
  intros H. unfold head_rows, mask_rows.
  apply num_col_first_rows. now do 2 apply num_col_take_rows.
Qed.

Lemma In_kept {A} (n : nat) (idx idx' : list nat) (l : list A) (a : A) :
  In a (firstn n (pick idx (pick idx' l))) -> In a (pick idx' l).
Proof.
  intros H. apply pick_In with (idx := idx).
  rewrite <- (firstn_skipn n (pick idx (pick idx' l))). apply in_or_app. now left.
Qed.

Lemma pick_mask_holds {A} (p : A -> bool) (l : list A) (a : A) :
  In a (pick (where_true 0 (map p l)) l) -> p a = true.
Proof.
  intros H. unfold pick in H. apply in_flat_map in H. destruct H as (i & Hi & H).
  apply where_true_spec in Hi. destruct Hi as [_ Hi]. rewrite Nat.sub_0_r in Hi.
  rewrite nth_error_map in Hi.
  destruct (nth_error l i) as [b|]; [|contradiction].
  destruct H as [<-|[]]. simpl in Hi. now injection Hi.
Qed.

Lemma pick_mask_times {A B} (p : A -> bool) (ids : list A) (times pre : list B) :
  length ids = length times ->
  pick (where_true (length pre) (map p ids)) (pre ++ times)
  = map snd (filter (fun x => p (fst x)) (combine ids times)).
Proof.
  revert times pre. induction ids as [|a ids IH]; intros [|t times] pre Hl;
    try discriminate; [reflexivity|].
  injection Hl as Hl.
  assert (Hrec : pick (where_true (S (length pre)) (map p ids)) (pre ++ t :: times)
                 = map snd (filter (fun x => p (fst x)) (combine ids times))).
  { rewrite <- (IH times (pre ++ [t]) Hl).
    rewrite length_app, Nat.add_1_r, <- app_assoc. reflexivity. }
  cbn [map where_true combine filter fst].
  destruct (p a); [|exact Hrec].
  rewrite pick_cons, nth_error_app2, Nat.sub_diag by apply Nat.le_refl.
  cbn [nth_error app map snd]. now rewrite Hrec.
Qed.

Lemma earliest_of_sorted_head (n : nat) (keys : list Q) :
  earliest_of n keys (firstn n (pick (argsort keys) keys)).
Proof.
  exists (skipn n (pick (argsort keys) keys)).
  destruct (StronglySorted_split _ n (pick_argsort_sorted keys)) as [S1 S2].
  repeat split; auto.
  - rewrite firstn_skipn. apply pick_argsort_perm.
  - rewrite length_firstn. f_equal. symmetry.
    apply Permutation_length, pick_argsort_perm.
Qed.

Lemma is_driver_id_lt (q : Q) : is_driver_id q = true -> q < inject_Z 100000.
Proof.
  unfold is_driver_id. intros H. apply negb_true_iff in H.
  apply Qnot_le_lt. intros L. apply Qle_bool_iff in L. congruence.
Qed.

Lemma is_rider_id_gt (q : Q) : is_rider_id q = true -> inject_Z 100000 < q.
Proof.
  unfold is_rider_id. intros H. apply negb_true_iff in H.
  apply Qnot_le_lt. intros L. apply Qle_bool_iff in L. congruence.
Qed.

Lemma nrows_head_rows (df : DataFrame) (n : nat) : (nrows (head_rows df n) <= n)%nat.
Proof. unfold head_rows, iloc_rows. cbn [nrows]. lia. Qed.

Lemma column_names_kept (df : DataFrame) (mask : list bool) (idx : list nat) (n : nat) :
  column_names (head_rows (take_rows (mask_rows df mask) idx) n) = column_names df.
Proof.
  unfold head_rows, mask_rows.
  now rewrite column_names_iloc_rows, !column_names_take_rows.
Qed.

Lemma mapM_raises {A B} (f : A -> result B) (l : list A) (a : A) (e : exn) :
  (forall a' e', f a' = Raise e' -> e' = e) ->
  In a l -> f a = Raise e -> mapM f l = Raise e.
Proof.
  intros Hall Hin Ha. induction l as [|b l IH]; [contradiction|]. simpl.
  destruct (f b) as [v|e'] eqn:Eb; simpl.
  - destruct Hin as [->|Hin]; [congruence|]. now rewrite (IH Hin).
  - now rewrite (Hall _ _ Eb).
Qed.

(** X15. On a file whose Announcement and Announcementtime columns hold
    numbers, load_data succeeds.  Every driver it keeps has an id of the file
    below 100000 and every rider one above 100000 (an announcement whose id
    is exactly 100000 is on neither side); it keeps at most num_drivers
    drivers and num_riders riders, and both frames have the columns of the
    file. *)
Theorem load_data_splits_by_id (df : DataFrame) (num_drivers num_riders : nat)
  (ids times : list Q) :
  num_col df "Announcement" = Ok ids ->
  num_col df "Announcementtime" = Ok times ->
  exists driverdf riderdf ds rs,
    load_data df num_drivers num_riders = Ok (driverdf, riderdf) /\
    num_col driverdf "Announcement" = Ok ds /\
    num_col riderdf "Announcement" = Ok rs /\
    Forall (fun d => In d ids /\ d < inject_Z 100000) ds /\
    Forall (fun r => In r ids /\ inject_Z 100000 < r) rs /\
    (length ds <= num_drivers)%nat /\ (length rs <= num_riders)%nat /\
    (nrows driverdf <= num_drivers)%nat /\ (nrows riderdf <= num_riders)%nat /\
    column_names driverdf = column_names df /\
    column_names riderdf = column_names df.
Proof.
  intros Hi Ht. do 4 eexists.
  split; [exact (load_data_frames df num_drivers num_riders ids times Hi Ht)|].
  split; [exact (num_col_kept _ _ _ _ _ _ Hi)|].
  split; [exact (num_col_kept _ _ _ _ _ _ Hi)|].
  repeat split.
  - apply Forall_forall. intros d Hd. apply In_kept in Hd. split.
    + eapply pick_In; eauto.
    + now apply is_driver_id_lt, (pick_mask_holds _ ids).
  - apply Forall_forall. intros r Hr. apply In_kept in Hr. split.
    + eapply pick_In; eauto.
    + now apply is_rider_id_gt, (pick_mask_holds _ ids).
  - rewrite length_firstn. lia.
  - rewrite length_firstn. lia.
  - apply nrows_head_rows.
  - apply nrows_head_rows.
  - apply column_names_kept.
  - apply column_names_kept.
Qed.

Lemma load_data_splits_by_id_witness :
  exists driverdf riderdf ds rs,
    load_data csv_file 2 5 = Ok (driverdf, riderdf) /\
    num_col driverdf "Announcement" = Ok ds /\
    num_col riderdf "Announcement" = Ok rs /\
    Forall (fun d => In d [200001; 5; 100000; 3; 200002; 4] /\ d < inject_Z 100000) ds /\
    Forall (fun r => In r [200001; 5; 100000; 3; 200002; 4] /\ inject_Z 100000 < r) rs /\
    (length ds <= 2)%nat /\ (length rs <= 5)%nat /\
    (nrows driverdf <= 2)%nat /\ (nrows riderdf <= 5)%nat /\
    column_names driverdf = column_names csv_file /\
    column_names riderdf = column_names csv_file.
Proof.
  apply (load_data_splits_by_id csv_file 2 5
           [200001; 5; 100000; 3; 200002; 4] [9; 7; 1; 8; 2; 6]); reflexivity.
Defined.

(** X16. On such a file with as many ids as times, the drivers load_data
    keeps are the num_drivers earliest announcements among the rows with an
    id below 100000 (all of them when there are fewer), in ascending order of
    announcement time: no driver left out announced before one that was
    kept.  The same holds for the riders, with num_riders and the ids above
    100000. *)
Theorem load_data_keeps_earliest (df : DataFrame) (num_drivers num_riders : nat)
  (ids times : list Q) :
  num_col df "Announcement" = Ok ids ->
  num_col df "Announcementtime" = Ok times ->
  length ids = length times ->
  exists driverdf riderdf kept_drivers kept_riders,
    load_data df num_drivers num_riders = Ok (driverdf, riderdf) /\
    num_col driverdf "Announcementtime" = Ok kept_drivers /\
    num_col riderdf "Announcementtime" = Ok kept_riders /\
    earliest_of num_drivers (times_where is_driver_id ids times) kept_drivers /\
    earliest_of num_riders (times_where is_rider_id ids times) kept_riders.
Proof.
  intros Hi Ht Hl. do 4 eexists.
  split; [exact (load_data_frames df num_drivers num_riders ids times Hi Ht)|].
  split; [exact (num_col_kept _ _ _ _ _ _ Ht)|].
  split; [exact (num_col_kept _ _ _ _ _ _ Ht)|].
  unfold times_where.
  rewrite <- (pick_mask_times is_driver_id ids times [] Hl).
  rewrite <- (pick_mask_times is_rider_id ids times [] Hl).
  cbn [length app]. split; apply earliest_of_sorted_head.
Qed.

Lemma load_data_keeps_earliest_witness :
  exists driverdf riderdf kept_drivers kept_riders,
    load_data csv_file 2 5 = Ok (driverdf, riderdf) /\
    num_col driverdf "Announcementtime" = Ok kept_drivers /\
    num_col riderdf "Announcementtime" = Ok kept_riders /\
    earliest_of 2 [7; 8; 6] kept_drivers /\
    earliest_of 5 [9; 2] kept_riders.
Proof.
  apply (load_data_keeps_earliest csv_file 2 5
           [200001; 5; 100000; 3; 200002; 4] [9; 7; 1; 8; 2; 6]); reflexivity.
Defined.

(** X17. What load_data raises on a file it cannot split: KeyError for
    Announcement when that column is missing, TypeError as soon as one id is
    a string (it cannot be compared with 100000), and KeyError for
    Announcementtime when the ids are numbers and that column is missing. *)
Theorem load_data_bad_columns (df : DataFrame) (num_drivers num_riders : nat) :
  (has_col df "Announcement" = false ->
   load_data df num_drivers num_riders = Raise (KeyError "Announcement")) /\
  (forall c s, getcol df "Announcement" = Ok c -> In (CStr s) c ->
   load_data df num_drivers num_riders = Raise TypeError) /\
  (forall ids, num_col df "Announcement" = Ok ids ->
   has_col df "Announcementtime" = false ->
   load_data df num_drivers num_riders = Raise (KeyError "Announcementtime")).
Proof.
  split; [|split].
  - intros H. unfold load_data, getcol, has_col in *.
    destruct (lookup_col "Announcement" (cols df)); [discriminate | reflexivity].
  - intros c s Ec Hin. unfold load_data. rewrite Ec. cbn [bind].
    rewrite (mapM_raises (cell_lt 100000) c (CStr s) TypeError); auto.
    intros [a|q|s'] e'; simpl; congruence.
  - intros ids Hi H. unfold load_data.
    destruct (num_col_getcol _ _ _ Hi) as (c & Ec & Hc). rewrite Ec. cbn [bind].
    rewrite (mapM_through as_num (cell_lt 100000) is_driver_id c ids
               (cell_lt_as_num 100000) Hc).
    rewrite (mapM_through as_num (cell_gt 100000) is_rider_id c ids
               (cell_gt_as_num 100000) Hc).
    cbn [bind]. unfold sort_values, mask_rows, num_col.
    rewrite getcol_take_rows.
    unfold getcol, has_col in *.
    destruct (lookup_col "Announcementtime" (cols df)); [discriminate | reflexivity].
Qed.

Lemma load_data_bad_columns_witness :
  load_data file_without_ids 2 5 = Raise (KeyError "Announcement") /\
  load_data file_with_named_ids 2 5 = Raise TypeError /\
  load_data two_drivers 2 5 = Raise (KeyError "Announcementtime").
Proof.
  split; [|split].
  - apply (proj1 (load_data_bad_columns file_without_ids 2 5)). reflexivity.
  - apply (proj1 (proj2 (load_data_bad_columns file_with_named_ids 2 5))
             [CInt 7; CStr "rider-8"] "rider-8"%string); [reflexivity | simpl; auto].
  - apply (proj2 (proj2 (load_data_bad_columns two_drivers 2 5)) [1; 2]); reflexivity.
Defined.

(** ** preprocess_data *)

Lemma paper_name_l (n : string) :
  String.eqb (paper_name n) "l" = String.eqb n "Latesttime" || String.eqb n "l".
Proof.
  unfold paper_name.
  destruct (String.eqb n "Announcementtime") eqn:E1.
  { apply String.eqb_eq in E1. subst n. reflexivity. }
  destruct (String.eqb n "Earliesttime") eqn:E2.
  { apply String.eqb_eq in E2. subst n. reflexivity. }
  destruct (String.eqb n "Latesttime") eqn:E3; reflexivity.
Qed.

Lemma paper_name_kept (name n : string) :
  paper_name name = name ->
  name <> "t"%string -> name <> "e"%string -> name <> "l"%string ->
  String.eqb (paper_name n) name = String.eqb n name.
Proof.
  intros Hfix Ht He Hl. unfold paper_name.
  destruct (String.eqb n "Announcementtime") eqn:E1.
  { apply String.eqb_eq in E1. subst n.
    destruct (String.eqb "Announcementtime" name) eqn:E.
    - apply String.eqb_eq in E. subst name. discriminate.
    - apply String.eqb_neq. congruence. }
  destruct (String.eqb n "Earliesttime") eqn:E2.
  { apply String.eqb_eq in E2. subst n.
    destruct (String.eqb "Earliesttime" name) eqn:E.
    - apply String.eqb_eq in E. subst name. discriminate.
    - apply String.eqb_neq. congruence. }
  destruct (String.eqb n "Latesttime") eqn:E3; [|reflexivity].
  apply String.eqb_eq in E3. subst n.
  destruct (String.eqb "Latesttime" name) eqn:E.
  - apply String.eqb_eq in E. subst name. discriminate.
  - apply String.eqb_neq. congruence.
Qed.

Lemma lookup_renamed_l (cs : list (string * list cell)) :
  lookup_col "l" cs = None ->
  lookup_col "l" (map (fun nc => (paper_name (fst nc), snd nc)) cs)
  = lookup_col "Latesttime" cs.
Proof.
  induction cs as [|[n c] cs IH]; intros H; [reflexivity|].
  simpl in *. rewrite paper_name_l.
  destruct (String.eqb n "l"); [discriminate|]. rewrite orb_false_r.
  destruct (String.eqb n "Latesttime"); [reflexivity | now apply IH].
Qed.

Lemma lookup_renamed_kept (name : string) (cs : list (string * list cell)) :
  paper_name name = name ->
  name <> "t"%string -> name <> "e"%string -> name <> "l"%string ->
  lookup_col name (map (fun nc => (paper_name (fst nc), snd nc)) cs)
  = lookup_col name cs.
Proof.
  intros Hfix Ht He Hl. induction cs as [|[n c] cs IH]; [reflexivity|].
  simpl. rewrite (paper_name_kept name n Hfix Ht He Hl).
  destruct (String.eqb n name); [reflexivity | exact IH].
Qed.

Lemma lookup_renamed_gone (cs : list (string * list cell)) :
  lookup_col "Latesttime" (map (fun nc => (paper_name (fst nc), snd nc)) cs) = None.
Proof.
  induction cs as [|[n c] cs IH]; [reflexivity|]. simpl.
  replace (String.eqb (paper_name n) "Latesttime") with false; [exact IH|].
  symmetry. unfold paper_name.
  destruct (String.eqb n "Announcementtime"); [reflexivity|].
  destruct (String.eqb n "Earliesttime"); [reflexivity|].
  destruct (String.eqb n "Latesttime") eqn:E; [reflexivity | exact E].
Qed.

Lemma zipM_cell_sub (l t : list cell) (ls ts : list Q) :
  mapM as_num l = Ok ls -> mapM as_num t = Ok ts ->
  exists q qs, zipM cell_sub l t = Ok q /\ mapM as_num q = Ok qs /\
               Forall2 Qeq qs (differences ls ts).
Proof.
  revert t ls ts. induction l as [|a l IH]; intros t ls ts Hl Ht.
  - simpl in Hl. apply Ok_inj in Hl. subst ls. exists [], []. repeat split; constructor.
  - simpl in Hl. inv_bind Hl. inv_bind Hl. apply Ok_inj in Hl. subst ls.
    destruct t as [|b t].
    + simpl in Ht. apply Ok_inj in Ht. subst ts. exists [], []. repeat split; constructor.
    + simpl in Ht. inv_bind Ht. inv_bind Ht. apply Ok_inj in Ht. subst ts.
      destruct (IH t _ _ E0 E2) as (q & qs & Eq & Eqs & F).
      assert (exists c x, cell_sub a b = Ok c /\ as_num c = Ok x /\ x == a0 - a2)
        as (c & x & Ec & Ex & Hx).
      { destruct a as [x|x|x], b as [y|y|y]; simpl in E, E1; try discriminate;
          apply Ok_inj in E; apply Ok_inj in E1; subst a0 a2;
          eexists; eexists; (split; [reflexivity|]); (split; [reflexivity|]);
          try reflexivity.
        unfold Qminus, Z.sub. rewrite inject_Z_plus, inject_Z_opp. reflexivity. }
      exists (c :: q), (x :: qs). simpl. rewrite Ec, Eq. simpl. rewrite Ex, Eqs. simpl.
      repeat split. constructor; assumption.
Qed.

Lemma has_col_getcol_raise (df : DataFrame) (name : string) :
  has_col df name = false -> getcol df name = Raise (KeyError name).
Proof.
  unfold has_col, getcol. destruct (lookup_col name (cols df)); [discriminate | reflexivity].
Qed.

Lemma preprocess_frame_ok (df : DataFrame) (ls ts : list Q) :
  num_col df "Latesttime" = Ok ls ->
  num_col df "Time_Car-Peak" = Ok ts ->
  has_col df "l" = false ->
  exists df' qs,
    preprocess_frame df = Ok df' /\
    num_col df' "q" = Ok qs /\
    Forall2 Qeq qs (differences ls ts) /\
    num_col df' "l" = Ok ls /\
    has_col df' "Latesttime" = false /\
    getcol df' "Announcement" = getcol df "Announcement" /\
    nrows df' = nrows df.
Proof.
  intros Hl Ht Hno.
  destruct (num_col_getcol _ _ _ Hl) as (l & El & Hl').
  destruct (num_col_getcol _ _ _ Ht) as (t & Et & Ht').
  destruct (zipM_cell_sub l t ls ts Hl' Ht') as (q & qs & Eq & Eqs & F).
  assert (Gl : getcol (rename_columns df) "l" = Ok l).
  { unfold getcol, rename_columns, has_col in *. cbn [cols].
    rewrite lookup_renamed_l by (destruct (lookup_col "l" (cols df)); congruence).
    destruct (lookup_col "Latesttime" (cols df)); [exact El | discriminate]. }
  assert (Gt : getcol (rename_columns df) "Time_Car-Peak" = Ok t).
  { unfold getcol, rename_columns in *. cbn [cols].
    rewrite lookup_renamed_kept by (reflexivity || discriminate). exact Et. }
  exists (setcol (rename_columns df) "q" q), qs.
  split; [unfold preprocess_frame; rewrite Gl; cbn [bind]; rewrite Gt; cbn [bind];
          rewrite Eq; reflexivity|].
  split; [unfold num_col; rewrite getcol_setcol_same; exact Eqs|].
  split; [exact F|].
  split; [unfold num_col; rewrite getcol_setcol_other by reflexivity;
          rewrite Gl; exact Hl'|].
  split.
  { unfold has_col, setcol. cbn [cols].
    rewrite lookup_col_set_other by reflexivity.
    unfold rename_columns. cbn [cols]. now rewrite lookup_renamed_gone. }
  split; [|reflexivity].
  rewrite getcol_setcol_other by reflexivity.
  unfold getcol, rename_columns. cbn [cols].
  now rewrite lookup_renamed_kept by (reflexivity || discriminate).
Qed.

(** X18. preprocess_data on one participant frame with numeric Latesttime
    and Time_Car-Peak columns (and no column already named l): the frame
    gets a column q that is, row by row, the latest time minus the travel
    time; the latest times are now read under the name l and no longer
    under Latesttime; the Announcement column and the row count are
    unchanged. *)
Theorem preprocess_frame_adds_q (df : DataFrame) (ls ts : list Q) :
  num_col df "Latesttime" = Ok ls ->
  num_col df "Time_Car-Peak" = Ok ts ->
  has_col df "l" = false ->
  exists df' qs,
    preprocess_frame df = Ok df' /\
    num_col df' "q" = Ok qs /\
    Forall2 Qeq qs (differences ls ts) /\
    num_col df' "l" = Ok ls /\
    has_col df' "Latesttime" = false /\
    getcol df' "Announcement" = getcol df "Announcement" /\
    nrows df' = nrows df.
Proof. exact (preprocess_frame_ok df ls ts). Qed.

Lemma preprocess_frame_adds_q_witness :
  exists df' qs,
    preprocess_frame csv_file = Ok df' /\
    num_col df' "q" = Ok qs /\
    Forall2 Qeq qs (differences [50; 40; 30; 45; 35; 60] [10; 10; 10; 15; 5; 20]) /\
    num_col df' "l" = Ok [50; 40; 30; 45; 35; 60] /\
    has_col df' "Latesttime" = false /\
    getcol df' "Announcement" = getcol csv_file "Announcement" /\
    nrows df' = nrows csv_file.
Proof.
  apply (preprocess_frame_adds_q csv_file [50; 40; 30; 45; 35; 60]
           [10; 10; 10; 15; 5; 20]); reflexivity.
Defined.

(** X19. What preprocess_data raises: KeyError for l when the driver frame
    has neither a Latesttime nor an l column, KeyError for Time_Car-Peak when
    the driver frame has latest times and no travel times, and KeyError for l
    when the driver frame is processed and the rider frame has neither
    column. *)
Theorem preprocess_data_missing_columns (driverdf riderdf : DataFrame) :
  (has_col driverdf "Latesttime" = false -> has_col driverdf "l" = false ->
   preprocess_data driverdf riderdf = Raise (KeyError "l")) /\
  (forall ls, num_col driverdf "Latesttime" = Ok ls -> has_col driverdf "l" = false ->
   has_col driverdf "Time_Car-Peak" = false ->
   preprocess_data driverdf riderdf = Raise (KeyError "Time_Car-Peak")) /\
  (forall driverdf', preprocess_frame driverdf = Ok driverdf' ->
   has_col riderdf "Latesttime" = false -> has_col riderdf "l" = false ->
   preprocess_data driverdf riderdf = Raise (KeyError "l")).
Proof.
  assert (Hmiss : forall df, has_col df "Latesttime" = false -> has_col df "l" = false ->
                  preprocess_frame df = Raise (KeyError "l")).
  { intros df H1 H2. unfold preprocess_frame.
    assert (G : getcol (rename_columns df) "l" = Raise (KeyError "l")).
    { apply has_col_getcol_raise. unfold has_col, rename_columns in *. cbn [cols].
      rewrite lookup_renamed_l by (destruct (lookup_col "l" (cols df)); congruence).
      exact H1. }
    now rewrite G. }
  split; [|split].
  - intros H1 H2. unfold preprocess_data. now rewrite (Hmiss _ H1 H2).
  - intros ls Hl Hno Hmt. unfold preprocess_data, preprocess_frame.
    destruct (num_col_getcol _ _ _ Hl) as (l & El & _).
    assert (Gl : getcol (rename_columns driverdf) "l" = Ok l).
    { unfold getcol, rename_columns, has_col in *. cbn [cols].
      rewrite lookup_renamed_l by (destruct (lookup_col "l" (cols driverdf)); congruence).
      destruct (lookup_col "Latesttime" (cols driverdf)); [exact El | discriminate]. }
    rewrite Gl. cbn [bind].
    assert (Gt : getcol (rename_columns driverdf) "Time_Car-Peak"
                 = Raise (KeyError "Time_Car-Peak")).
    { apply has_col_getcol_raise. unfold has_col, rename_columns in *. cbn [cols].
      now rewrite lookup_renamed_kept by (reflexivity || discriminate). }
    now rewrite Gt.
  - intros d' Ed H1 H2. unfold preprocess_data. rewrite Ed. cbn [bind].
    now rewrite (Hmiss _ H1 H2).
Qed.

Lemma preprocess_data_missing_columns_witness :
  preprocess_data two_drivers two_riders = Raise (KeyError "l") /\
  preprocess_data file_without_travel_time two_riders
  = Raise (KeyError "Time_Car-Peak") /\
  preprocess_data csv_file two_riders = Raise (KeyError "l").
Proof.
  split; [|split].
  - apply (proj1 (preprocess_data_missing_columns two_drivers two_riders));
      reflexivity.
  - apply (proj1 (proj2 (preprocess_data_missing_columns file_without_travel_time
                           two_riders)) [5]); reflexivity.
  - eapply (proj2 (proj2 (preprocess_data_missing_columns csv_file two_riders)));
      reflexivity.
Defined.

Lemma has_col_same_names (a b : DataFrame) (name : string) :
  column_names a = column_names b -> has_col a name = has_col b name.
Proof.
  intros H. destruct (has_col b name) eqn:E.
  - apply has_col_In. rewrite H. now apply has_col_In.
  - destruct (has_col a name) eqn:E'; [|reflexivity].
    apply has_col_In in E'. rewrite H in E'. apply has_col_In in E'. congruence.
Qed.

Lemma has_col_getcol (df : DataFrame) (name : string) (c : list cell) :
  getcol df name = Ok c -> has_col df name = true.
Proof.
  unfold getcol, has_col. destruct (lookup_col name (cols df)); [reflexivity | discriminate].
Qed.

(** X20. load_data followed by preprocess_data: on a file whose
    Announcement, Announcementtime, Latesttime and Time_Car-Peak columns hold
    numbers (and that has no column named l) both steps succeed; the
    preprocessed frames keep the Announcement column and the rows of the
    loaded ones, which is what create_pairs needs, and each has the column
    q. *)
Theorem load_then_preprocess (df : DataFrame) (num_drivers num_riders : nat)
  (ids times ls ts : list Q) :
  num_col df "Announcement" = Ok ids ->
  num_col df "Announcementtime" = Ok times ->
  num_col df "Latesttime" = Ok ls ->
  num_col df "Time_Car-Peak" = Ok ts ->
  has_col df "l" = false ->
  exists driverdf riderdf driverdf' riderdf',
    load_data df num_drivers num_riders = Ok (driverdf, riderdf) /\
    preprocess_data driverdf riderdf = Ok (driverdf', riderdf') /\
    getcol driverdf' "Announcement" = getcol driverdf "Announcement" /\
    getcol riderdf' "Announcement" = getcol riderdf "Announcement" /\
    has_col driverdf' "Announcement" = true /\
    has_col riderdf' "Announcement" = true /\
    has_col driverdf' "q" = true /\
    has_col riderdf' "q" = true /\
    nrows driverdf' = nrows driverdf /\
    nrows riderdf' = nrows riderdf.
Proof.
  intros Hi Ht Hl Hp Hno.
  pose proof (load_data_frames df num_drivers num_riders ids times Hi Ht) as E.
  set (d := head_rows _ num_drivers) in E. set (r := head_rows _ num_riders) in E.
  assert (Hd : exists d' qs, preprocess_frame d = Ok d' /\ num_col d' "q" = Ok qs /\
                 getcol d' "Announcement" = getcol d "Announcement" /\
                 nrows d' = nrows d).
  { destruct (preprocess_frame_ok d _ _ (num_col_kept _ _ _ _ _ _ Hl)
                (num_col_kept _ _ _ _ _ _ Hp)) as (d' & qs & H1 & H2 & _ & _ & _ & H3 & H4).
    - unfold d. rewrite (has_col_same_names _ df); [exact Hno | apply column_names_kept].
    - eauto 8. }
  assert (Hr : exists r' qs, preprocess_frame r = Ok r' /\ num_col r' "q" = Ok qs /\
                 getcol r' "Announcement" = getcol r "Announcement" /\
                 nrows r' = nrows r).
  { destruct (preprocess_frame_ok r _ _ (num_col_kept _ _ _ _ _ _ Hl)
                (num_col_kept _ _ _ _ _ _ Hp)) as (r' & qs & H1 & H2 & _ & _ & _ & H3 & H4).
    - unfold r. rewrite (has_col_same_names _ df); [exact Hno | apply column_names_kept].
    - eauto 8. }
  destruct Hd as (d' & qd & Ed & Qd & Ad & Nd).
  destruct Hr as (r' & qr & Er & Qr & Ar & Nr).
  destruct (num_col_getcol _ _ _ (num_col_kept df "Announcement" ids
              (map is_driver_id ids)
              (pick (where_true 0 (map is_driver_id ids)) times) num_drivers Hi))
    as (cd & Ecd & _).
  destruct (num_col_getcol _ _ _ (num_col_kept df "Announcement" ids
              (map is_rider_id ids)
              (pick (where_true 0 (map is_rider_id ids)) times) num_riders Hi))
    as (cr & Ecr & _).
  destruct (num_col_getcol _ _ _ Qd) as (qcd & Eqd & _).
  destruct (num_col_getcol _ _ _ Qr) as (qcr & Eqr & _).
  exists d, r, d', r'. split; [exact E|].
  split; [unfold preprocess_data; rewrite Ed; cbn [bind]; rewrite Er; reflexivity|].
  split; [exact Ad|]. split; [exact Ar|].
  split; [apply (has_col_getcol _ _ cd); rewrite Ad; exact Ecd|].
  split; [apply (has_col_getcol _ _ cr); rewrite Ar; exact Ecr|].
  split; [exact (has_col_getcol _ _ _ Eqd)|].
  split; [exact (has_col_getcol _ _ _ Eqr)|].
  split; assumption.
Qed.

Lemma load_then_preprocess_witness :
  exists driverdf riderdf driverdf' riderdf',
    load_data csv_file 2 5 = Ok (driverdf, riderdf) /\
    preprocess_data driverdf riderdf = Ok (driverdf', riderdf') /\
    getcol driverdf' "Announcement" = getcol driverdf "Announcement" /\
    getcol riderdf' "Announcement" = getcol riderdf "Announcement" /\
    has_col driverdf' "Announcement" = true /\
    has_col riderdf' "Announcement" = true /\
    has_col driverdf' "q" = true /\
    has_col riderdf' "q" = true /\
    nrows driverdf' = nrows driverdf /\
    nrows riderdf' = nrows riderdf.
Proof.
  apply (load_then_preprocess csv_file 2 5
           [200001; 5; 100000; 3; 200002; 4] [9; 7; 1; 8; 2; 6]
           [50; 40; 30; 45; 35; 60] [10; 10; 10; 15; 5; 20]); reflexivity.
Defined.
